(** * A shallow embedding of the Rest-API route handlers

    The repository is an Express application with three routers
    (users, movies, cinemas) over a MongoDB database.  Each handler
    is embedded as a function in a small state-and-exception monad
    over an explicit model of the document store.  JavaScript values
    are an inductive type; the quirks the handlers rely on
    (truthiness, [typeof], property lookup on non-objects, method
    calls that throw a TypeError) are written out. *)

From Stdlib Require Import ZArith QArith Qround List String Ascii Bool Lia.
From Stdlib Require Import DecimalString.
From Stdlib Require Qcanon.
From Stdlib Require Import Sorting.Sorted Sorting.Permutation.
Import ListNotations.

Set Warnings "-register-all".

Local Open Scope string_scope.
Local Open Scope Z_scope.

(* ================================================================= *)
(** ** JavaScript numbers *)

(** A number is [NaN], an infinity or an exact rational.  Rounding
    to binary64 is outside the model: every finite value is kept
    exactly, and results of arithmetic are reduced with [Qred] so
    that equal results are syntactically equal. *)
Inductive Num : Type :=
| NaN
| Inf (neg : bool)
| Fin (q : Q).

Definition of_Z (z : Z) : Num := Fin (inject_Z z).
Definition of_nat (n : nat) : Num := of_Z (Z.of_nat n).

Definition Qltb (a b : Q) : bool := negb (Qle_bool b a).

(** [a < b] *)
Definition num_ltb (a b : Num) : bool :=
  match a, b with
  | NaN, _ | _, NaN => false
  | Inf true, Inf true => false
  | Inf true, _ => true
  | Inf false, _ => false
  | Fin _, Inf neg => negb neg
  | Fin x, Fin y => Qltb x y
  end.

(** [a <= b] *)
Definition num_leb (a b : Num) : bool :=
  match a, b with
  | NaN, _ | _, NaN => false
  | Inf true, _ => true
  | Inf false, Inf false => true
  | Inf false, _ => false
  | Fin _, Inf neg => negb neg
  | Fin x, Fin y => Qle_bool x y
  end.

(** [a === b] on numbers: [NaN] equals nothing. *)
Definition num_eqb (a b : Num) : bool :=
  match a, b with
  | Inf s, Inf t => Bool.eqb s t
  | Fin x, Fin y => Qeq_bool x y
  | _, _ => false
  end.

Definition num_is_zero (a : Num) : bool :=
  match a with Fin q => Qeq_bool q 0 | _ => false end.

Definition num_add (a b : Num) : Num :=
  match a, b with
  | NaN, _ | _, NaN => NaN
  | Inf s, Inf t => if Bool.eqb s t then Inf s else NaN
  | Inf s, Fin _ | Fin _, Inf s => Inf s
  | Fin x, Fin y => Fin (Qred (x + y))
  end.

Definition num_neg (a : Num) : Num :=
  match a with
  | NaN => NaN
  | Inf s => Inf (negb s)
  | Fin x => Fin (Qred (- x))
  end.

Definition num_sub (a b : Num) : Num := num_add a (num_neg b).

Definition Qneg_b (x : Q) : bool := Qltb x 0.

Definition num_mul (a b : Num) : Num :=
  match a, b with
  | NaN, _ | _, NaN => NaN
  | Inf s, Inf t => Inf (xorb s t)
  | Inf s, Fin x | Fin x, Inf s =>
      if Qeq_bool x 0 then NaN else Inf (xorb s (Qneg_b x))
  | Fin x, Fin y => Fin (Qred (x * y))
  end.

(** [a / b]; a zero divisor is the positive zero, which is what the
    handlers can produce. *)
Definition num_div (a b : Num) : Num :=
  match a, b with
  | NaN, _ | _, NaN => NaN
  | Inf _, Inf _ => NaN
  | Inf s, Fin y => Inf (xorb s (Qneg_b y))
  | Fin _, Inf _ => Fin 0
  | Fin x, Fin y =>
      if Qeq_bool y 0 then
        (if Qeq_bool x 0 then NaN else Inf (Qneg_b x))
      else Fin (Qred (x / y))
  end.

(** [Math.ceil] *)
Definition num_ceil (a : Num) : Num :=
  match a with
  | Fin x => of_Z (Qceiling x)
  | _ => a
  end.

(* ================================================================= *)
(** ** JavaScript values *)

(** Objects keep their keys in insertion order.  [VOid] is a driver
    [ObjectId], held as its 24 hexadecimal characters.  [VPromise v]
    is a promise that will resolve to [v]: what a driver call returns
    when it is not awaited. *)
Inductive Value : Type :=
| VUndef
| VNull
| VBool (b : bool)
| VNum (n : Num)
| VStr (s : string)
| VArr (items : list Value)
| VObj (fields : list (string * Value))
| VOid (hex : string)
| VPromise (result : Value).

Definition Fields := list (string * Value).

(** [!v] is [negb (truthy v)]. *)
Definition truthy (v : Value) : bool :=
  match v with
  | VUndef | VNull => false
  | VBool b => b
  | VNum NaN => false
  | VNum n => negb (num_is_zero n)
  | VStr s => negb (s =? EmptyString)%string
  | VArr _ | VObj _ | VOid _ | VPromise _ => true
  end.

Inductive JsType := TUndefined | TObject | TBoolean | TNumber | TString.

Definition typeof (v : Value) : JsType :=
  match v with
  | VUndef => TUndefined
  | VNull => TObject
  | VBool _ => TBoolean
  | VNum _ => TNumber
  | VStr _ => TString
  | VArr _ | VObj _ | VOid _ | VPromise _ => TObject
  end.

Definition is_string (v : Value) : bool :=
  match v with VStr _ => true | _ => false end.
Definition is_number (v : Value) : bool :=
  match v with VNum _ => true | _ => false end.
Definition is_object_type (v : Value) : bool :=
  match typeof v with TObject => true | _ => false end.
Definition isArray (v : Value) : bool :=
  match v with VArr _ => true | _ => false end.

(** Structural equality, used for [===] on primitives, for
    [Array.prototype.includes] on primitives and for the store's
    equality match. *)
Fixpoint value_eqb (a b : Value) {struct a} : bool :=
  match a, b with
  | VUndef, VUndef => true
  | VNull, VNull => true
  | VBool x, VBool y => Bool.eqb x y
  | VNum x, VNum y => num_eqb x y
  | VStr x, VStr y => (x =? y)%string
  | VArr xs, VArr ys =>
      (fix go (l : list Value) (r : list Value) : bool :=
         match l, r with
         | [], [] => true
         | x :: l', y :: r' => value_eqb x y && go l' r'
         | _, _ => false
         end) xs ys
  | VObj xs, VObj ys =>
      (fix go (l r : list (string * Value)) : bool :=
         match l, r with
         | [], [] => true
         | (k, x) :: l', (k', y) :: r' =>
             (k =? k')%string && value_eqb x y && go l' r'
         | _, _ => false
         end) xs ys
  | VOid x, VOid y => (x =? y)%string
  | VPromise x, VPromise y => value_eqb x y
  | _, _ => false
  end.

(** [Array.prototype.includes] compares with SameValueZero:
    primitives by value ([NaN] equal to itself), objects by
    reference, and an object parsed from a request is never the
    object held in an array read from the store. *)
Definition same_value_zero (a b : Value) : bool :=
  match a, b with
  | VNum NaN, VNum NaN => true
  | VArr _, _ | VObj _, _ | VOid _, _ | VPromise _, _ => false
  | _, _ => value_eqb a b
  end.

(* ----------------------------------------------------------------- *)
(** *** Property access *)

Fixpoint lookup (k : string) (fs : Fields) : option Value :=
  match fs with
  | [] => None
  | (k', v) :: rest => if (k =? k')%string then Some v else lookup k rest
  end.

Definition has_key (k : string) (fs : Fields) : bool :=
  match lookup k fs with Some _ => true | None => false end.

(** [o.k = v]: replaces in place when the key exists, appends
    otherwise. *)
Fixpoint set_field (k : string) (v : Value) (fs : Fields) : Fields :=
  match fs with
  | [] => [(k, v)]
  | (k', v') :: rest =>
      if (k =? k')%string then (k, v) :: rest
      else (k', v') :: set_field k v rest
  end.

Definition remove_field (k : string) (fs : Fields) : Fields :=
  filter (fun kv => negb (k =? fst kv)%string) fs.

(** [v.k] for a value that is known not to be [undefined] or [null]
    (every use in the handlers is guarded): own fields of an object,
    [undefined] for a named field of anything else. *)
Definition get (v : Value) (k : string) : Value :=
  match v with
  | VObj fs => match lookup k fs with Some x => x | None => VUndef end
  | _ => VUndef
  end.

(* ----------------------------------------------------------------- *)
(** *** Strings *)

Definition is_digit (c : ascii) : bool :=
  let n := nat_of_ascii c in (48 <=? n)%nat && (n <=? 57)%nat.

Definition is_letter (c : ascii) : bool :=
  let n := nat_of_ascii c in
  ((65 <=? n)%nat && (n <=? 90)%nat) || ((97 <=? n)%nat && (n <=? 122)%nat).

Definition is_hex (c : ascii) : bool :=
  let n := nat_of_ascii c in
  is_digit c || ((65 <=? n)%nat && (n <=? 70)%nat)
             || ((97 <=? n)%nat && (n <=? 102)%nat).

Definition is_space (c : ascii) : bool :=
  let n := nat_of_ascii c in
  (n =? 32)%nat || ((9 <=? n)%nat && (n <=? 13)%nat).

Fixpoint all_chars (p : ascii -> bool) (s : string) : bool :=
  match s with
  | EmptyString => true
  | String c rest => p c && all_chars p rest
  end.

Definition nonempty (s : string) : bool :=
  match s with EmptyString => false | _ => true end.

(** [/^\d+$/.test(s)] *)
Definition digits_only (s : string) : bool := nonempty s && all_chars is_digit s.

(** [/^[a-zA-Z]+$/.test(s)] *)
Definition letters_only (s : string) : bool := nonempty s && all_chars is_letter s.

Definition digit_val (c : ascii) : Z := Z.of_nat (nat_of_ascii c) - 48.

Fixpoint parse_digits (acc : Z) (s : string) : Z :=
  match s with
  | EmptyString => acc
  | String c rest => parse_digits (10 * acc + digit_val c) rest
  end.

Fixpoint digit_prefix (s : string) : string :=
  match s with
  | String c rest => if is_digit c then String c (digit_prefix rest) else EmptyString
  | EmptyString => EmptyString
  end.

(** [parseInt(s)]: the decimal digits that open the string, [NaN]
    when there are none.  Every call in the handlers is on a string
    that passed [digits_only].  The value is the exact integer: it is
    the number of the language up to [Number.MAX_SAFE_INTEGER], above
    which the language rounds. *)
Definition parseInt (s : string) : Num :=
  match digit_prefix s with
  | EmptyString => NaN
  | ds => of_Z (parse_digits 0 ds)
  end.

Fixpoint drop_spaces (s : string) : string :=
  match s with
  | EmptyString => EmptyString
  | String c rest => if is_space c then drop_spaces rest else s
  end.

Fixpoint rev_string (acc s : string) : string :=
  match s with
  | EmptyString => acc
  | String c rest => rev_string (String c acc) rest
  end.

(** [s.trim()] over the ASCII white space characters. *)
Definition trim (s : string) : string :=
  rev_string EmptyString (drop_spaces (rev_string EmptyString (drop_spaces s))).

Definition show_Z (n : Z) : string := NilZero.string_of_int (Z.to_int n).

(** Rendering of a number inside a template literal.  Integers get
    their decimal digits; a fraction is shown as numerator over
    denominator, the shortest-decimal printer being outside the
    model. *)
Definition show (n : Num) : string :=
  match n with
  | NaN => "NaN"
  | Inf false => "Infinity"
  | Inf true => "-Infinity"
  | Fin q =>
      let r := Qred q in
      match Qden r with
      | xH => show_Z (Qnum r)
      | d => show_Z (Qnum r) ++ "/" ++ show_Z (Zpos d)
      end
  end.

Fixpoint join (sep : string) (l : list string) : string :=
  match l with
  | [] => EmptyString
  | [x] => x
  | x :: rest => x ++ sep ++ join sep rest
  end.

(** String conversion used by [join] and template literals on the
    values that reach them in the handlers. *)
Fixpoint to_string (v : Value) : string :=
  match v with
  | VStr s => s
  | VNum n => show n
  | VBool true => "true"
  | VBool false => "false"
  | VNull => "null"
  | VUndef => "undefined"
  | VOid h => h
  | VArr items =>
      (fix elements (l : list Value) : string :=
         match l with
         | [] => EmptyString
         | [x] => match x with VNull | VUndef => EmptyString | _ => to_string x end
         | x :: rest =>
             match x with VNull | VUndef => EmptyString | _ => to_string x end
             ++ "," ++ elements rest
         end) items
  | VObj _ => "[object Object]"
  | VPromise _ => "[object Promise]"
  end.

Definition lower (c : ascii) : ascii :=
  let n := nat_of_ascii c in
  if (65 <=? n)%nat && (n <=? 90)%nat then ascii_of_nat (n + 32) else c.

Fixpoint lowercase (s : string) : string :=
  match s with
  | EmptyString => EmptyString
  | String c rest => String (lower c) (lowercase rest)
  end.

(* ================================================================= *)
(** ** The document store *)

(** The database is the external collaborator of every handler.  It
    is modelled as three ordered collections of documents, with the
    operations of the driver the handlers call.  A document is the
    field list of an object. *)
Definition Doc := Fields.

Inductive Coll := Users | Movies | Cinemas.

Record Store := mkStore {
  users : list Doc;
  movies : list Doc;
  cinemas : list Doc;
  oid_counter : nat
}.

Definition coll (c : Coll) (s : Store) : list Doc :=
  match c with
  | Users => users s
  | Movies => movies s
  | Cinemas => cinemas s
  end.

Definition set_coll (c : Coll) (docs : list Doc) (s : Store) : Store :=
  match c with
  | Users => mkStore docs (movies s) (cinemas s) (oid_counter s)
  | Movies => mkStore (users s) docs (cinemas s) (oid_counter s)
  | Cinemas => mkStore (users s) (movies s) docs (oid_counter s)
  end.

(** Every call that reaches the driver is recorded. *)
Inductive DbOp :=
| OpCount (c : Coll)
| OpFind (c : Coll)
| OpFindOne (c : Coll) (id : Value)
| OpInsertMany (c : Coll) (n : nat)
| OpUpdateOne (c : Coll) (id : Value)
| OpDeleteOne (c : Coll) (id : Value)
| OpDistinct (c : Coll) (field : string)
| OpAggregate (c : Coll)
| OpGeo (c : Coll).

Record World := mkWorld {
  db : Store;
  oplog : list DbOp
}.

(* ----------------------------------------------------------------- *)
(** *** The handler monad: store state and JavaScript exceptions *)

Inductive Res (A : Type) : Type :=
| Ok (a : A)
| Throw (message : string).
Arguments Ok {A} a.
Arguments Throw {A} message.

Definition M (A : Type) : Type := World -> Res A * World.

Definition ret {A} (a : A) : M A := fun w => (Ok a, w).

Definition bind {A B} (m : M A) (k : A -> M B) : M B :=
  fun w =>
    match m w with
    | (Ok a, w') => k a w'
    | (Throw e, w') => (Throw e, w')
    end.

Definition throw {A} (e : string) : M A := fun w => (Throw e, w).

(** [try { m } catch (e) { h e }] *)
Definition try_catch {A} (m : M A) (h : string -> M A) : M A :=
  fun w =>
    match m w with
    | (Ok a, w') => (Ok a, w')
    | (Throw e, w') => h e w'
    end.

Definition record (op : DbOp) : M unit :=
  fun w => (Ok tt, mkWorld (db w) (oplog w ++ [op])).

Definition read_coll (c : Coll) : M (list Doc) :=
  fun w => (Ok (coll c (db w)), w).

Definition write_coll (c : Coll) (docs : list Doc) : M unit :=
  fun w => (Ok tt, mkWorld (set_coll c docs (db w)) (oplog w)).

Declare Scope monad_scope.
Delimit Scope monad_scope with monad.
Notation "x <- c1 ;; c2" := (bind c1 (fun x => c2))
  (at level 61, c1 at next level, right associativity) : monad_scope.
Notation "c1 ;;; c2" := (bind c1 (fun _ => c2))
  (at level 61, right associativity) : monad_scope.
Local Open Scope monad_scope.

(** A [for] loop over an array that accumulates into [acc]. *)
Fixpoint for_each {A St} (body : St -> A -> M St) (acc : St) (l : list A) : M St :=
  match l with
  | [] => ret acc
  | x :: rest => acc' <- body acc x ;; for_each body acc' rest
  end.

(** The same with the loop index. *)
Fixpoint for_index {A St} (body : St -> nat -> A -> M St) (i : nat) (acc : St)
         (l : list A) : M St :=
  match l with
  | [] => ret acc
  | x :: rest => acc' <- body acc i x ;; for_index body (S i) acc' rest
  end.

(* ----------------------------------------------------------------- *)
(** *** Matching and ordering of stored values *)

(** The store's equality match [{field: q}]: the field equals [q],
    or is an array one of whose elements equals [q]; a missing field
    matches [null] only. *)
Definition field_matches (v : option Value) (q : Value) : bool :=
  match v with
  | None => value_eqb VNull q
  | Some (VArr items) => value_eqb (VArr items) q || existsb (fun x => value_eqb x q) items
  | Some x => value_eqb x q
  end.

Definition has_id (id : Value) (d : Doc) : bool := field_matches (lookup "_id" d) id.

(** Rank of a value's type in the store's sort order. *)
Definition bson_rank (v : Value) : nat :=
  match v with
  | VUndef | VNull => 1
  | VNum _ => 2
  | VStr _ => 3
  | VObj _ | VPromise _ => 4
  | VArr _ => 5
  | VOid _ => 7
  | VBool _ => 8
  end%nat.

Definition num_key_leb (a b : Num) : bool :=
  match a, b with
  | NaN, _ => true
  | _, NaN => false
  | _, _ => num_leb a b
  end.

(** [a] sorts no later than [b] in ascending order.  Values of one
    type that are neither numbers, strings, booleans nor identifiers
    are not ordered among themselves. *)
Definition bson_leb (a b : Value) : bool :=
  if (bson_rank a <? bson_rank b)%nat then true
  else if (bson_rank b <? bson_rank a)%nat then false
  else match a, b with
       | VNum x, VNum y => num_key_leb x y
       | VStr x, VStr y => (x <=? y)%string
       | VOid x, VOid y => (x <=? y)%string
       | VBool x, VBool y => implb x y
       | _, _ => true
       end.

Fixpoint insert_by {A} (le : A -> A -> bool) (x : A) (l : list A) : list A :=
  match l with
  | [] => [x]
  | y :: rest => if le x y then x :: l else y :: insert_by le x rest
  end.

(** A stable sort. *)
Definition sort_by {A} (le : A -> A -> bool) (l : list A) : list A :=
  fold_right (insert_by le) [] l.

Fixpoint get_path (v : Value) (path : list string) : Value :=
  match path with
  | [] => v
  | k :: rest => get_path (get v k) rest
  end.

Definition sort_key (path : list string) (d : Doc) : Value :=
  match get_path (VObj d) path with
  | VUndef => VNull
  | v => v
  end.

Definition num_to_nat (n : Num) : nat :=
  match n with
  | Fin q => Z.to_nat (Qfloor q)
  | _ => 0%nat
  end.

Fixpoint hex_digits (fuel : nat) (n : N) (acc : string) : string :=
  match fuel with
  | O => acc
  | S fuel' =>
      let d := N.to_nat (N.modulo n 16) in
      let c := if (d <? 10)%nat then ascii_of_nat (48 + d) else ascii_of_nat (87 + d) in
      hex_digits fuel' (N.div n 16) (String c acc)
  end.

(** The identifier the store assigns to the [n]-th inserted document
    (the driver derives it from time, process and a counter; only the
    counter is kept). *)
Definition fresh_oid (n : nat) : Value := VOid (hex_digits 24 (N.of_nat n) EmptyString).

(* ----------------------------------------------------------------- *)
(** *** Driver operations *)

Definition by_id_leb (a b : Doc) : bool :=
  bson_leb (sort_key ["_id"] a) (sort_key ["_id"] b).

(** [countDocuments()] *)
Definition countDocuments (c : Coll) : M Num :=
  record (OpCount c) ;;;
  docs <- read_coll c ;;
  ret (of_nat (List.length docs)).

(** [find({}).sort({_id: 1}).skip(skip).limit(limit).toArray()];
    a limit of 0 is no limit. *)
Definition find_page (c : Coll) (skip limit : Num) : M (list Value) :=
  record (OpFind c) ;;;
  docs <- read_coll c ;;
  let rest := skipn (num_to_nat skip) (sort_by by_id_leb docs) in
  let page := if num_is_zero limit then rest else firstn (num_to_nat limit) rest in
  ret (map VObj page).

(** [findOne({_id: id})]: the document, or [null].  The identifier
    is matched as a value; an object with operator keys, which the
    driver reads as a query, is outside the model. *)
Definition findOne (c : Coll) (id : Value) : M Value :=
  record (OpFindOne c id) ;;;
  docs <- read_coll c ;;
  ret (match find (has_id id) docs with
       | Some d => VObj d
       | None => VNull
       end).

(** [find(query, {projection: {_id: 0}}).toArray()] for a query that
    is a conjunction of equality matches. *)
Definition find_eq (c : Coll) (query : Fields) : M (list Value) :=
  record (OpFind c) ;;;
  docs <- read_coll c ;;
  let ok d := forallb (fun kv => field_matches (lookup (fst kv) d) (snd kv)) query in
  ret (map (fun d => VObj (remove_field "_id" d)) (filter ok docs)).

Fixpoint assign_ids (n : nat) (docs : list Value) : list Doc * list Value :=
  match docs with
  | [] => ([], [])
  | d :: rest =>
      let fs := match d with VObj fs => fs | _ => [] end in
      let (stored, ids) := assign_ids (S n) rest in
      match lookup "_id" fs with
      | Some id => (fs :: stored, id :: ids)
      | None => ((("_id", fresh_oid n) :: fs) :: stored, fresh_oid n :: ids)
      end
  end.

Fixpoint index_fields (i : nat) (l : list Value) : Fields :=
  match l with
  | [] => []
  | x :: rest => (show (of_nat i), x) :: index_fields (S i) rest
  end.

(** [insertMany(docs)]: the driver refuses an empty batch; otherwise
    every document is stored, with an identifier when it has none. *)
Definition insertMany (c : Coll) (docs : list Value) : M Value :=
  record (OpInsertMany c (List.length docs)) ;;;
  match docs with
  | [] => throw "Invalid BulkOperation, Batch cannot be empty"
  | _ =>
      fun w =>
        let s := db w in
        let (stored, ids) := assign_ids (oid_counter s) docs in
        let s' := set_coll c (coll c s ++ stored) s in
        let s'' := mkStore (users s') (movies s') (cinemas s')
                           (oid_counter s + List.length docs) in
        (Ok (VObj [("acknowledged", VBool true);
                   ("insertedCount", VNum (of_nat (List.length docs)));
                   ("insertedIds", VObj (index_fields 0 ids))]),
         mkWorld s'' (oplog w))
  end.

Definition apply_set (changes : Fields) (d : Doc) : Doc :=
  fold_left (fun acc kv => set_field (fst kv) (snd kv) acc) changes d.

Fixpoint update_first (p : Doc -> bool) (f : Doc -> Doc) (docs : list Doc)
  : list Doc :=
  match docs with
  | [] => []
  | d :: rest => if p d then f d :: rest else d :: update_first p f rest
  end.

Fixpoint remove_first (p : Doc -> bool) (docs : list Doc) : list Doc :=
  match docs with
  | [] => []
  | d :: rest => if p d then rest else d :: remove_first p rest
  end.

Definition count_of (b : bool) : Value := VNum (of_Z (if b then 1 else 0)).

(** [updateOne({_id: id}, {$set: changes})].  Of the result the
    acknowledgement and the two counts are kept. *)
Definition updateOne_set (c : Coll) (id : Value) (changes : Fields) : M Value :=
  record (OpUpdateOne c id) ;;;
  docs <- read_coll c ;;
  let hit := find (has_id id) docs in
  let changed := match hit with
                 | Some d => negb (value_eqb (VObj d) (VObj (apply_set changes d)))
                 | None => false
                 end in
  write_coll c (update_first (has_id id) (apply_set changes) docs) ;;;
  ret (VObj [("acknowledged", VBool true);
             ("matchedCount", count_of (match hit with Some _ => true | None => false end));
             ("modifiedCount", count_of changed)]).

(** [deleteOne({_id: id})] *)
Definition deleteOne (c : Coll) (id : Value) : M Value :=
  record (OpDeleteOne c id) ;;;
  docs <- read_coll c ;;
  write_coll c (remove_first (has_id id) docs) ;;;
  ret (VObj [("acknowledged", VBool true);
             ("deletedCount", count_of (existsb (has_id id) docs))]).

Fixpoint dedup (seen : list Value) (l : list Value) : list Value :=
  match l with
  | [] => []
  | x :: rest =>
      if existsb (value_eqb x) seen then dedup seen rest
      else x :: dedup (x :: seen) rest
  end.

Definition field_values (field : string) (d : Doc) : list Value :=
  match lookup field d with
  | None => []
  | Some (VArr items) => items
  | Some v => [v]
  end.

Definition distinct_values (field : string) (docs : list Doc) : list Value :=
  dedup [] (flat_map (field_values field) docs).

(** [distinct(field)] returns a promise of the distinct values of the
    field across the collection, array fields contributing their
    elements. *)
Definition distinct (c : Coll) (field : string) : M Value :=
  record (OpDistinct c field) ;;;
  docs <- read_coll c ;;
  ret (VPromise (VArr (distinct_values field docs))).

(** [await v] *)
Definition await (v : Value) : Value :=
  match v with
  | VPromise r => r
  | _ => v
  end.

(* ----------------------------------------------------------------- *)
(** *** Aggregation pipelines *)

(** The stages the embedded handlers use. *)
Inductive Stage :=
| SMatch (path : list string) (v : Value)
| SUnwind (field : string)
| SSortDesc (path : list string)
| SLimit (n : nat)
| SGroupPush (out field : string)
| SGroupAvg (out : string) (path : list string)
| SProject (keep : list string).

Definition unwind (field : string) (d : Doc) : list Doc :=
  match lookup field d with
  | None | Some VNull | Some VUndef => []
  | Some (VArr items) => map (fun x => set_field field x d) items
  | Some _ => [d]
  end.

Definition desc_leb (path : list string) (a b : Doc) : bool :=
  bson_leb (sort_key path b) (sort_key path a).

Definition id_of (d : Doc) : Value :=
  match lookup "_id" d with Some v => v | None => VNull end.

Definition pushed (field : string) (d : Doc) : list Value :=
  match lookup field d with Some v => [v] | None => [] end.

(** [{$group: {_id: "$_id", out: {$push: "$field"}}}]: one document
    per identifier, in order of first appearance. *)
Definition group_push (out field : string) (docs : list Doc) : list Doc :=
  map (fun id =>
         [("_id", id);
          (out, VArr (flat_map (pushed field)
                               (filter (fun d => value_eqb (id_of d) id) docs)))])
      (dedup [] (map id_of docs)).

Definition numeric (v : Value) : list Q :=
  match v with VNum (Fin q) => [q] | _ => [] end.

Definition average (qs : list Q) : Value :=
  match qs with
  | [] => VNull
  | _ => VNum (Fin (Qred (fold_right Qplus 0%Q qs / inject_Z (Z.of_nat (List.length qs)))))
  end.

(** [{$group: {_id: null, out: {$avg: path}}}] *)
Definition group_avg (out : string) (path : list string) (docs : list Doc)
  : list Doc :=
  match docs with
  | [] => []
  | _ => [[("_id", VNull);
           (out, average (flat_map (fun d => numeric (get_path (VObj d) path)) docs))]]
  end.

(** An inclusion projection keeps the listed fields that exist. *)
Definition project (keep : list string) (d : Doc) : Doc :=
  filter (fun kv => existsb (String.eqb (fst kv)) keep) d.

Definition path_matches (path : list string) (q : Value) (d : Doc) : bool :=
  match get_path (VObj d) path with
  | VUndef => value_eqb VNull q
  | v => field_matches (Some v) q
  end.

Definition run_stage (st : Stage) (docs : list Doc) : list Doc :=
  match st with
  | SMatch path v => filter (path_matches path v) docs
  | SUnwind field => flat_map (unwind field) docs
  | SSortDesc path => sort_by (desc_leb path) docs
  | SLimit n => firstn n docs
  | SGroupPush out field => group_push out field docs
  | SGroupAvg out path => group_avg out path docs
  | SProject keep => map (project keep) docs
  end.

Definition run_pipeline (p : list Stage) (docs : list Doc) : list Doc :=
  fold_left (fun acc st => run_stage st acc) p docs.

(** [aggregate(pipeline).toArray()] *)
Definition aggregate (c : Coll) (p : list Stage) : M (list Value) :=
  record (OpAggregate c) ;;;
  docs <- read_coll c ;;
  ret (map VObj (run_pipeline p docs)).

(* ================================================================= *)
(** ** Requests and responses *)

Record Request := mkRequest {
  params : list (string * string);
  query : list (string * string);
  body : Value
}.

Fixpoint assoc (k : string) (l : list (string * string)) : option string :=
  match l with
  | [] => None
  | (k', v) :: rest => if (k =? k')%string then Some v else assoc k rest
  end.

(** [req.params.k] / [req.query.k] as a value: a string, or
    [undefined]. *)
Definition str_or_undef (o : option string) : Value :=
  match o with Some s => VStr s | None => VUndef end.

Definition param (req : Request) (k : string) : string :=
  match assoc k (params req) with Some s => s | None => EmptyString end.

Definition qparam (req : Request) (k : string) : string :=
  match assoc k (query req) with Some s => s | None => EmptyString end.

Inductive Response :=
| Redirect (location : string)
| Reply (status : Z) (payload : Value).

Definition error_body (msg : string) : Value := VObj [("error", VStr msg)].

Definition error_details (msg : string) (details : Value) : Value :=
  VObj [("error", VStr msg); ("details", details)].

(** What a handler run leaves behind: the response (or an exception
    no [catch] took), the store and the driver calls, in order. *)
Definition serve (h : M Response) (s : Store) : Res Response * Store * list DbOp :=
  let (r, w) := h (mkWorld s []) in (r, db w, oplog w).

(* ----------------------------------------------------------------- *)
(** *** Member access that can throw *)

(** [v.k] where [v] may be [undefined] or [null]. *)
Definition member (v : Value) (k : string) : M Value :=
  match v with
  | VUndef => throw ("Cannot read properties of undefined (reading '" ++ k ++ "')")
  | VNull => throw ("Cannot read properties of null (reading '" ++ k ++ "')")
  | _ => ret (get v k)
  end.

(** [v.length] *)
Definition length_of (v : Value) : M Value :=
  match v with
  | VUndef => throw "Cannot read properties of undefined (reading 'length')"
  | VNull => throw "Cannot read properties of null (reading 'length')"
  | VArr items => ret (VNum (of_nat (List.length items)))
  | VStr s => ret (VNum (of_nat (String.length s)))
  | _ => ret (get v "length")
  end.

(** [o.hasOwnProperty(k)] for the field names the filters ask about.
    A body object that carries its own [hasOwnProperty] key shadows
    the method with a value that cannot be called; the message of the
    error leaves out the name of the receiver. *)
Definition hasOwnProperty (o : Value) (k : string) : M bool :=
  match o with
  | VUndef => throw "Cannot read properties of undefined (reading 'hasOwnProperty')"
  | VNull => throw "Cannot read properties of null (reading 'hasOwnProperty')"
  | VObj fs =>
      if has_key "hasOwnProperty" fs
      then throw "hasOwnProperty is not a function"
      else ret (has_key k fs)
  | _ => ret false
  end.

(** [a.includes(x)] *)
Definition includes (name : string) (a x : Value) : M bool :=
  match a with
  | VArr items => ret (existsb (same_value_zero x) items)
  | VUndef | VNull => throw ("Cannot read properties of " ++ to_string a ++ " (reading 'includes')")
  | _ => throw (name ++ ".includes is not a function")
  end.

(** [a.join(sep)] *)
Definition join_of (name : string) (sep : string) (a : Value) : M string :=
  match a with
  | VArr items => ret (join sep (map to_string items))
  | VUndef | VNull => throw ("Cannot read properties of " ++ to_string a ++ " (reading 'join')")
  | _ => throw (name ++ ".join is not a function")
  end.

(** [a.push(x)], returning the extended array. *)
Definition push_of (name : string) (a x : Value) : M Value :=
  match a with
  | VArr items => ret (VArr (items ++ [x])%list)
  | _ => throw (name ++ ".push is not a function")
  end.

(** Own enumerable entries, as [for ... in] and object spread see
    them. *)
Fixpoint chars (s : string) : list Value :=
  match s with
  | EmptyString => []
  | String c rest => VStr (String c EmptyString) :: chars rest
  end.

Definition own_entries (v : Value) : Fields :=
  match v with
  | VObj fs => fs
  | VArr items => index_fields 0 items
  | VStr s => index_fields 0 (chars s)
  | _ => []
  end.

(* ================================================================= *)
(** ** Paginated listing (users, movies, cinemas) *)

Definition present (o : option string) : bool := truthy (str_or_undef o).

(** The response of a list handler, from the page fetched and the
    counters. *)
Definition envelope (key : string) (results : list Value)
           (totalDocs totalPages currentPage : Num) : Fields :=
  let currentPageDocs := of_nat (List.length results) in
  let prevPage := if num_ltb (of_Z 1) currentPage
                  then num_sub currentPage (of_Z 1) else of_Z 0 in
  let nextPage := if num_ltb currentPage totalPages
                  then num_add currentPage (of_Z 1)
                  else num_add totalPages (of_Z 1) in
  let response := [(key, VArr results);
                   ("totalDocs", VNum totalDocs);
                   ("currentPageDocs", VNum currentPageDocs);
                   ("totalPages", VNum totalPages);
                   ("currentPage", VNum currentPage)] in
  let response := if negb (num_eqb prevPage (of_Z 0))
                  then set_field "prevPage" (VNum prevPage) response
                  else response in
  let response := if negb (num_eqb nextPage (num_add totalPages (of_Z 1)))
                  then set_field "nextPage" (VNum nextPage) response
                  else response in
  response.

(** The three list handlers are the same text up to the collection,
    the key of the items, the redirect target and the message of the
    [catch] branch, which are the parameters here. *)
Definition paginate (c : Coll) (key location : string)
           (on_error : string -> string) (req : Request) : M Response :=
  if negb (present (assoc "page" (query req))) || negb (present (assoc "limit" (query req)))
  then ret (Redirect location)
  else
    try_catch
      (let isPageNumeric := digits_only (qparam req "page") in
       let isLimitNumeric := digits_only (qparam req "limit") in
       if negb isPageNumeric || negb isLimitNumeric
       then ret (Reply 400 (error_body "A página e o limite devem ser números inteiros."))
       else
         let page := parseInt (qparam req "page") in
         let limit := parseInt (qparam req "limit") in
         totalDocs <- countDocuments c ;;
         let totalPages := num_ceil (num_div totalDocs limit) in
         if num_ltb page (of_Z 1) || num_ltb totalPages page
         then ret (Reply 404 (error_body "Página não existe"))
         else
           let currentPage := page in
           results <- find_page c (num_mul (num_sub currentPage (of_Z 1)) limit) limit ;;
           ret (Reply 200 (VObj (envelope key results totalDocs totalPages currentPage))))
      (fun e => ret (Reply 500 (error_body (on_error e)))).

(** [GET /users] *)
Definition users_list : Request -> M Response :=
  paginate Users "users" "/users?page=1&limit=10"
           (fun e => "Erro ao recuperar users: " ++ e).

(** [GET /movies] *)
Definition movies_list : Request -> M Response :=
  paginate Movies "filmes" "/movies?page=1&limit=10"
           (fun e => "Erro ao recuperar filmes: " ++ e).

(** [GET /cinemas] *)
Definition cinemas_list : Request -> M Response :=
  paginate Cinemas "cinemas" "/cinemas?page=1&limit=10"
           (fun _ => "Erro ao recuperar cinemas").

Inductive Resource := RUsers | RMovies | RCinemas.

Definition list_route (r : Resource) : Request -> M Response :=
  match r with
  | RUsers => users_list
  | RMovies => movies_list
  | RCinemas => cinemas_list
  end.

Definition collection (r : Resource) : Coll :=
  match r with
  | RUsers => Users
  | RMovies => Movies
  | RCinemas => Cinemas
  end.

Definition list_request (page limit : string) : Request :=
  mkRequest [] [("page", page); ("limit", limit)] VUndef.

(** [totalPages] as the handlers compute it. *)
Definition total_pages (c : Coll) (limit : string) (s : Store) : Num :=
  num_ceil (num_div (of_nat (List.length (coll c s))) (parseInt limit)).

Definition status_of (r : Res Response) : option Z :=
  match r with
  | Ok (Reply st _) => Some st
  | _ => None
  end.

Definition response_of (out : Res Response * Store * list DbOp) : Res Response :=
  fst (fst out).
Definition store_of (out : Res Response * Store * list DbOp) : Store :=
  snd (fst out).
Definition calls_of (out : Res Response * Store * list DbOp) : list DbOp :=
  snd out.

(* ================================================================= *)
(** ** The identifier resolver *)

(** Modelled from the spec: [ObjectId.isValid] belongs to the driver,
    which is not part of the sources; the spec has it accept a
    24-character hexadecimal string. *)
Definition objectId_isValid (s : string) : bool :=
  (String.length s =? 24)%nat && all_chars is_hex s.

(** [new ObjectId(s)] *)
Definition new_ObjectId (s : string) : M Value :=
  if objectId_isValid s then ret (VOid (lowercase s))
  else throw "input must be a 24 character hex string, 12 byte Uint8Array, or an integer".

(** [checkId], the same function in the users and the movies
    router.  On a digit string it is as exact as [parseInt]. *)
Definition checkId (id : string) : Value :=
  if digits_only id then VNum (parseInt id)
  else if objectId_isValid id then VOid (lowercase id)
  else VNull.

Definition is_null (v : Value) : bool :=
  match v with VNull => true | _ => false end.

(** A request on a route with one path parameter. *)
Definition id_request (name id : string) (payload : Value) : Request :=
  mkRequest [(name, id)] [] payload.

(* ================================================================= *)
(** ** Comparisons and updates on values *)

(** [v <= n], [v < n], [v > n] for a [v] already known to be a
    number (each use follows a [typeof] test). *)
Definition lte (v : Value) (n : Z) : bool :=
  match v with VNum x => num_leb x (of_Z n) | _ => false end.
Definition lt (v : Value) (n : Z) : bool :=
  match v with VNum x => num_ltb x (of_Z n) | _ => false end.
Definition gt (v : Value) (n : Z) : bool :=
  match v with VNum x => num_ltb (of_Z n) x | _ => false end.

(** [o.k = v] on an object value. *)
Definition set (o : Value) (k : string) (v : Value) : Value :=
  match o with
  | VObj fs => VObj (set_field k v fs)
  | _ => o
  end.

Definition fields_of (o : Value) : Fields :=
  match o with VObj fs => fs | _ => [] end.

(** [!s || typeof s !== 'string' || !s.trim()] *)
Definition blank_or_missing (v : Value) : bool :=
  negb (truthy v) ||
  match v with
  | VStr s => negb (truthy (VStr (trim s)))
  | _ => true
  end.

(** [a.push(x)] on a list. *)
Definition push {A} (l : list A) (x : A) : list A := (l ++ [x])%list.

Definition push_if (c : bool) (msg : string) (errors : list string) : list string :=
  if c then push errors msg else errors.

(** The double quote character. *)
Definition dq : string := String (ascii_of_nat 34) EmptyString.

Definition strings (l : list string) : Value := VArr (map VStr l).

(** The time of the request, as the handlers read it. *)
Record Clock := mkClock {
  epoch_seconds : Z;     (* Math.floor(Date.now() / 1000) *)
  iso_string : string;   (* new Date().toISOString() *)
  full_year : Z          (* new Date().getFullYear() *)
}.

Section Handlers.

Variable clock : Clock.

(* ================================================================= *)
(** ** Users *)

Definition user_fields : list string :=
  ["name"; "gender"; "age"; "occupation"; "movies"].

(** [filterValidFields], the same function in the users and the
    movies router up to the list of allowed fields, which is the
    parameter here. *)
Definition filterValidFields (allowed : list string) (o : Value) : M Value :=
  for_each (fun filtered field =>
              own <- hasOwnProperty o field ;;
              ret (if own then set filtered field (get o field) else filtered))
           (VObj []) allowed.

Definition extra_fields (movie : Value) : list string :=
  filter (fun key => negb (key =? "movieid")%string && negb (key =? "rating")%string)
         (map fst (own_entries movie)).

Definition extra_fields_error (i : nat) (movie : Value) (errors : list string)
  : list string :=
  push_if (0 <? List.length (extra_fields movie))%nat
          ("O item na posição " ++ show (of_nat i)
           ++ " contém campos não permitidos: " ++ join ", " (extra_fields movie))
          errors.

Definition validateUser_item (errors : list string) (i : nat) (movie : Value)
  : M (list string) :=
  if negb (is_object_type movie) || is_null movie
  then ret (push errors ("O item na posição " ++ show (of_nat i)
                          ++ " do campo " ++ dq ++ "movies" ++ dq ++ " deve ser um objeto."))
  else
    let movieid := get movie "movieid" in
    let rating := get movie "rating" in
    let errors :=
      push_if (negb (truthy movieid) || negb (is_number movieid) || lte movieid 0)
              ("O campo " ++ dq ++ "movieid" ++ dq ++ " do item na posição " ++ show (of_nat i)
               ++ " está inválido ou ausente (no array de movies)") errors in
    errors <-
      (if truthy movieid && is_number movieid && gt movieid 0
       then movieExists <- findOne Movies movieid ;;
            ret (push_if (negb (truthy movieExists))
                         ("O filme com o id " ++ to_string movieid ++ " não existe.")
                         errors)
       else ret errors) ;;
    let errors :=
      push_if (negb (truthy rating) || negb (is_number rating)
               || lt rating 1 || gt rating 5)
              ("O campo " ++ dq ++ "rating" ++ dq ++ " do item na posição " ++ show (of_nat i)
               ++ " está inválido ou ausente (no array de movies)") errors in
    ret (extra_fields_error i movie errors).

(** [validateUser] *)
Definition validateUser (user : Value) : M (list string) :=
  let name := get user "name" in
  let gender := get user "gender" in
  let age := get user "age" in
  let occupation := get user "occupation" in
  let errors := [] in
  let errors := push_if (blank_or_missing name)
                        "Campo 'name' inválido ou ausente" errors in
  let errors := push_if (negb (truthy gender) || negb (is_string gender)
                         || (negb (value_eqb gender (VStr "F"))
                             && negb (value_eqb gender (VStr "M"))))
                        "Campo 'gender' inválido ou ausente" errors in
  let errors := push_if (negb (truthy age) || negb (is_number age) || lte age 0)
                        "Campo 'age' inválido ou ausente" errors in
  let errors := push_if (blank_or_missing occupation)
                        "Campo 'occupation' inválido ou ausente" errors in
  if truthy (get user "movies") then
    match get user "movies" with
    | VArr items => for_index validateUser_item 0 errors items
    | _ => ret (push errors "Campo 'movies' deve ser um array")
    end
  else ret errors.

Definition stamp (movie : Value) : Value :=
  VObj (set_field "date" (VStr (iso_string clock))
          (set_field "timestamp" (VNum (of_Z (epoch_seconds clock)))
             (own_entries movie))).

(** [addTimestampAndDate]: [movies.map] exists on arrays only. *)
Definition addTimestampAndDate (ratings : Value) : M Value :=
  match ratings with
  | VArr items => ret (VArr (map stamp items))
  | VUndef | VNull =>
      throw ("Cannot read properties of " ++ to_string ratings ++ " (reading 'map')")
  | _ => throw "movies.map is not a function"
  end.

Definition users_create_step (acc : list Value * list Value) (i : nat) (user : Value)
  : M (list Value * list Value) :=
  let (errorsArray, users) := acc in
  user <- filterValidFields user_fields user ;;
  errors <- validateUser user ;;
  let errorsArray :=
    if (0 <? List.length errors)%nat
    then push errorsArray (VObj [("userIndex", VNum (of_nat i)); ("errors", strings errors)])
    else errorsArray in
  user <-
    (if truthy (get user "movies")
     then stamped <- addTimestampAndDate (get user "movies") ;;
          let user := set user "movies" stamped in
          n <- length_of stamped ;;
          ret (set user "num_ratings" n)
     else ret (set (set user "movies" (VArr [])) "num_ratings" (VNum (of_Z 0)))) ;;
  ret (errorsArray, push users user).

(** [POST /users] *)
Definition users_create (req : Request) : M Response :=
  try_catch
    (match body req with
     | VArr items =>
         acc <- for_index users_create_step 0 ([], []) items ;;
         let (errorsArray, users) := acc in
         if (0 <? List.length errorsArray)%nat
         then ret (Reply 400 (error_details "Dados do user inválidos" (VArr errorsArray)))
         else
           results <- insertMany Users users ;;
           ret (Reply 201 (VObj [("message", VStr "User/s adicionado/s com sucesso");
                                 ("results", results)]))
     | _ => ret (Reply 400 (error_body "Os dados devem estar em um formato de array"))
     end)
    (fun e => ret (Reply 500 (error_body ("Erro ao recuperar users: " ++ e)))).

Definition top5_pipeline (userId : Value) : list Stage :=
  [SMatch ["_id"] userId;
   SUnwind "movies";
   SSortDesc ["movies"; "rating"];
   SLimit 5;
   SGroupPush "topMovies" "movies";
   SProject ["_id"; "name"; "gender"; "age"; "occupation"; "num_ratings"; "topMovies"]].

(** [GET /users/id/:user_id] *)
Definition users_get (req : Request) : M Response :=
  let userId := checkId (param req "user_id") in
  if is_null userId then ret (Reply 400 (error_body "Id do user inválido"))
  else
    try_catch
      (user <- findOne Users userId ;;
       if negb (truthy user) then ret (Reply 404 (error_body "User não encontrado"))
       else
         n <- length_of (get user "movies") ;;
         if value_eqb n (VNum (of_Z 0)) then
           ret (Reply 200 (VObj [("_id", get user "_id");
                                 ("name", get user "name");
                                 ("gender", get user "gender");
                                 ("age", get user "age");
                                 ("occupation", get user "occupation");
                                 ("num_ratings", get user "num_ratings");
                                 ("topMovies", VStr "O user não avaliou nenhum filme")]))
         else
           ratingsAggregation <- aggregate Users (top5_pipeline userId) ;;
           ret (Reply 200 (VArr ratingsAggregation)))
      (fun e => ret (Reply 500 (error_body ("Erro ao encontrar o user: " ++ e)))).

(** [DELETE /users/id/:user_id] *)
Definition users_delete (req : Request) : M Response :=
  let userId := checkId (param req "user_id") in
  if is_null userId then ret (Reply 400 (error_body "Id do user inválido"))
  else
    try_catch
      (user <- findOne Users userId ;;
       if negb (truthy user) then ret (Reply 404 (error_body "User não existe"))
       else
         result <- deleteOne Users userId ;;
         ret (Reply 200 (VObj [("message", VStr "User apagado com sucesso");
                               ("result", result)])))
      (fun e => ret (Reply 500 (error_body ("Erro ao encontrar o user: " ++ e)))).

Definition validateUserToUpdate_item (errors : list string) (i : nat) (movie : Value)
  : M (list string) :=
  if negb (is_object_type movie) || is_null movie
  then ret (push errors ("O item na posição " ++ show (of_nat i)
                          ++ " do campo " ++ dq ++ "movies" ++ dq ++ " deve ser um objeto."))
  else
    let movieid := get movie "movieid" in
    let rating := get movie "rating" in
    let errors :=
      push_if (negb (is_number movieid) || lte movieid 0)
              ("O campo " ++ dq ++ "movieid" ++ dq ++ " do item na posição " ++ show (of_nat i)
               ++ " deve ser um número inteiro positivo.") errors in
    errors <-
      (if truthy movieid
       then movieExists <- findOne Movies movieid ;;
            ret (push_if (negb (truthy movieExists))
                         ("O filme com o id " ++ to_string movieid ++ " não existe.")
                         errors)
       else ret errors) ;;
    let errors :=
      push_if (negb (is_number rating) || lt rating 1 || gt rating 5)
              ("O campo " ++ dq ++ "rating" ++ dq ++ " do item na posição " ++ show (of_nat i)
               ++ " deve ser um número entre 1 e 5.") errors in
    ret (extra_fields_error i movie errors).

(** [validateUserToUpdate] *)
Definition validateUserToUpdate (user : Value) : M (list string) :=
  let name := get user "name" in
  let gender := get user "gender" in
  let age := get user "age" in
  let occupation := get user "occupation" in
  let errors := [] in
  let errors := push_if (truthy name && negb (is_string name))
                        "O campo 'name' deve ser uma string" errors in
  let errors := push_if (truthy gender
                         && negb (existsb (same_value_zero gender) [VStr "M"; VStr "F"]))
                        "O campo 'gender' deve ser 'M' ou 'F'" errors in
  let errors := push_if (truthy age && (negb (is_number age) || lt age 0))
                        "O campo 'age' deve ser um número inteiro positivo" errors in
  let errors := push_if (truthy occupation && negb (is_string occupation))
                        "O campo 'occupation' deve ser uma string" errors in
  if truthy (get user "movies") then
    match get user "movies" with
    | VArr items => for_index validateUserToUpdate_item 0 errors items
    | _ => ret (push errors "O campo 'movies' deve ser um array")
    end
  else ret errors.

(** [PUT /users/id/:user_id] *)
Definition users_update (req : Request) : M Response :=
  try_catch
    (let userId := checkId (param req "user_id") in
     if negb (truthy userId) then ret (Reply 400 (error_body "Id do user inválido"))
     else
       user <- findOne Users userId ;;
       if negb (truthy user) then ret (Reply 404 (error_body "User não existe"))
       else if isArray (body req)
       then ret (Reply 400 (error_body "Os dados devem estar em um formato de objeto"))
       else
         body <- filterValidFields user_fields (body req) ;;
         errors <- validateUserToUpdate body ;;
         if (0 <? List.length errors)%nat
         then ret (Reply 400 (error_details "Dados do user inválidos" (strings errors)))
         else if (List.length (fields_of body) =? 0)%nat
         then ret (Reply 400 (error_body "Não foram fornecidos campos válidos para atualizar"))
         else
           body <-
             (if truthy (get body "movies")
              then n <- length_of (get body "movies") ;;
                   let body := set body "num_ratings" n in
                   stamped <- addTimestampAndDate (get body "movies") ;;
                   ret (set body "movies" stamped)
              else ret body) ;;
           result <- updateOne_set Users userId (fields_of body) ;;
           ret (Reply 200 (VObj [("message", VStr "User atualizado com sucesso");
                                 ("result", result)])))
    (fun _ => ret (Reply 500 (error_body "Erro ao atualizar o user"))).

(* ================================================================= *)
(** ** Movies *)

Definition movie_fields : list string := ["title"; "year"; "genres"].

Definition genre_error (genre joined : string) : string :=
  "O género '" ++ genre ++ "' não é válido. Os géneros disponíveis são: " ++ joined.

(** The body of the loop over [movie.genres], shared by the two
    movie validators; [availableGenres] is whatever the caller bound
    the name to. *)
Definition check_genre (availableGenres : Value) (errors : list string)
           (genre : Value) : M (list string) :=
  match genre with
  | VStr g =>
      known <- includes "availableGenres" availableGenres genre ;;
      if negb known
      then joined <- join_of "availableGenres" ", " availableGenres ;;
           ret (push errors (genre_error g joined))
      else ret errors
  | _ => ret (push errors "Os géneros devem ser strings")
  end.

Definition empty_array (v : Value) : bool :=
  match v with VArr [] => true | _ => false end.

(** [validateMovie].  The result of [distinct] is bound as it is
    returned: the source has no [await] here. *)
Definition validateMovie (movie : Value) : M (list string) :=
  let title := get movie "title" in
  let year := get movie "year" in
  let genres := get movie "genres" in
  let errors := [] in
  let errors := push_if (blank_or_missing title)
                        "Campo 'title' inválido ou ausente" errors in
  let errors := push_if (negb (truthy year) || negb (is_number year) || lte year 1500)
                        "Campo 'year' inválido ou ausente" errors in
  if negb (truthy genres) || negb (isArray genres) || empty_array genres
  then ret (push errors
              "Campo 'genres' inválido ou ausente. Deve ser um array e ter pelo menos um género")
  else
    availableGenres <- distinct Movies "genres" ;;
    match genres with
    | VArr items => for_each (check_genre availableGenres) errors items
    | _ => ret errors
    end.

Definition movies_create_step (acc : list Value * list Value) (i : nat) (movie : Value)
  : M (list Value * list Value) :=
  let (errorsArray, movies) := acc in
  movie <- filterValidFields movie_fields movie ;;
  errors <- validateMovie movie ;;
  let errorsArray :=
    if (0 <? List.length errors)%nat
    then push errorsArray (VObj [("movieIndex", VNum (of_nat i)); ("errors", strings errors)])
    else errorsArray in
  ret (errorsArray, push movies movie).

(** [POST /movies] *)
Definition movies_create (req : Request) : M Response :=
  try_catch
    (match body req with
     | VArr items =>
         acc <- for_index movies_create_step 0 ([], []) items ;;
         let (errorsArray, movies) := acc in
         if (0 <? List.length errorsArray)%nat
         then ret (Reply 400 (error_details "Dados do filme inválidos" (VArr errorsArray)))
         else
           results <- insertMany Movies movies ;;
           ret (Reply 201 (VObj [("message", VStr "Filme/s adicionado/s com sucesso");
                                 ("results", results)]))
     | _ => ret (Reply 400 (error_body "Os dados devem estar em um formato de array"))
     end)
    (fun e => ret (Reply 500 (error_body ("Erro ao recuperar filmes: " ++ e)))).

Definition average_pipeline (movieId : Value) : list Stage :=
  [SUnwind "movies";
   SMatch ["movies"; "movieid"] movieId;
   SGroupAvg "averageRating" ["movies"; "rating"]].

(** [GET /movies/id/:movie_id] *)
Definition movies_get (req : Request) : M Response :=
  try_catch
    (let movieId := checkId (param req "movie_id") in
     if is_null movieId then ret (Reply 400 (error_body "Id do filme inválido"))
     else
       movie <- findOne Movies movieId ;;
       if negb (truthy movie) then ret (Reply 404 (error_body "Filme não encontrado"))
       else
         ratingsAggregation <- aggregate Users (average_pipeline movieId) ;;
         match ratingsAggregation with
         | first :: _ =>
             ret (Reply 200 (set movie "averageRating" (get first "averageRating")))
         | [] =>
             ret (Reply 200 (set movie "averageRating" (VStr "Sem avaliações")))
         end)
    (fun e => ret (Reply 500 (error_body ("Erro ao encontrar o filme: " ++ e)))).

(** [DELETE /movies/id/:movie_id] *)
Definition movies_delete (req : Request) : M Response :=
  try_catch
    (let movieId := checkId (param req "movie_id") in
     if is_null movieId then ret (Reply 400 (error_body "Id do filme inválido"))
     else
       movie <- findOne Movies movieId ;;
       if negb (truthy movie) then ret (Reply 404 (error_body "Filme não existe"))
       else
         result <- deleteOne Movies movieId ;;
         ret (Reply 200 (VObj [("message", VStr "Filme apagado com sucesso");
                               ("result", result)])))
    (fun e => ret (Reply 500 (error_body ("Erro ao encontrar o filme: " ++ e)))).

(** [validateMovieToUpdate]: here [distinct] is awaited. *)
Definition validateMovieToUpdate (movie : Value) : M (list string) :=
  let title := get movie "title" in
  let year := get movie "year" in
  let genres := get movie "genres" in
  let errors := [] in
  let errors := push_if (truthy title && negb (is_string title))
                        "O campo 'title' deve ser uma string" errors in
  let errors := push_if (truthy year && (negb (is_number year) || lt year 1500))
                        "O campo 'year' deve ser um número inteiro positivo e maior que 1500"
                        errors in
  if truthy genres then
    match genres with
    | VArr [] => ret (push errors "O campo 'genres' deve ter pelo menos um gênero")
    | VArr items =>
        promise <- distinct Movies "genres" ;;
        let availableGenres := await promise in
        for_each (check_genre availableGenres) errors items
    | _ => ret (push errors "O campo 'genres' deve ser um array")
    end
  else ret errors.

(** [PUT /movies/id/:movie_id] *)
Definition movies_update (req : Request) : M Response :=
  try_catch
    (let movieId := checkId (param req "movie_id") in
     if negb (truthy movieId) then ret (Reply 400 (error_body "Id do filme inválido"))
     else
       movie <- findOne Movies movieId ;;
       if negb (truthy movie) then ret (Reply 404 (error_body "Filme não existe"))
       else if isArray (body req)
       then ret (Reply 400 (error_body "Os dados devem estar em um formato de objeto"))
       else
         body <- filterValidFields movie_fields (body req) ;;
         errors <- validateMovieToUpdate body ;;
         if (0 <? List.length errors)%nat
         then ret (Reply 400 (error_details "Dados do filme inválidos" (strings errors)))
         else if (List.length (fields_of body) =? 0)%nat
         then ret (Reply 400 (error_body "Não foram fornecidos campos válidos para atualizar"))
         else
           result <- updateOne_set Movies movieId (fields_of body) ;;
           ret (Reply 200 (VObj [("message", VStr "Filme atualizado com sucesso");
                                 ("result", result)])))
    (fun _ => ret (Reply 500 (error_body "Erro ao atualizar o filme"))).

(** [GET /movies/genres/:genre_name/year/:year] *)
Definition movies_by_genre_year (req : Request) : M Response :=
  try_catch
    (let genre_p := str_or_undef (assoc "genre_name" (params req)) in
     let year_p := str_or_undef (assoc "year" (params req)) in
     if negb (truthy genre_p) || negb (truthy year_p)
     then ret (Reply 400 (error_body
                 "Os parâmetros 'genre_name' e 'year' são obrigatórios."))
     else
       let isGenreString := letters_only (param req "genre_name") in
       let isYearNumeric := digits_only (param req "year") in
       if negb isGenreString || negb isYearNumeric
       then ret (Reply 400 (error_body
                   "O género só deve conter letras e o ano deve ser um número inteiro"))
       else
         let genre := param req "genre_name" in
         let year := param req "year" in
         promise <- distinct Movies "genres" ;;
         let genres := await promise in
         known <- includes "genres" genres (VStr genre) ;;
         if negb known
         then ret (Reply 404 (VObj
                     [("error", VStr "Género não encontrado. Verifique se a primeira letra é maiscúla e se está escrito da mesma forma");
                      ("genresAvailable", genres)]))
         else if num_ltb (parseInt year) (of_Z 1500)
                 || num_ltb (of_Z (full_year clock)) (parseInt year)
         then ret (Reply 400 (error_body "O ano fornecido é inválido."))
         else
           results <- find_eq Movies [("genres", VStr genre); ("year", VStr year)] ;;
           if (List.length results =? 0)%nat
           then ret (Reply 404 (error_body
                       "Não foi encontrado nenhum filme com estas características"))
           else ret (Reply 200 (VArr results)))
    (fun e => ret (Reply 500 (error_body ("Erro ao encontrar o filme:" ++ e)))).

End Handlers.

(* ================================================================= *)
(** ** Cinemas *)

Fixpoint split_digits (s : string) : string * string :=
  match s with
  | String c rest =>
      if is_digit c
      then let (ds, tl) := split_digits rest in (String c ds, tl)
      else (EmptyString, s)
  | EmptyString => (EmptyString, EmptyString)
  end.

Definition split_sign (s : string) : bool * string :=
  match s with
  | String "-" rest => (true, rest)
  | String "+" rest => (false, rest)
  | _ => (false, s)
  end.

Definition exponent_of (s : string) : Z :=
  match s with
  | String c rest =>
      if (c =? "e")%char || (c =? "E")%char then
        let (neg, tl) := split_sign rest in
        let (ds, _) := split_digits tl in
        match ds with
        | EmptyString => 0
        | _ => if neg then - parse_digits 0 ds else parse_digits 0 ds
        end
      else 0
  | EmptyString => 0
  end.

(** A decimal reading of [parseFloat]: leading white space, a sign,
    [Infinity] or digits with an optional fraction and exponent;
    [NaN] when no number opens the string.  The value is exact. *)
Definition parseFloat_decimal (s : string) : Num :=
  let (neg, body) := split_sign (drop_spaces s) in
  if String.prefix "Infinity" body then Inf neg
  else
    let (ints, after) := split_digits body in
    let (fracs, tail) :=
      match after with
      | String "." rest => split_digits rest
      | _ => (EmptyString, after)
      end in
    match (ints ++ fracs)%string with
    | EmptyString => NaN
    | ds =>
        let m := inject_Z (parse_digits 0 ds) in
        let e := exponent_of tail - Z.of_nat (String.length fracs) in
        let q := Qred (m * Qpower (inject_Z 10) e) in
        Fin (if neg then Qred (- q) else q)
    end.

Section Cinemas.

(** [parseFloat] and the geospatial operators of the store are taken
    as given: the first is the language's, the others run inside the
    database.  Each operator maps the cinemas collection and the
    coordinates, longitude first, to the matching documents. *)
Variable parseFloat : string -> Num.
Variable geo_near : list Doc -> Num -> Num -> list Doc.
Variable geo_line : list Doc -> Num * Num -> Num * Num -> list Doc.
Variable geo_sphere : list Doc -> Num -> Num -> list Doc.
Variable geo_point : list Doc -> Num -> Num -> list Doc.

Definition geo_query (select : list Doc -> list Doc) : M (list Doc) :=
  record (OpGeo Cinemas) ;;;
  docs <- read_coll Cinemas ;;
  ret (select docs).

Definition attach_step (acc : list Value * Value) (movieId : Value)
  : M (list Value * Value) :=
  let (filmesNaoAdicionados, movies) := acc in
  filme <- findOne Movies movieId ;;
  if negb (truthy filme)
  then ret (push filmesNaoAdicionados movieId, movies)
  else
    listed <- includes "movies" movies movieId ;;
    if negb listed
    then movies <- push_of "movies" movies movieId ;;
         ret (filmesNaoAdicionados, movies)
    else ret (filmesNaoAdicionados, movies).

(** [PUT /cinemas/id/:id_cinema] *)
Definition cinemas_attach (req : Request) : M Response :=
  try_catch
    (cinema_id <- new_ObjectId (param req "id_cinema") ;;
     cinema <- findOne Cinemas cinema_id ;;
     if negb (truthy cinema) then ret (Reply 404 (error_body "Cinema não encontrado"))
     else
       let movies := if truthy (get cinema "movies")
                     then get cinema "movies" else VArr [] in
       let filmesNaoAdicionados := [] in
       body_movies <- member (body req) "movies" ;;
       if negb (truthy body_movies)
       then ret (Reply 400 (error_body
                   "Corpo da requisição deve conter a propriedade 'movies'"))
       else
         match body_movies with
         | VArr ids =>
             acc <- for_each attach_step (filmesNaoAdicionados, movies) ids ;;
             let (filmesNaoAdicionados, movies) := acc in
             if (List.length filmesNaoAdicionados =? List.length ids)%nat
             then ret (Reply 404 (error_body
                         "Filme/s não encontrado/s, insira o id correto"))
             else
               updateOne_set Cinemas cinema_id [("movies", movies)] ;;;
               let mensagem := "Filme/s adicionado/s com sucesso" in
               let mensagem :=
                 if (0 <? List.length filmesNaoAdicionados)%nat
                 then mensagem ++ ", exceto o/s filme/s: "
                      ++ join ", " (map to_string filmesNaoAdicionados)
                      ++ " porque não existe/m."
                 else mensagem in
               ret (Reply 200 (VObj [("message", VStr mensagem)]))
         | _ =>
             ret (Reply 400 (error_body
                    "Corpo da requisição deve conter a propriedade 'movies' como um array"))
         end)
    (fun e => ret (Reply 500 (error_body ("Erro ao adicionar o/s filme/s: " ++ e)))).

(** [GET /cinemas/near/lng_lat/:lng/:lat] *)
Definition cinemas_near (req : Request) : M Response :=
  let latitude := parseFloat (param req "lat") in
  let longitude := parseFloat (param req "lng") in
  if negb (truthy (VNum latitude)) || negb (truthy (VNum longitude))
  then ret (Reply 400 (error_body "Latitude e longitude são requiridas."))
  else
    try_catch
      (results <- geo_query (fun docs =>
                    map (project ["_id"]) (geo_near docs longitude latitude)) ;;
       if (List.length results =? 0)%nat
       then ret (Reply 404 (error_body
                   "Não existem cinemas perto da localização especificada"))
       else ret (Reply 200 (VArr (map VObj results))))
      (fun e => ret (Reply 500 (error_body e))).

(** [GET /cinemas/near/line/lng_lat/:lng1/:lat1/:lng2/:lat2] *)
Definition cinemas_line (req : Request) : M Response :=
  let latitude1 := parseFloat (param req "lat1") in
  let longitude1 := parseFloat (param req "lng1") in
  let latitude2 := parseFloat (param req "lat2") in
  let longitude2 := parseFloat (param req "lng2") in
  if negb (truthy (VNum latitude1)) || negb (truthy (VNum longitude1))
     || negb (truthy (VNum latitude2)) || negb (truthy (VNum longitude2))
  then ret (Reply 400 (error_body
              "Latitude e longitude para ambos os pontos são requiridas."))
  else
    try_catch
      (results <- geo_query (fun docs =>
                    map (project ["_id"])
                        (geo_line docs (longitude1, latitude1) (longitude2, latitude2))) ;;
       if (List.length results =? 0)%nat
       then ret (Reply 404 (error_body "Não existem cinemas na linha especificada"))
       else ret (Reply 200 (VArr (map VObj results))))
      (fun e => ret (Reply 500 (error_body e))).

(** [GET /cinemas/near/sum/lng_lat/:lng/:lat] *)
Definition cinemas_sum (req : Request) : M Response :=
  let latitude := parseFloat (param req "lat") in
  let longitude := parseFloat (param req "lng") in
  if negb (truthy (VNum latitude)) || negb (truthy (VNum longitude))
  then ret (Reply 400 (error_body "Latitude e longitude são requiridas."))
  else
    try_catch
      (found <- geo_query (fun docs => geo_sphere docs longitude latitude) ;;
       let count := List.length found in
       if (count =? 0)%nat
       then ret (Reply 404 (error_body
                   "Não existem cinemas perto da localização especificada"))
       else ret (Reply 200 (VObj [("Cinemas", VNum (of_nat count))])))
      (fun e => ret (Reply 500 (error_body e))).

(** [GET /cinemas/within/long_lat/:lng/:lat] *)
Definition cinemas_within (req : Request) : M Response :=
  try_catch
    (let latitude := parseFloat (param req "lat") in
     let longitude := parseFloat (param req "lng") in
     if negb (truthy (VNum latitude)) || negb (truthy (VNum longitude))
     then ret (Reply 400 (error_body "Latitude e longitude devem ser fornecidas"))
     else
       result <- geo_query (fun docs => geo_point docs longitude latitude) ;;
       if (List.length result =? 0)%nat
       then ret (Reply 400 (error_body "A pessoa não se encontra no festival do cinema"))
       else ret (Reply 200 (VArr (map VObj result))))
    (fun _ => ret (Reply 500 (error_body "Erro ao verificar o ponto."))).

Inductive GeoRoute := Near | NearLine | NearSum | Within.

Definition geo_route (r : GeoRoute) : Request -> M Response :=
  match r with
  | Near => cinemas_near
  | NearLine => cinemas_line
  | NearSum => cinemas_sum
  | Within => cinemas_within
  end.

(** The path parameters that hold a coordinate on each route. *)
Definition coordinate_params (r : GeoRoute) : list string :=
  match r with
  | NearLine => ["lat1"; "lng1"; "lat2"; "lng2"]
  | _ => ["lat"; "lng"]
  end.

End Cinemas.

(* ================================================================= *)
(** ** Rankings and statistics *)

(** [res.send(payload).status(code)]: the response leaves when
    [send] runs, with the status it has then, 200 unless set before;
    the [status] call that follows changes nothing that was sent. *)
Definition send_then_status (payload : Value) (code : Z) : Response :=
  Reply 200 payload.

(** The numbers among the values of a group, as the arithmetic
    accumulators see them: anything else is ignored. *)
Definition numbers (vs : list Value) : list Num :=
  flat_map (fun v => match v with VNum n => [n] | _ => [] end) vs.

Definition total (ns : list Num) : Num := fold_left num_add ns (of_Z 0).

(** [$avg]: [null] when the group has no number.  The quotient is
    the exact one; the store rounds it to binary floating point. *)
Definition mean (ns : list Num) : Value :=
  match ns with
  | [] => VNull
  | _ => VNum (num_div (total ns) (of_nat (List.length ns)))
  end.

Definition is_nullish (v : Value) : bool :=
  match v with VUndef | VNull => true | _ => false end.

(** [$max] and [$min] compare in the store's order and skip [null]
    and missing values. *)
Definition greatest (vs : list Value) : Value :=
  fold_left (fun best v => if is_nullish v then best
                           else if is_nullish best then v
                           else if bson_leb best v then v else best)
            vs VNull.

Definition least (vs : list Value) : Value :=
  fold_left (fun best v => if is_nullish v then best
                           else if is_nullish best then v
                           else if bson_leb v best then v else best)
            vs VNull.

(** Equality of group keys: as [value_eqb], with [NaN] its own
    key. *)
Definition same_key (a b : Value) : bool :=
  match a, b with
  | VNum NaN, VNum NaN => true
  | _, _ => value_eqb a b
  end.

Inductive Accumulator :=
| AccAvg (path : list string)      (* {$avg: "$path"} *)
| AccSum (path : list string)      (* {$sum: "$path"} *)
| AccCount (path : list string) (v : Value)
                                   (* {$sum: {$cond: [{$eq: ["$path", v]}, 1, 0]}} *)
| AccFirst (path : list string)    (* {$first: "$path"} *)
| AccMax (path : list string)      (* {$max: "$path"} *)
| AccMin (path : list string).     (* {$min: "$path"} *)

Definition at_path (path : list string) (d : Doc) : Value := get_path (VObj d) path.

Definition accumulate (acc : Accumulator) (members : list Doc) : Value :=
  match acc with
  | AccAvg path => mean (numbers (map (at_path path) members))
  | AccSum path => VNum (total (numbers (map (at_path path) members)))
  | AccCount path v =>
      VNum (of_nat (List.length (filter (fun d => value_eqb (at_path path d) v) members)))
  | AccFirst path =>
      match members with
      | d :: _ => sort_key path d
      | [] => VNull
      end
  | AccMax path => greatest (map (at_path path) members)
  | AccMin path => least (map (at_path path) members)
  end.

(** The further stages of the ranking and statistics pipelines. *)
Inductive XStage :=
| XBase (st : Stage)
| XGroup (key : list string) (outs : list (string * Accumulator))
| XLookup (from : Coll) (localField foreignField as_field : string)
| XCompute (outs : list (string * list string))
| XSort (path : list string) (ascending : bool).

Fixpoint dedup_keys (seen : list Value) (l : list Value) : list Value :=
  match l with
  | [] => []
  | x :: rest =>
      if existsb (same_key x) seen then dedup_keys seen rest
      else x :: dedup_keys (x :: seen) rest
  end.

(** [{$group: {_id: "$key", out: acc, ...}}]: one document per key
    value, in order of first appearance. *)
Definition group_by (key : list string) (outs : list (string * Accumulator))
           (docs : list Doc) : list Doc :=
  map (fun k =>
         let members := filter (fun d => same_key (sort_key key d) k) docs in
         ("_id", k) :: map (fun oa => (fst oa, accumulate (snd oa) members)) outs)
      (dedup_keys [] (map (sort_key key) docs)).

(** [{$lookup: {from, localField, foreignField, as}}]: the documents
    of [from] whose foreign field matches the local value are put,
    as an array, under [as]. *)
Definition join_docs (others : list Doc) (localField foreignField as_field : string)
           (d : Doc) : Doc :=
  let wanted := match lookup localField d with Some v => v | None => VNull end in
  let hit (o : Doc) :=
    match wanted with
    | VArr items => existsb (field_matches (lookup foreignField o)) items
    | v => field_matches (lookup foreignField o) v
    end in
  set_field as_field (VArr (map VObj (filter hit others))) d.

(** [{$project: {out: 1, other: "$path", ...}}]: each output field
    that has a value; an inclusion is the path of its own name. *)
Definition compute (outs : list (string * list string)) (d : Doc) : Doc :=
  flat_map (fun op => match at_path (snd op) d with
                      | VUndef => []
                      | v => [(fst op, v)]
                      end) outs.

Definition asc_leb (path : list string) (a b : Doc) : bool :=
  bson_leb (sort_key path a) (sort_key path b).

Definition run_xstage (s : Store) (st : XStage) (docs : list Doc) : list Doc :=
  match st with
  | XBase b => run_stage b docs
  | XGroup key outs => group_by key outs docs
  | XLookup from l f a => map (join_docs (coll from s) l f a) docs
  | XCompute outs => map (compute outs) docs
  | XSort path true => sort_by (asc_leb path) docs
  | XSort path false => sort_by (desc_leb path) docs
  end.

Definition run_xpipeline (s : Store) (p : list XStage) (docs : list Doc) : list Doc :=
  fold_left (fun acc st => run_xstage s st acc) p docs.

(** [aggregate(pipeline).toArray()] for these pipelines. *)
Definition aggregate_x (c : Coll) (p : list XStage) : M (list Value) :=
  record (OpAggregate c) ;;;
  fun w => (Ok (map VObj (run_xpipeline (db w) p (coll c (db w)))), w).

Definition rating_of : list string := ["movies"; "rating"].
Definition rated_movie : list string := ["movies"; "movieid"].

Definition join_movieinfo : list XStage :=
  [XLookup Movies "_id" "_id" "movieinfo"; XBase (SUnwind "movieinfo")].

Definition higher_pipeline (num_movies : nat) : list XStage :=
  [XBase (SUnwind "movies");
   XGroup rated_movie [("averageRating", AccAvg rating_of)]]
  ++ join_movieinfo ++
  [XCompute [("_id", ["_id"]); ("averageRating", ["averageRating"]);
             ("title", ["movieinfo"; "title"]); ("genres", ["movieinfo"; "genres"]);
             ("year", ["movieinfo"; "year"])];
   XSort ["averageRating"] false;
   XBase (SLimit num_movies)].

Definition no_movies_found : Value :=
  VObj [("message", VStr "Não foram encontrados filmes")].

(** [GET /movies/higher/:num_movies].  In [num_movies <= 0] the path
    segment is read as a number, which on a digit-only string is its
    decimal value. *)
Definition movies_higher (req : Request) : M Response :=
  try_catch
    (let isNum_moviesNumeric := digits_only (param req "num_movies") in
     if negb isNum_moviesNumeric
        || num_leb (parseInt (param req "num_movies")) (of_Z 0)
     then ret (Reply 400 (error_body
                 "O número de filmes deve ser um número inteiro positivo"))
     else
       let num_movies := parseInt (param req "num_movies") in
       ratingsAggregation <- aggregate_x Users (higher_pipeline (num_to_nat num_movies)) ;;
       if (List.length ratingsAggregation =? 0)%nat
       then ret (send_then_status no_movies_found 404)
       else ret (send_then_status (VArr ratingsAggregation) 200))
    (fun e => ret (Reply 500 (error_body e))).

Definition ratings_pipeline (ascending : bool) : list XStage :=
  [XBase (SUnwind "movies");
   XGroup rated_movie [("totalRatings", AccSum rating_of)]]
  ++ join_movieinfo ++
  [XCompute [("_id", ["_id"]); ("totalRatings", ["totalRatings"]);
             ("title", ["movieinfo"; "title"])];
   XSort ["totalRatings"] ascending].

(** [GET /movies/ratings/:order] *)
Definition movies_ratings (req : Request) : M Response :=
  try_catch
    (let order := param req "order" in
     if negb (order =? "asc")%string && negb (order =? "desc")%string
     then ret (Reply 400 (error_body
                 "Parâmetro de ordenação inválido. Deve ser 'asc' ou 'desc'."))
     else
       let ascending := (order =? "asc")%string in
       ratingsAggregation <- aggregate_x Users (ratings_pipeline ascending) ;;
       if (List.length ratingsAggregation =? 0)%nat
       then ret (send_then_status no_movies_found 404)
       else ret (send_then_status (VArr ratingsAggregation) 200))
    (fun e => ret (Reply 500 (error_body e))).

Definition star_pipeline : list XStage :=
  [XBase (SUnwind "movies");
   XGroup rated_movie [("Ratings5", AccCount rating_of (VNum (of_Z 5)))]]
  ++ join_movieinfo ++
  [XCompute [("_id", ["_id"]); ("Ratings5", ["Ratings5"]);
             ("title", ["movieinfo"; "title"])];
   XSort ["Ratings5"] false].

(** [GET /movies/star] *)
Definition movies_star (req : Request) : M Response :=
  try_catch
    (ratingsAggregation <- aggregate_x Users star_pipeline ;;
     if (List.length ratingsAggregation =? 0)%nat
     then ret (send_then_status no_movies_found 404)
     else ret (send_then_status (VArr ratingsAggregation) 200))
    (fun e => ret (Reply 500 (error_body e))).

Definition stats_pipeline : list XStage :=
  [XBase (SUnwind "movies");
   XGroup ["_id"] [("name", AccFirst ["name"]);
                   ("max_rating", AccMax rating_of);
                   ("min_rating", AccMin rating_of);
                   ("avg_rating", AccAvg rating_of)];
   XSort ["avg_rating"] true].

(** [GET /users/stats] *)
Definition users_stats (req : Request) : M Response :=
  try_catch
    (stats <- aggregate_x Users stats_pipeline ;;
     ret (Reply 200 (VArr stats)))
    (fun e => ret (Reply 500 (error_body ("Erro ao encontrar os stats: " ++ e)))).

(* ================================================================= *)
(** ** Movies showing at a cinema *)

(** The elements a [for ... of] loop visits. *)
Definition iterate (name : string) (v : Value) : M (list Value) :=
  match v with
  | VArr items => ret items
  | VStr s => ret (chars s)
  | _ => throw (name ++ " is not iterable")
  end.

(** [GET /cinemas/movies/:id_cinema] *)
Definition cinemas_movies (req : Request) : M Response :=
  try_catch
    (cinema_id <- new_ObjectId (param req "id_cinema") ;;
     cinema <- findOne Cinemas cinema_id ;;
     if negb (truthy cinema) then ret (Reply 404 (error_body "Cinema não encontrado"))
     else
       own <- hasOwnProperty cinema "movies" ;;
       n <- (if own then length_of (get cinema "movies") else ret VUndef) ;;
       if negb own || value_eqb n (VNum (of_Z 0))
       then ret (Reply 404 (error_body "Não existem filmes em exibição neste cinema"))
       else
         ids <- iterate "cinema.movies" (get cinema "movies") ;;
         results <- for_each (fun results movieId =>
                                filme <- findOne Movies movieId ;;
                                ret (push results filme))
                             [] ids ;;
         ret (Reply 200 (VArr results)))
    (fun _ => ret (Reply 500 (error_body "Erro ao recuperar filmes do cinema"))).

(* ================================================================= *)
(** ** Sample data *)

Module Sample.

Definition int (z : Z) : Value := VNum (of_Z z).

Definition clock : Clock := mkClock 1700000000 "2023-11-14T22:13:20.000Z" 2023.

Definition toy_story : Doc :=
  [("_id", int 1); ("title", VStr "Toy Story (1995)"); ("year", int 1995);
   ("genres", VArr [VStr "Animation"; VStr "Comedy"])].

Definition heat : Doc :=
  [("_id", int 6); ("title", VStr "Heat (1995)"); ("year", int 1995);
   ("genres", VArr [VStr "Action"; VStr "Crime"])].

Definition rated (movieid rating : Z) : Value :=
  VObj [("movieid", int movieid); ("rating", int rating);
        ("timestamp", int 978300760); ("date", VStr "2000-12-31T22:12:40.000Z")].

Definition ana : Doc :=
  [("_id", int 1); ("name", VStr "Ana"); ("gender", VStr "F"); ("age", int 30);
   ("occupation", VStr "engineer");
   ("movies", VArr [rated 1 5]); ("num_ratings", int 1)].

(** A user with seven ratings. *)
Definition rui : Doc :=
  [("_id", int 2); ("name", VStr "Rui"); ("gender", VStr "M"); ("age", int 41);
   ("occupation", VStr "teacher");
   ("movies", VArr [rated 1 3; rated 6 5; rated 1 1; rated 6 4; rated 1 2;
                    rated 6 5; rated 1 4]);
   ("num_ratings", int 7)].

Definition nimas : Doc :=
  [("_id", VOid "65f0a1b2c3d4e5f60718293a"); ("name", VStr "Cinema Nimas");
   ("movies", VArr [int 1])].

Definition store : Store := mkStore [ana; rui] [toy_story; heat] [nimas] 0.



Definition empty : Store := mkStore [] [] [] 0.

Definition drama : Value :=
  VObj [("title", VStr "Casablanca"); ("year", int 1942);
        ("genres", VArr [VStr "Drama"])].

Definition comedy : Value :=
  VObj [("title", VStr "Some Like It Hot"); ("year", int 1959);
        ("genres", VArr [VStr "Comedy"])].

Definition post (items : list Value) : Request := mkRequest [] [] (VArr items).

Definition text_ratings : Value :=
  VObj [("name", VStr "Eva"); ("gender", VStr "F"); ("age", int 27);
        ("occupation", VStr "writer"); ("movies", VStr "abc")].

Definition geo_all (docs : list Doc) (_ _ : Num) : list Doc := docs.
Definition geo_all_line (docs : list Doc) (_ _ : Num * Num) : list Doc := docs.

Definition coordinates (lng lat : string) : Request :=
  mkRequest [("lng", lng); ("lat", lat)] [] VUndef.

End Sample.

(* ================================================================= *)
(** ** Predicates and tactics of the proofs *)

(** Runs the monad operations of a handler, leaving the store
    queries as they are. *)
Ltac run_monad :=
  cbv beta iota zeta delta
      [serve try_catch bind ret throw record read_coll write_coll
       findOne aggregate deleteOne db oplog response_of calls_of store_of fst snd].

(** The identifier that [checkId] makes of the path segment "0". *)
Definition zero : Value := VNum (of_Z 0).

(** The run went to the existence lookup of the identifier 0 in
    collection [c] first, and did not answer 400. *)
Definition looked_up (c : Coll) (out : Res Response * Store * list DbOp) : Prop :=
  (exists rest, calls_of out = OpFindOne c zero :: rest)
  /\ status_of (response_of out) <> Some 400.

(** Case analysis on the innermost scrutinees of the goal. *)
Ltac split_cases :=
  repeat match goal with
         | |- context [match ?x with _ => _ end] =>
             match x with
             | context [match _ with _ => _ end] => fail 1
             | _ => destruct x eqn:?
             end
         end.

(** A parsed coordinate that is 0 (of either sign) or [NaN]. *)
Definition zero_or_nan (n : Num) : Prop :=
  n = NaN \/ exists q, n = Fin q /\ (q == 0)%Q.

(** The body of the 500 that the movie creation route gives when
    [includes] is called on the promise. *)
Definition includes_failure : Value :=
  error_body "Erro ao recuperar filmes: availableGenres.includes is not a function".

(** A computation is read-only when no run of it changes the
    database, whether it returns or throws. *)
Definition reads_only {A} (m : M A) : Prop := forall w, db (snd (m w)) = db w.

Create HintDb store.

(** What [filterValidFields] builds when it returns. *)
Definition pick (allowed : list string) (o : Value) : Fields :=
  fold_left (fun acc k => if has_key k (fields_of o)
                          then set_field k (get o k) acc else acc)
            allowed [].

(** A user object, or a stored user, whose [num_ratings] is the
    length of its [movies] array. *)
Definition in_sync (d : Doc) : Prop :=
  exists l, lookup "movies" d = Some (VArr l)
            /\ lookup "num_ratings" d = Some (VNum (of_nat (List.length l))).

(** The same for an object value. *)
Definition synced (v : Value) : Prop :=
  exists fs, v = VObj fs /\ in_sync fs.

(** [Object.keys] *)
Definition keys (fs : Fields) : list string := map fst fs.

(** A stored movie whose [year] is a number, as the data model has
    it. *)
Definition numeric_year (d : Doc) : Prop := exists n, lookup "year" d = Some (VNum n).

(** The sort key of the pipeline. *)
Definition rating_path : list string := ["movies"; "rating"].

(** A rating entry whose [rating] is the finite number [q]. *)
Definition has_rating (m : Value) (q : Q) : Prop := get m "rating" = VNum (Fin q).

(** An unwound user document: its [movies] is one rating entry. *)
Definition rated (d : Doc) : Prop :=
  exists m q, lookup "movies" d = Some m /\ has_rating m q.

(** A stored user whose [movies] is an array of entries with a
    finite numeric rating, as validated writes leave it. *)
Definition well_rated (d : Doc) : Prop :=
  exists items, lookup "movies" d = Some (VArr items)
                /\ Forall (fun m => exists q, has_rating m q) items.

(** The rating of [m1] is at least the rating of [m2]. *)
Definition higher_first (m1 m2 : Value) : Prop :=
  exists q1 q2, has_rating m1 q1 /\ has_rating m2 q2 /\ (q2 <= q1)%Q.

(** A document of the answer: the identifier and [topMovies] and
    nothing else, at most five entries, in non-increasing order of
    rating when the stored ratings are numbers. *)
Definition top_entry (docs : list Doc) (d : Doc) : Prop :=
  exists g l, d = [("_id", g); ("topMovies", VArr l)]
              /\ (List.length l <= 5)%nat
              /\ (Forall well_rated docs -> StronglySorted higher_first l).

(** An element of the [details] of a rejected batch. *)
Definition error_entry (v : Value) : Prop :=
  exists (i : nat) (errors : list string),
    errors <> [] /\ v = VObj [("userIndex", VNum (of_nat i)); ("errors", strings errors)].

(** A document whose sort key under [path] is the finite number
    [q]. *)
Definition key_is (path : list string) (d : Doc) (q : Q) : Prop :=
  sort_key path d = VNum (Fin q).

Definition fin_key (path : list string) (d : Doc) : Prop :=
  exists q, key_is path d q.

(** [a] comes no later than [b] in descending order of the key. *)
Definition key_geq (path : list string) (a b : Doc) : Prop :=
  exists qa qb, key_is path a qa /\ key_is path b qb /\ (qb <= qa)%Q.

(** A rating entry as the validators accept it: a finite numeric
    [movieid] and a [rating] between 1 and 5. *)
Definition valid_entry (m : Value) : Prop :=
  exists id q, get m "movieid" = VNum (Fin id)
               /\ get m "rating" = VNum (Fin q)
               /\ (inject_Z 1 <= q /\ q <= inject_Z 5)%Q.

(** A stored user whose [movies] is an array of such entries. *)
Definition valid_user (d : Doc) : Prop :=
  exists items, lookup "movies" d = Some (VArr items) /\ Forall valid_entry items.

(** An unwound user document: its [movies] is one valid entry. *)
Definition entry_doc (d : Doc) : Prop :=
  exists m, lookup "movies" d = Some m /\ valid_entry m.

Definition undefined (v : Value) : bool :=
  match v with VUndef => true | _ => false end.

(** A ranked document whose [averageRating] is a finite number
    between 1 and 5. *)
Definition averaged (d : Doc) : Prop :=
  exists a, lookup "averageRating" d = Some (VNum (Fin a))
            /\ (inject_Z 1 <= a /\ a <= inject_Z 5)%Q.

(** What the ranking routes send for the documents found. *)
Definition ranking_answer (docs : list Doc) : Value :=
  match docs with
  | [] => no_movies_found
  | _ => VArr (map VObj docs)
  end.

(** A ranked document whose [Ratings5] is a count of at most
    [bound]. *)
Definition counted (bound : nat) (d : Doc) : Prop :=
  exists n, lookup "Ratings5" d = Some (VNum (of_nat n)) /\ (n <= bound)%nat.

(** A stored document whose [_id] is a finite number or an
    [ObjectId], the two forms the resolver produces. *)
Definition identified (d : Doc) : Prop :=
  (exists q, lookup "_id" d = Some (VNum (Fin q)))
  \/ (exists h, lookup "_id" d = Some (VOid h)).

(** An entry of the statistics whose mean lies between the least and
    the greatest rating, all between 1 and 5.  The store computes the
    mean in binary floating point: the mean of whole ratings lies
    between them there as well, the mean of fractions need not. *)
Definition summarised (d : Doc) : Prop :=
  exists lo a hi,
    lookup "min_rating" d = Some (VNum (Fin lo))
    /\ lookup "avg_rating" d = Some (VNum (Fin a))
    /\ lookup "max_rating" d = Some (VNum (Fin hi))
    /\ (inject_Z 1 <= lo /\ lo <= a /\ a <= hi /\ hi <= inject_Z 5)%Q.

(** What a point lookup of a movie gives: the document, or [null]. *)
Definition movie_or_null (s : Store) (id : Value) : Value :=
  match find (has_id id) (movies s) with
  | Some d => VObj d
  | None => VNull
  end.

(** The key of the items in the envelope of each list route. *)
Definition items_key (r : Resource) : string :=
  match r with
  | RUsers => "users"
  | RMovies => "filmes"
  | RCinemas => "cinemas"
  end.

(** The documents of page [n] with [l] documents a page: the slice
    of the collection in ascending order of identifier. *)
Definition page_slice (n l : Z) (docs : list Doc) : list Doc :=
  firstn (Z.to_nat l) (skipn (Z.to_nat ((n - 1) * l)) (sort_by by_id_leb docs)).

(** A document of collection [c] has the identifier [id]. *)
Definition stored (c : Coll) (s : Store) (id : Value) : bool :=
  match find (has_id id) (coll c s) with
  | Some _ => true
  | None => false
  end.

(** [Number.MAX_SAFE_INTEGER]: up to it every integer is a number of
    the language, and [parseInt] of a digit string is its value. *)
Definition max_safe_integer : Z := 9007199254740991.

(** A path segment that is no digit string, or a digit string whose
    value is a safe integer: on these [checkId] resolves the
    identifier that the language resolves. *)
Definition safe_id (id : string) : Prop :=
  digits_only id = true -> parse_digits 0 id <= max_safe_integer.

(** A value that the store compares by equality when it is given as
    an identifier: a finite number or an [ObjectId]. *)
Definition plain_id (v : Value) : Prop :=
  (exists q, v = VNum (Fin q)) \/ (exists h, v = VOid h).

(** [a] comes no later than [b] in ascending order of identifier:
    numbers go by value and come before the [ObjectId]s, which go by
    their bytes.  The order is stated on the identifiers themselves,
    not through the comparison the sort runs. *)
Definition id_before (a b : Doc) : Prop :=
  (exists x y, lookup "_id" a = Some (VNum (Fin x))
               /\ lookup "_id" b = Some (VNum (Fin y)) /\ (x <= y)%Q)
  \/ (exists x h, lookup "_id" a = Some (VNum (Fin x))
                  /\ lookup "_id" b = Some (VOid h))
  \/ (exists g h, lookup "_id" a = Some (VOid g)
                  /\ lookup "_id" b = Some (VOid h) /\ String.leb g h = true).

(** An entry of the statistics whose three numbers lie between 1 and
    5, the least no greater than the greatest. *)
Definition rated_within (d : Doc) : Prop :=
  exists lo a hi,
    lookup "min_rating" d = Some (VNum (Fin lo))
    /\ lookup "avg_rating" d = Some (VNum (Fin a))
    /\ lookup "max_rating" d = Some (VNum (Fin hi))
    /\ (inject_Z 1 <= lo /\ lo <= hi /\ hi <= inject_Z 5)%Q
    /\ (inject_Z 1 <= a /\ a <= inject_Z 5)%Q.

(** A stored user whose ratings are whole numbers. *)
Definition whole_ratings (d : Doc) : Prop :=
  exists items, lookup "movies" d = Some (VArr items)
                /\ Forall (fun m => exists z, get m "rating" = VNum (of_Z z)) items.

(* ================================================================= *)
(** ** Sanity checks of the model *)

Example ceil_div_7_2 : num_ceil (num_div (of_Z 7) (of_Z 2)) = of_Z 4.
Proof. reflexivity. Qed.

Example div_by_zero : num_div (of_Z 7) (of_Z 0) = Inf false
                      /\ num_div (of_Z 0) (of_Z 0) = NaN.
Proof. split; reflexivity. Qed.

Example parseInt_0042 : parseInt "0042" = of_Z 42.
Proof. reflexivity. Qed.

Example trim_blank : trim "  	 " = EmptyString.
Proof. reflexivity. Qed.

Example show_17 : show (of_Z 17) = "17".
Proof. reflexivity. Qed.

Example msg_utf8 : String.length "não" = 4%nat.
Proof. reflexivity. Qed.

Example fresh_oid_255 : fresh_oid 255 = VOid "0000000000000000000000ff".
Proof. reflexivity. Qed.

Example checkId_42 : checkId "42" = VNum (of_Z 42).
Proof. reflexivity. Qed.

Example checkId_oid :
  checkId "65F0A1b2c3d4e5f60718293a" = VOid "65f0a1b2c3d4e5f60718293a".
Proof. reflexivity. Qed.

Example checkId_bad : checkId "12ab" = VNull.
Proof. reflexivity. Qed.

Example parseFloat_lisbon : parseFloat_decimal "-9.1393" = Fin (-91393 # 10000).
Proof. reflexivity. Qed.

Example parseFloat_exp : parseFloat_decimal "1.5e2abc" = of_Z 150.
Proof. reflexivity. Qed.

Example parseFloat_zero : parseFloat_decimal "0.00" = of_Z 0.
Proof. reflexivity. Qed.

Example parseFloat_text : parseFloat_decimal "north" = NaN.
Proof. reflexivity. Qed.

(* ================================================================= *)
(** ** Facts about numbers and digit strings *)

Lemma Qred_inject_Z (z : Z) : Qred (inject_Z z) = inject_Z z.
Proof. apply Qcanon.Qred_iff. simpl. apply Z.gcd_1_r. Qed.

Lemma num_add_of_Z (a b : Z) : num_add (of_Z a) (of_Z b) = of_Z (a + b).
Proof.
  unfold num_add, of_Z. f_equal.
  rewrite <- (Qred_inject_Z (a + b)). apply Qred_complete.
  now rewrite inject_Z_plus.
Qed.

Lemma num_neg_of_Z (a : Z) : num_neg (of_Z a) = of_Z (- a).
Proof.
  unfold num_neg, of_Z. f_equal.
  rewrite <- (Qred_inject_Z (- a)). apply Qred_complete.
  now rewrite inject_Z_opp.
Qed.

Lemma num_sub_of_Z (a b : Z) : num_sub (of_Z a) (of_Z b) = of_Z (a - b).
Proof. unfold num_sub. now rewrite num_neg_of_Z, num_add_of_Z. Qed.

Lemma num_ltb_of_Z (a b : Z) : num_ltb (of_Z a) (of_Z b) = (a <? b).
Proof.
  unfold num_ltb, of_Z, Qltb, Qle_bool. simpl.
  rewrite !Z.mul_1_r. symmetry. apply Z.ltb_antisym.
Qed.

Lemma num_leb_of_Z (a b : Z) : num_leb (of_Z a) (of_Z b) = (a <=? b).
Proof. unfold num_leb, of_Z, Qle_bool. simpl. now rewrite !Z.mul_1_r. Qed.

Lemma num_eqb_of_Z (a b : Z) : num_eqb (of_Z a) (of_Z b) = (a =? b).
Proof. unfold num_eqb, of_Z, Qeq_bool. simpl. now rewrite !Z.mul_1_r. Qed.


Lemma digit_prefix_all (s : string) :
  all_chars is_digit s = true -> digit_prefix s = s.
Proof.
  induction s as [| c s IH]; simpl; [reflexivity |].
  intros H. apply andb_prop in H as [Hc Hs].
  rewrite Hc. now rewrite IH.
Qed.

(** On a digit-only string [parseInt] is the decimal value. *)
Lemma parseInt_digits (s : string) :
  digits_only s = true -> parseInt s = of_Z (parse_digits 0 s).
Proof.
  unfold digits_only, parseInt. intros H.
  apply andb_prop in H as [Hne Hall].
  rewrite (digit_prefix_all s Hall).
  destruct s; [discriminate | reflexivity].
Qed.

Lemma digits_only_present (s : string) :
  digits_only s = true -> present (Some s) = true.
Proof.
  unfold digits_only. intros H. apply andb_prop in H as [Hne _].
  destruct s; [discriminate | reflexivity].
Qed.

(* ================================================================= *)
(** ** Paginated listing *)

Lemma lookup_set_field_same (k : string) (v : Value) (fs : Fields) :
  lookup k (set_field k v fs) = Some v.
Proof.
  induction fs as [| [k' v'] fs IH]; simpl.
  - now rewrite String.eqb_refl.
  - destruct (k =? k')%string eqn:E; simpl.
    + now rewrite String.eqb_refl.
    + now rewrite E.
Qed.

Lemma lookup_set_field_other (k k' : string) (v : Value) (fs : Fields) :
  (k =? k')%string = false ->
  lookup k (set_field k' v fs) = lookup k fs.
Proof.
  intros Hk. induction fs as [| [k'' v''] fs IH]; simpl.
  - now rewrite Hk.
  - destruct (k' =? k'')%string eqn:E; simpl.
    + apply String.eqb_eq in E. subst k''. now rewrite Hk.
    + destruct (k =? k'')%string; [reflexivity | exact IH].
Qed.


Lemma lookup_cond_other (k k' : string) (v : Value) (c : bool) (fs : Fields) :
  (k =? k')%string = false ->
  lookup k (if c then set_field k' v fs else fs) = lookup k fs.
Proof. intros H. destruct c; [now apply lookup_set_field_other | reflexivity]. Qed.



Lemma num_leb_not_gt (a b : Num) : num_leb a b = true -> num_ltb b a = false.
Proof.
  destruct a as [| [|] | x], b as [| [|] | y]; simpl; try congruence.
  unfold Qltb. now intros ->.
Qed.




Lemma nonempty_present (s : string) : s <> EmptyString -> present (Some s) = true.
Proof. destruct s; [congruence | reflexivity]. Qed.

Lemma paginate_not_digits (c : Coll) (key location : string)
      (on_error : string -> string) (page limit : string) (s : Store) :
  page <> EmptyString -> limit <> EmptyString ->
  digits_only page && digits_only limit = false ->
  serve (paginate c key location on_error (list_request page limit)) s
  = (Ok (Reply 400 (error_body "A página e o limite devem ser números inteiros.")),
     s, []).
Proof.
  intros Np Nl Hd.
  assert (Ap : assoc "page" (query (list_request page limit)) = Some page)
    by reflexivity.
  assert (Al : assoc "limit" (query (list_request page limit)) = Some limit)
    by reflexivity.
  unfold serve, paginate, qparam. rewrite Ap, Al.
  rewrite (nonempty_present page Np), (nonempty_present limit Nl).
  cbn [negb orb].
  replace (negb (digits_only page) || negb (digits_only limit)) with true
    by (destruct (digits_only page), (digits_only limit); simpl in *; congruence).
  reflexivity.
Qed.

Lemma paginate_page_zero (c : Coll) (key location : string)
      (on_error : string -> string) (page limit : string) (s : Store) :
  digits_only page = true -> digits_only limit = true ->
  parse_digits 0 page = 0 ->
  serve (paginate c key location on_error (list_request page limit)) s
  = (Ok (Reply 404 (error_body "Página não existe")), s, [OpCount c]).
Proof.
  intros Hp Hl Hz.
  assert (Ap : assoc "page" (query (list_request page limit)) = Some page)
    by reflexivity.
  assert (Al : assoc "limit" (query (list_request page limit)) = Some limit)
    by reflexivity.
  unfold serve, paginate, qparam. rewrite Ap, Al.
  rewrite (digits_only_present page Hp), (digits_only_present limit Hl).
  rewrite Hp, Hl. cbn [negb orb].
  rewrite (parseInt_digits page Hp), Hz.
  cbv beta iota zeta delta [try_catch bind countDocuments record read_coll ret db oplog].
  rewrite num_ltb_of_Z. reflexivity.
Qed.

(** C6, as the handlers have it.  With [page] and [limit] both
    present, a value that is not a digit-only string is answered with
    the 400 validation error before the store is consulted; a
    digit-only [page] of value 0, with a digit-only [limit] of at
    least 1, is answered with the 404 of a page that does not
    exist. *)
Theorem list_parameter_errors (r : Resource) (page limit : string) (s : Store) :
  page <> EmptyString ->
  limit <> EmptyString ->
  (digits_only page && digits_only limit = false ->
   serve (list_route r (list_request page limit)) s
   = (Ok (Reply 400 (error_body "A página e o limite devem ser números inteiros.")),
      s, []))
  /\ (digits_only page = true -> digits_only limit = true ->
      parse_digits 0 page = 0 -> 1 <= parse_digits 0 limit ->
      serve (list_route r (list_request page limit)) s
      = (Ok (Reply 404 (error_body "Página não existe")), s, [OpCount (collection r)])).
Proof.
  intros Np Nl. split.
  - intros Hd. destruct r; now apply paginate_not_digits.
  - intros Hp Hl Hz _. destruct r; now apply paginate_page_zero.
Qed.

Lemma list_parameter_errors_witness :
  serve (list_route RUsers (list_request "1x" "10")) Sample.store
  = (Ok (Reply 400 (error_body "A página e o limite devem ser números inteiros.")),
     Sample.store, [])
  /\ serve (list_route RUsers (list_request "0" "10")) Sample.store
     = (Ok (Reply 404 (error_body "Página não existe")), Sample.store, [OpCount Users]).
Proof.
  split.
  - apply (list_parameter_errors RUsers "1x" "10" Sample.store);
      [discriminate | discriminate | reflexivity].
  - apply (list_parameter_errors RUsers "0" "10" Sample.store);
      [discriminate | discriminate | reflexivity | reflexivity | reflexivity
       | vm_compute; congruence].
Defined.

(** C6 as stated fails: [page=0] is digit-only, is not strictly
    positive, and is answered with 404. *)
Lemma page_zero_is_404_not_400 :
  status_of (response_of (serve (list_route RUsers (list_request "0" "10")) Sample.store))
  = Some 404
  /\ status_of (response_of (serve (list_route RUsers (list_request "0" "10")) Sample.store))
     <> Some 400.
Proof. split; [reflexivity | vm_compute; congruence]. Qed.

(** A [limit] of 0 is not rejected either: the division gives an
    infinite page count and the first page lists the collection. *)
Lemma limit_zero_is_served :
  status_of (response_of (serve (list_route RMovies (list_request "1" "0")) Sample.store))
  = Some 200.
Proof. reflexivity. Qed.

(* ================================================================= *)
(** ** The identifier 0 *)

Lemma users_get_zero_absent (payload : Value) (s : Store) :
  find (has_id zero) (users s) = None ->
  serve (users_get (id_request "user_id" "0" payload)) s
  = (Ok (Reply 404 (error_body "User não encontrado")), s, [OpFindOne Users zero]).
Proof.
  intros H. unfold users_get. change (checkId (param _ _)) with zero.
  cbn [is_null zero]. run_monad. cbn [coll]. fold zero. rewrite H. reflexivity.
Qed.

Lemma users_delete_zero_absent (payload : Value) (s : Store) :
  find (has_id zero) (users s) = None ->
  serve (users_delete (id_request "user_id" "0" payload)) s
  = (Ok (Reply 404 (error_body "User não existe")), s, [OpFindOne Users zero]).
Proof.
  intros H. unfold users_delete. change (checkId (param _ _)) with zero.
  cbn [is_null zero]. run_monad. cbn [coll]. fold zero. rewrite H. reflexivity.
Qed.

Lemma movies_get_zero_absent (payload : Value) (s : Store) :
  find (has_id zero) (movies s) = None ->
  serve (movies_get (id_request "movie_id" "0" payload)) s
  = (Ok (Reply 404 (error_body "Filme não encontrado")), s, [OpFindOne Movies zero]).
Proof.
  intros H. unfold movies_get. change (checkId (param _ _)) with zero.
  cbn [is_null zero]. run_monad. cbn [coll]. fold zero. rewrite H. reflexivity.
Qed.

Lemma movies_delete_zero_absent (payload : Value) (s : Store) :
  find (has_id zero) (movies s) = None ->
  serve (movies_delete (id_request "movie_id" "0" payload)) s
  = (Ok (Reply 404 (error_body "Filme não existe")), s, [OpFindOne Movies zero]).
Proof.
  intros H. unfold movies_delete. change (checkId (param _ _)) with zero.
  cbn [is_null zero]. run_monad. cbn [coll]. fold zero. rewrite H. reflexivity.
Qed.

Lemma users_update_zero (clock : Clock) (payload : Value) (s : Store) :
  serve (users_update clock (id_request "user_id" "0" payload)) s
  = (Ok (Reply 400 (error_body "Id do user inválido")), s, []).
Proof. reflexivity. Qed.

Lemma movies_update_zero (payload : Value) (s : Store) :
  serve (movies_update (id_request "movie_id" "0" payload)) s
  = (Ok (Reply 400 (error_body "Id do filme inválido")), s, []).
Proof. reflexivity. Qed.

Lemma users_get_zero_looked_up (payload : Value) (s : Store) :
  looked_up Users (serve (users_get (id_request "user_id" "0" payload)) s).
Proof.
  unfold looked_up, users_get. change (checkId (param _ _)) with zero.
  cbn [is_null zero]. run_monad. cbn [coll]. fold zero.
  destruct (find (has_id zero) (users s)) as [d |].
  - cbn [truthy negb get].
    destruct (lookup "movies" d) as [v |]; [destruct v |];
      cbn [length_of get]; run_monad; cbn [status_of app];
      try (split; [eexists; reflexivity | discriminate]);
      split_cases; run_monad; cbn [status_of app];
      (split; [eexists; reflexivity | discriminate]).
  - cbn [truthy negb]. run_monad. cbn [status_of app].
    split; [eexists; reflexivity | discriminate].
Qed.

Lemma users_delete_zero_looked_up (payload : Value) (s : Store) :
  looked_up Users (serve (users_delete (id_request "user_id" "0" payload)) s).
Proof.
  unfold looked_up, users_delete. change (checkId (param _ _)) with zero.
  cbn [is_null zero]. run_monad. cbn [coll]. fold zero.
  destruct (find (has_id zero) (users s)) as [d |];
    cbn [truthy negb]; run_monad; cbn [status_of app];
    (split; [eexists; reflexivity | discriminate]).
Qed.

Lemma movies_get_zero_looked_up (payload : Value) (s : Store) :
  looked_up Movies (serve (movies_get (id_request "movie_id" "0" payload)) s).
Proof.
  unfold looked_up, movies_get. change (checkId (param _ _)) with zero.
  cbn [is_null zero]. run_monad. cbn [coll]. fold zero.
  destruct (find (has_id zero) (movies s)) as [d |];
    cbn [truthy negb]; run_monad; cbn [status_of app].
  - destruct (map VObj _); cbn [status_of];
      (split; [eexists; reflexivity | discriminate]).
  - split; [eexists; reflexivity | discriminate].
Qed.

Lemma movies_delete_zero_looked_up (payload : Value) (s : Store) :
  looked_up Movies (serve (movies_delete (id_request "movie_id" "0" payload)) s).
Proof.
  unfold looked_up, movies_delete. change (checkId (param _ _)) with zero.
  cbn [is_null zero]. run_monad. cbn [coll]. fold zero.
  destruct (find (has_id zero) (movies s)) as [d |];
    cbn [truthy negb]; run_monad; cbn [status_of app];
    (split; [eexists; reflexivity | discriminate]).
Qed.

(** C9.  The resolver maps the path segment "0" to the number 0.
    The read and delete handlers of users and movies accept it and go
    to the existence lookup, answering 404 when no document has that
    identifier; the two update handlers answer the same segment with
    the 400 of an invalid identifier, without consulting the store. *)
Theorem identifier_zero (clock : Clock) (payload : Value) (s : Store) :
  checkId "0" = zero
  /\ looked_up Users (serve (users_get (id_request "user_id" "0" payload)) s)
  /\ looked_up Users (serve (users_delete (id_request "user_id" "0" payload)) s)
  /\ looked_up Movies (serve (movies_get (id_request "movie_id" "0" payload)) s)
  /\ looked_up Movies (serve (movies_delete (id_request "movie_id" "0" payload)) s)
  /\ (find (has_id zero) (users s) = None ->
      status_of (response_of (serve (users_get (id_request "user_id" "0" payload)) s))
      = Some 404
      /\ status_of (response_of (serve (users_delete (id_request "user_id" "0" payload)) s))
         = Some 404)
  /\ (find (has_id zero) (movies s) = None ->
      status_of (response_of (serve (movies_get (id_request "movie_id" "0" payload)) s))
      = Some 404
      /\ status_of (response_of (serve (movies_delete (id_request "movie_id" "0" payload)) s))
         = Some 404)
  /\ serve (users_update clock (id_request "user_id" "0" payload)) s
     = (Ok (Reply 400 (error_body "Id do user inválido")), s, [])
  /\ serve (movies_update (id_request "movie_id" "0" payload)) s
     = (Ok (Reply 400 (error_body "Id do filme inválido")), s, []).
Proof.
  split; [reflexivity |].
  split; [apply users_get_zero_looked_up |].
  split; [apply users_delete_zero_looked_up |].
  split; [apply movies_get_zero_looked_up |].
  split; [apply movies_delete_zero_looked_up |].
  split.
  { intros H. now rewrite users_get_zero_absent, users_delete_zero_absent. }
  split.
  { intros H. now rewrite movies_get_zero_absent, movies_delete_zero_absent. }
  split; [apply users_update_zero | apply movies_update_zero].
Qed.

(** On the sample store no user and no movie has the identifier 0. *)
Lemma identifier_zero_witness :
  status_of (response_of
    (serve (users_get (id_request "user_id" "0" VUndef)) Sample.store)) = Some 404
  /\ status_of (response_of
       (serve (movies_delete (id_request "movie_id" "0" VUndef)) Sample.store)) = Some 404
  /\ status_of (response_of
       (serve (users_update Sample.clock (id_request "user_id" "0" VUndef)) Sample.store))
     = Some 400.
Proof.
  destruct (identifier_zero Sample.clock VUndef Sample.store)
    as (_ & _ & _ & _ & _ & Hu & Hm & Hpu & _).
  split; [apply Hu; reflexivity |].
  split; [apply Hm; reflexivity |].
  now rewrite Hpu.
Defined.

(* ================================================================= *)
(** ** Attaching an empty list of movies to a cinema *)

(** C10.  On an existing cinema, a body whose [movies] property is
    the empty array is answered with the 404 of movies not found,
    after the one lookup of the cinema and with the store left as it
    was: no identifier was missed, and none was supplied. *)
Theorem attach_empty_list (id : string) (fields : Fields) (cinema : Doc) (s : Store) :
  objectId_isValid id = true ->
  find (has_id (VOid (lowercase id))) (cinemas s) = Some cinema ->
  lookup "movies" fields = Some (VArr []) ->
  serve (cinemas_attach (id_request "id_cinema" id (VObj fields))) s
  = (Ok (Reply 404 (error_body "Filme/s não encontrado/s, insira o id correto")),
     s, [OpFindOne Cinemas (VOid (lowercase id))]).
Proof.
  intros Hid Hfind Hbody.
  unfold cinemas_attach, new_ObjectId.
  change (param (id_request "id_cinema" id (VObj fields)) "id_cinema") with id.
  rewrite Hid. cbn [body id_request member get]. rewrite Hbody.
  run_monad. cbn [coll]. rewrite Hfind. reflexivity.
Qed.

Lemma attach_empty_list_witness :
  serve (cinemas_attach
           (id_request "id_cinema" "65f0a1b2c3d4e5f60718293a"
                       (VObj [("movies", VArr [])]))) Sample.store
  = (Ok (Reply 404 (error_body "Filme/s não encontrado/s, insira o id correto")),
     Sample.store, [OpFindOne Cinemas (VOid "65f0a1b2c3d4e5f60718293a")]).
Proof.
  apply (attach_empty_list "65f0a1b2c3d4e5f60718293a" [("movies", VArr [])]
                           Sample.nimas Sample.store); reflexivity.
Defined.

(* ================================================================= *)
(** ** Coordinates of the geospatial routes *)

Lemma zero_or_nan_falsy (n : Num) : zero_or_nan n -> truthy (VNum n) = false.
Proof.
  intros [-> | [q [-> Hq]]]; [reflexivity |].
  cbn [truthy num_is_zero].
  apply Qeq_bool_iff in Hq. now rewrite Hq.
Qed.

(** C8.  On each of the four geospatial routes, a coordinate
    parameter that parses to 0 or to NaN gets a 400 and no query
    reaches the store; this holds for every reading of [parseFloat]
    and of the geospatial operators. *)
Theorem geo_rejects_zero_or_nan
        (parseFloat : string -> Num)
        (geo_near : list Doc -> Num -> Num -> list Doc)
        (geo_line : list Doc -> Num * Num -> Num * Num -> list Doc)
        (geo_sphere geo_point : list Doc -> Num -> Num -> list Doc)
        (r : GeoRoute) (req : Request) (s : Store) (k : string) :
  In k (coordinate_params r) ->
  zero_or_nan (parseFloat (param req k)) ->
  exists msg,
    serve (geo_route parseFloat geo_near geo_line geo_sphere geo_point r req) s
    = (Ok (Reply 400 (error_body msg)), s, []).
Proof.
  intros Hk Hz. apply zero_or_nan_falsy in Hz.
  destruct r; cbn [coordinate_params In] in Hk;
    repeat (destruct Hk as [<- | Hk]; [| try contradiction]);
    unfold geo_route, cinemas_near, cinemas_line, cinemas_sum, cinemas_within;
    try rewrite Hz;
    repeat match goal with
           | |- context [truthy (VNum (parseFloat ?p))] =>
               destruct (truthy (VNum (parseFloat p)))
           end;
    try discriminate Hz;
    eexists; reflexivity.
Qed.

(** A latitude of 0 on the sample store, read with the decimal
    parser. *)
Lemma geo_rejects_zero_or_nan_witness :
  exists msg,
    serve (geo_route parseFloat_decimal Sample.geo_all Sample.geo_all_line
                     Sample.geo_all Sample.geo_all Near
                     (Sample.coordinates "-9.1393" "0")) Sample.store
    = (Ok (Reply 400 (error_body msg)), Sample.store, []).
Proof.
  apply (geo_rejects_zero_or_nan parseFloat_decimal Sample.geo_all Sample.geo_all_line
           Sample.geo_all Sample.geo_all Near
           (Sample.coordinates "-9.1393" "0") Sample.store "lat").
  - simpl. now left.
  - right. exists (inject_Z 0). split; reflexivity.
Defined.

(** Under the decimal parser a literal 0 and an empty segment get
    the same answer. *)
Lemma zero_like_missing (r : GeoRoute) :
  serve (geo_route parseFloat_decimal Sample.geo_all Sample.geo_all_line
                   Sample.geo_all Sample.geo_all r
                   (mkRequest [("lng", "0"); ("lat", "38.7"); ("lng1", "0");
                               ("lat1", "38.7"); ("lng2", "1"); ("lat2", "1")] []
                              VUndef)) Sample.store
  = serve (geo_route parseFloat_decimal Sample.geo_all Sample.geo_all_line
                     Sample.geo_all Sample.geo_all r
                     (mkRequest [("lng", EmptyString); ("lat", "38.7");
                                 ("lng1", EmptyString); ("lat1", "38.7");
                                 ("lng2", "1"); ("lat2", "1")] []
                                VUndef)) Sample.store.
Proof. destruct r; reflexivity. Qed.

(* ================================================================= *)
(** ** Creating movies *)

(** C1, at a request the claim covers.  [validateMovie] binds the
    promise that [distinct] returns and calls [includes] on it, so a
    movie with a string genre ends in the [catch] branch: the answer
    is 500, whether the genre is stored (Comedy), new (Drama) or the
    collection is empty. *)
Theorem create_movie_string_genre_is_500 :
  serve (movies_create (Sample.post [Sample.comedy])) Sample.store
  = (Ok (Reply 500 includes_failure), Sample.store, [OpDistinct Movies "genres"])
  /\ serve (movies_create (Sample.post [Sample.drama])) Sample.store
     = (Ok (Reply 500 includes_failure), Sample.store, [OpDistinct Movies "genres"])
  /\ serve (movies_create (Sample.post [Sample.drama])) Sample.empty
     = (Ok (Reply 500 includes_failure), Sample.empty, [OpDistinct Movies "genres"]).
Proof. repeat split; reflexivity. Qed.

(** The update validator awaits the same call, and there the
    whitelist works as the claim describes. *)
Lemma update_movie_checks_genres :
  status_of (response_of
    (serve (movies_update (id_request "movie_id" "1"
              (VObj [("genres", VArr [VStr "Crime"])]))) Sample.store)) = Some 200
  /\ response_of
       (serve (movies_update (id_request "movie_id" "1"
                 (VObj [("genres", VArr [VStr "Drama"])]))) Sample.store)
     = Ok (Reply 400 (error_details "Dados do filme inválidos"
             (strings [genre_error "Drama" "Animation, Comedy, Action, Crime"]))).
Proof. split; reflexivity. Qed.

(* ================================================================= *)
(** ** Writing users *)

(** C2, at a request the claim covers.  An update whose [movies] is
    [null] passes validation, skips the recomputation and is written
    as it is: the stored user ends with [movies: null] and the old
    [num_ratings] of 1. *)
Theorem update_null_ratings_breaks_count :
  let out := serve (users_update Sample.clock
                      (id_request "user_id" "1" (VObj [("movies", VNull)])))
                   Sample.store in
  status_of (response_of out) = Some 200
  /\ exists d,
       find (has_id (Sample.int 1)) (users (store_of out)) = Some d
       /\ lookup "movies" d = Some VNull
       /\ lookup "num_ratings" d = Some (Sample.int 1).
Proof.
  cbv zeta. split; [reflexivity |].
  eexists. split; [reflexivity |]. split; reflexivity.
Qed.

(** C3, at a request the claim covers.  A user whose [movies] is a
    string has a validation error, but the ratings are stamped before
    the errors are looked at, and [map] on a string throws: the
    answer is 500, not the 400 with the error list. *)
Theorem create_user_text_ratings_is_500 :
  serve (users_create Sample.clock (Sample.post [Sample.text_ratings])) Sample.store
  = (Ok (Reply 500 (error_body "Erro ao recuperar users: movies.map is not a function")),
     Sample.store, []).
Proof. reflexivity. Qed.

(** The validator itself does report the error. *)
Lemma text_ratings_has_error :
  fst (validateUser Sample.text_ratings (mkWorld Sample.store []))
  = Ok ["Campo 'movies' deve ser um array"].
Proof. reflexivity. Qed.

(* ================================================================= *)
(** ** Reading a user *)

(** C4, at a request the claim covers.  For the user with seven
    ratings the answer lists the five best in non-increasing order,
    but the grouping stage keeps [_id] and [topMovies] only, so the
    projection that follows finds no identity field to keep. *)
Theorem read_user_drops_identity_fields :
  response_of (serve (users_get (id_request "user_id" "2" VUndef)) Sample.store)
  = Ok (Reply 200 (VArr [VObj [("_id", Sample.int 2);
                               ("topMovies",
                                VArr [Sample.rated 6 5; Sample.rated 6 5;
                                      Sample.rated 6 4; Sample.rated 1 4;
                                      Sample.rated 1 3])]]))
  /\ lookup "name" Sample.rui = Some (VStr "Rui").
Proof. split; reflexivity. Qed.

(* ================================================================= *)
(** ** Movies by genre and year *)

(** C7, at a request the claim covers.  Toy Story is a stored Comedy
    of 1995, but the query compares [year] with the path segment, a
    string, and the stored year is a number: nothing matches. *)
Theorem genre_year_finds_nothing :
  serve (movies_by_genre_year Sample.clock
           (mkRequest [("genre_name", "Comedy"); ("year", "1995")] [] VUndef))
        Sample.store
  = (Ok (Reply 404 (error_body
           "Não foi encontrado nenhum filme com estas características")),
     Sample.store, [OpDistinct Movies "genres"; OpFind Movies])
  /\ In (VStr "Comedy") (field_values "genres" Sample.toy_story)
  /\ lookup "year" Sample.toy_story = Some (VNum (parseInt "1995")).
Proof.
  split; [reflexivity |]. split; [| reflexivity].
  simpl. auto.
Qed.

(* ================================================================= *)
(** ** Computations that leave the store as it is *)

Lemma reads_only_ret {A} (a : A) : reads_only (ret a).
Proof. now intros w. Qed.

Lemma reads_only_throw {A} (e : string) : reads_only (@throw A e).
Proof. now intros w. Qed.

Lemma reads_only_bind {A B} (m : M A) (k : A -> M B) :
  reads_only m -> (forall a, reads_only (k a)) -> reads_only (bind m k).
Proof.
  intros Hm Hk w. unfold bind. specialize (Hm w).
  destruct (m w) as [[a | e] w']; simpl in *.
  - now rewrite Hk.
  - exact Hm.
Qed.

Lemma reads_only_try_catch {A} (m : M A) (h : string -> M A) :
  reads_only m -> (forall e, reads_only (h e)) -> reads_only (try_catch m h).
Proof.
  intros Hm Hh w. unfold try_catch. specialize (Hm w).
  destruct (m w) as [[a | e] w']; simpl in *.
  - exact Hm.
  - now rewrite Hh.
Qed.

Lemma reads_only_record (op : DbOp) : reads_only (record op).
Proof. now intros w. Qed.

Lemma reads_only_read_coll (c : Coll) : reads_only (read_coll c).
Proof. now intros w. Qed.

Lemma reads_only_if {A} (b : bool) (m1 m2 : M A) :
  reads_only m1 -> reads_only m2 -> reads_only (if b then m1 else m2).
Proof. now destruct b. Qed.

#[local] Hint Resolve reads_only_ret reads_only_throw reads_only_record
  reads_only_read_coll : store.
#[local] Hint Extern 2 (reads_only (bind _ _)) =>
  apply reads_only_bind; [| intros ?] : store.
#[local] Hint Extern 2 (reads_only (try_catch _ _)) =>
  apply reads_only_try_catch; [| intros ?] : store.
#[local] Hint Extern 3 (reads_only (if _ then _ else _)) =>
  apply reads_only_if : store.
#[local] Hint Extern 4 (reads_only (match ?x with _ => _ end)) =>
  destruct x : store.

Lemma reads_only_findOne (c : Coll) (id : Value) : reads_only (findOne c id).
Proof. unfold findOne. auto with store. Qed.

Lemma reads_only_distinct (c : Coll) (f : string) : reads_only (distinct c f).
Proof. unfold distinct. auto with store. Qed.

Lemma reads_only_for_each {A St} (body : St -> A -> M St) (l : list A) :
  (forall acc x, reads_only (body acc x)) ->
  forall acc, reads_only (for_each body acc l).
Proof.
  intros Hb. induction l as [| x l IH]; intros acc; simpl; auto with store.
Qed.

Lemma reads_only_for_index {A St} (body : St -> nat -> A -> M St) (l : list A) :
  (forall acc i x, reads_only (body acc i x)) ->
  forall i acc, reads_only (for_index body i acc l).
Proof.
  intros Hb. induction l as [| x l IH]; intros i acc; simpl; auto with store.
Qed.

#[local] Hint Resolve reads_only_findOne reads_only_distinct : store.

Lemma reads_only_hasOwnProperty (o : Value) (k : string) :
  reads_only (hasOwnProperty o k).
Proof. unfold hasOwnProperty. auto with store. Qed.

#[local] Hint Resolve reads_only_hasOwnProperty : store.

Lemma reads_only_filterValidFields (allowed : list string) (o : Value) :
  reads_only (filterValidFields allowed o).
Proof.
  unfold filterValidFields. apply reads_only_for_each. auto with store.
Qed.

Lemma reads_only_validateUser_item (errors : list string) (i : nat) (movie : Value) :
  reads_only (validateUser_item errors i movie).
Proof. unfold validateUser_item. auto 8 with store. Qed.

Lemma reads_only_validateUser (user : Value) : reads_only (validateUser user).
Proof.
  unfold validateUser.
  apply reads_only_if; [| auto with store].
  destruct (get user "movies"); auto with store.
  apply reads_only_for_index. intros. apply reads_only_validateUser_item.
Qed.

Lemma reads_only_addTimestampAndDate (clock : Clock) (v : Value) :
  reads_only (addTimestampAndDate clock v).
Proof. unfold addTimestampAndDate. auto with store. Qed.

Lemma reads_only_length_of (v : Value) : reads_only (length_of v).
Proof. unfold length_of. auto with store. Qed.

#[local] Hint Resolve reads_only_filterValidFields reads_only_validateUser
  reads_only_addTimestampAndDate reads_only_length_of : store.

Lemma reads_only_users_create_step (clock : Clock) (acc : list Value * list Value)
      (i : nat) (user : Value) :
  reads_only (users_create_step clock acc i user).
Proof. unfold users_create_step. destruct acc. auto 8 with store. Qed.

(* ================================================================= *)
(** ** The field filter *)

Lemma bind_ok {A B} (m : M A) (k : A -> M B) (w w' : World) (b : B) :
  bind m k w = (Ok b, w') ->
  exists a w1, m w = (Ok a, w1) /\ k a w1 = (Ok b, w').
Proof.
  unfold bind. destruct (m w) as [[a | e] w1]; intros H.
  - now exists a, w1.
  - discriminate H.
Qed.

Lemma bind_run {A B} (m : M A) (k : A -> M B) (w : World) :
  bind m k w = match m w with
               | (Ok a, w') => k a w'
               | (Throw e, w') => (Throw e, w')
               end.
Proof. reflexivity. Qed.

Lemma hasOwnProperty_ok (o : Value) (k : string) (w w' : World) (b : bool) :
  hasOwnProperty o k w = (Ok b, w') -> w' = w /\ b = has_key k (fields_of o).
Proof.
  destruct o; simpl; try (intros H; inversion H; now subst).
  destruct (has_key "hasOwnProperty" fields); intros H; inversion H; now subst.
Qed.

Lemma filter_loop_ok (o : Value) (allowed : list string) :
  forall (acc : Fields) (w w' : World) (v : Value),
    for_each (fun filtered field =>
                bind (hasOwnProperty o field)
                     (fun own => ret (if own then set filtered field (get o field)
                                      else filtered)))
             (VObj acc) allowed w = (Ok v, w') ->
    w' = w
    /\ v = VObj (fold_left (fun acc k => if has_key k (fields_of o)
                                         then set_field k (get o k) acc else acc)
                           allowed acc).
Proof.
  induction allowed as [| k rest IH]; intros acc w w' v H; simpl in H.
  - inversion H. now subst.
  - apply bind_ok in H as (a & w1 & Hstep & Hrest).
    apply bind_ok in Hstep as (own & w2 & Hown & Hret).
    apply hasOwnProperty_ok in Hown as [-> ->].
    inversion Hret; subst; clear Hret.
    simpl. destruct (has_key k (fields_of o)); simpl in Hrest;
      apply IH in Hrest as [-> ->]; auto.
Qed.

Lemma filterValidFields_ok (allowed : list string) (o : Value) (w w' : World)
      (v : Value) :
  filterValidFields allowed o w = (Ok v, w') -> w' = w /\ v = VObj (pick allowed o).
Proof. unfold filterValidFields, pick. apply filter_loop_ok. Qed.

Lemma lookup_fold_pick (o : Value) (k : string) (allowed : list string) :
  forall acc,
    lookup k (fold_left (fun acc k => if has_key k (fields_of o)
                                      then set_field k (get o k) acc else acc)
                        allowed acc)
    = if existsb (String.eqb k) allowed && has_key k (fields_of o)
      then Some (get o k) else lookup k acc.
Proof.
  induction allowed as [| a rest IH]; intros acc; simpl; [reflexivity |].
  rewrite IH. destruct (k =? a)%string eqn:E; simpl.
  - apply String.eqb_eq in E. subst a.
    destruct (has_key k (fields_of o)) eqn:Hk;
      rewrite ?andb_true_r, ?andb_false_r; [| reflexivity].
    destruct (existsb (String.eqb k) rest); [reflexivity |].
    apply lookup_set_field_same.
  - destruct (existsb (String.eqb k) rest && has_key k (fields_of o)); [reflexivity |].
    destruct (has_key a (fields_of o)); [| reflexivity].
    now apply lookup_set_field_other.
Qed.

(** The filtered object holds exactly the allowed fields of the
    input. *)
Lemma lookup_pick (allowed : list string) (o : Value) (k : string) :
  lookup k (pick allowed o)
  = if existsb (String.eqb k) allowed then lookup k (fields_of o) else None.
Proof.
  unfold pick. rewrite lookup_fold_pick. simpl.
  destruct (existsb (String.eqb k) allowed); simpl; [| reflexivity].
  unfold has_key, get.
  destruct o; simpl; try reflexivity.
  destruct (lookup k fields); reflexivity.
Qed.

(* ================================================================= *)
(** ** Batch creation of users: what holds on every request *)

Lemma addTimestampAndDate_ok (clock : Clock) (v stamped : Value) (w w' : World) :
  addTimestampAndDate clock v w = (Ok stamped, w') ->
  w' = w /\ exists items, v = VArr items /\ stamped = VArr (map (stamp clock) items).
Proof.
  destruct v; simpl; intros H; inversion H; subst.
  split; [reflexivity |]. now exists items.
Qed.

Lemma users_create_step_ok (clock : Clock) (ea0 us0 : list Value) (i : nat)
      (user : Value) (w w' : World) (ea us : list Value) :
  users_create_step clock (ea0, us0) i user w = (Ok (ea, us), w') ->
  exists u, us = push us0 u /\ synced u.
Proof.
  unfold users_create_step. intros H.
  apply bind_ok in H as (filtered & w1 & Hf & H).
  apply filterValidFields_ok in Hf as [-> ->].
  apply bind_ok in H as (errors & w2 & _ & H).
  apply bind_ok in H as (u & w3 & Hu & H).
  inversion H; subst; clear H.
  exists u. split; [reflexivity |].
  destruct (truthy (get (VObj (pick user_fields user)) "movies")).
  - apply bind_ok in Hu as (stamped & w4 & Hs & Hu).
    apply addTimestampAndDate_ok in Hs as [-> (items & Hitems & ->)].
    apply bind_ok in Hu as (n & w5 & Hn & Hu).
    simpl in Hn. inversion Hn; subst; clear Hn.
    inversion Hu; subst; clear Hu.
    eexists. split; [reflexivity |].
    exists (map (stamp clock) items). split.
    + rewrite lookup_set_field_other by reflexivity. apply lookup_set_field_same.
    + apply lookup_set_field_same.
  - inversion Hu; subst; clear Hu.
    eexists. split; [reflexivity |].
    exists []. split.
    + rewrite lookup_set_field_other by reflexivity. apply lookup_set_field_same.
    + apply lookup_set_field_same.
Qed.

Lemma users_create_loop_ok (clock : Clock) (items : list Value) :
  forall (i : nat) (ea0 us0 : list Value) (w w' : World) (ea us : list Value),
    for_index (users_create_step clock) i (ea0, us0) items w = (Ok (ea, us), w') ->
    exists new, us = (us0 ++ new)%list
                /\ List.length new = List.length items
                /\ Forall synced new.
Proof.
  induction items as [| x items IH]; intros i ea0 us0 w w' ea us H; simpl in H.
  - inversion H; subst. exists []. now rewrite app_nil_r.
  - apply bind_ok in H as ([ea1 us1] & w1 & Hstep & Hrest).
    apply users_create_step_ok in Hstep as (u & -> & Hu).
    apply IH in Hrest as (new & -> & Hlen & Hall).
    exists (u :: new). unfold push. rewrite <- app_assoc. simpl.
    repeat split; auto.
Qed.

Lemma assign_ids_in_sync (docs : list Value) :
  Forall synced docs ->
  forall n, Forall in_sync (fst (assign_ids n docs))
            /\ List.length (fst (assign_ids n docs)) = List.length docs.
Proof.
  induction 1 as [| d docs Hd Hdocs IH]; intros n; simpl; [now split |].
  destruct (IH (S n)) as [Hall Hlen].
  destruct (assign_ids (S n) docs) as [stored ids]. simpl in *.
  destruct Hd as (fs & -> & l & Hm & Hn).
  destruct (lookup "_id" fs); simpl; split; try (now rewrite Hlen);
    constructor; auto; exists l; now split.
Qed.

(** X1.  The creation route on every request and store.  Unless
    the answer is 201 the store is left as it was, so no document is
    inserted on a 400 (or a 500); on a 201 one document
    per element of the body is appended to the users, each with
    [num_ratings] equal to the length of its [movies]. *)
Theorem users_create_outcome (clock : Clock) (req : Request) (s : Store) :
  let out := serve (users_create clock req) s in
  (status_of (response_of out) <> Some 201 -> store_of out = s)
  /\ (status_of (response_of out) = Some 201 ->
      exists items docs,
        body req = VArr items
        /\ users (store_of out) = (users s ++ docs)%list
        /\ movies (store_of out) = movies s
        /\ cinemas (store_of out) = cinemas s
        /\ List.length docs = List.length items
        /\ Forall in_sync docs).
Proof.
  cbv zeta. unfold serve, users_create, try_catch.
  destruct (body req) eqn:Hbody;
    try (split; [reflexivity | discriminate]).
  rewrite bind_run.
  pose proof (reads_only_for_index (users_create_step clock) items
                (fun acc i x => reads_only_users_create_step clock acc i x)
                0%nat ([], []) (mkWorld s [])) as Hdb.
  destruct (for_index (users_create_step clock) 0 ([], []) items (mkWorld s []))
    as [[[ea us] | e] w1] eqn:Hloop; simpl in Hdb.
  2: { split; [intros _; exact Hdb | discriminate]. }
  apply users_create_loop_ok in Hloop as (new & Hus & Hlen & Hall).
  simpl in Hus. subst us.
  destruct (0 <? List.length ea)%nat.
  { split; [intros _; exact Hdb | discriminate]. }
  rewrite bind_run. unfold insertMany. rewrite bind_run.
  destruct new as [| d new].
  { split; [intros _; exact Hdb | discriminate]. }
  cbv beta iota delta [record ret]. cbn [db oplog].
  destruct (assign_ids_in_sync (d :: new) Hall (oid_counter (db w1))) as [Hsync Hcount].
  destruct (assign_ids (oid_counter (db w1)) (d :: new)) as [stored ids] eqn:Hids.
  cbn [fst] in Hsync, Hcount.
  unfold response_of, store_of, status_of. cbn [fst snd db].
  split; [intros H; now elim H |].
  intros _. exists items, stored. rewrite Hdb.
  repeat split; auto. congruence.
Qed.

Lemma users_create_step_errors (clock : Clock) (ea0 us0 : list Value) (i : nat)
      (user : Value) (w w' : World) (ea us : list Value) :
  users_create_step clock (ea0, us0) i user w = (Ok (ea, us), w') ->
  Forall error_entry ea0 -> Forall error_entry ea.
Proof.
  unfold users_create_step. intros H Hea.
  apply bind_ok in H as (filtered & w1 & _ & H).
  apply bind_ok in H as (errors & w2 & _ & H).
  apply bind_ok in H as (u & w3 & _ & H).
  inversion H; subst; clear H.
  destruct errors as [| e errors]; cbn [List.length Nat.ltb Nat.leb]; [exact Hea |].
  unfold push. apply Forall_app. split; [exact Hea |].
  constructor; [| constructor].
  exists i, (e :: errors). split; [discriminate | reflexivity].
Qed.

Lemma users_create_loop_errors (clock : Clock) (items : list Value) :
  forall (i : nat) (ea0 us0 : list Value) (w w' : World) (ea us : list Value),
    for_index (users_create_step clock) i (ea0, us0) items w = (Ok (ea, us), w') ->
    Forall error_entry ea0 -> Forall error_entry ea.
Proof.
  induction items as [| x items IH]; intros i ea0 us0 w w' ea us H Hea; simpl in H.
  - now inversion H; subst.
  - apply bind_ok in H as ([ea1 us1] & w1 & Hstep & Hrest).
    eapply IH; [exact Hrest |].
    eapply users_create_step_errors; eauto.
Qed.

(** X2.  A 400 of the creation route is either the refusal of a body
    that is no array, or carries a non-empty list of
    [{userIndex, errors}] entries. *)
Theorem users_create_rejection (clock : Clock) (req : Request) (s : Store)
        (payload : Value) :
  response_of (serve (users_create clock req) s) = Ok (Reply 400 payload) ->
  (isArray (body req) = false
   /\ payload = error_body "Os dados devem estar em um formato de array")
  \/ (exists details,
        payload = error_details "Dados do user inválidos" (VArr details)
        /\ details <> [] /\ Forall error_entry details).
Proof.
  unfold serve, users_create, try_catch.
  destruct (body req) eqn:Hbody;
    try (unfold response_of; cbn [fst ret]; intros H; injection H as <-;
         left; now split).
  rewrite bind_run.
  destruct (for_index (users_create_step clock) 0 ([], []) items (mkWorld s []))
    as [[[ea us] | e] w1] eqn:Hloop; [| discriminate].
  apply users_create_loop_errors in Hloop; [| constructor].
  destruct ea as [| x ea]; cbn [List.length Nat.ltb Nat.leb].
  - rewrite bind_run. destruct (insertMany Users us w1) as [[r | e] w2]; discriminate.
  - unfold response_of. cbn [fst ret]. intros H. injection H as <-.
    right. eexists. split; [reflexivity |]. split; [discriminate | exact Hloop].
Qed.

(* ================================================================= *)
(** ** Updating a user: what holds on every request *)

Lemma reads_only_validateUserToUpdate_item (errors : list string) (i : nat)
      (movie : Value) :
  reads_only (validateUserToUpdate_item errors i movie).
Proof. unfold validateUserToUpdate_item. auto 8 with store. Qed.

Lemma reads_only_validateUserToUpdate (user : Value) :
  reads_only (validateUserToUpdate user).
Proof.
  unfold validateUserToUpdate.
  apply reads_only_if; [| auto with store].
  destruct (get user "movies"); auto with store.
  apply reads_only_for_index. intros. apply reads_only_validateUserToUpdate_item.
Qed.

Lemma lookup_app (k : string) (l1 l2 : Fields) :
  lookup k (l1 ++ l2)%list
  = match lookup k l1 with Some v => Some v | None => lookup k l2 end.
Proof.
  induction l1 as [| [k' v'] l1 IH]; simpl; [reflexivity |].
  destruct (k =? k')%string; [reflexivity | exact IH].
Qed.

Lemma lookup_not_in (k : string) (fs : Fields) :
  ~ In k (keys fs) -> lookup k fs = None.
Proof.
  induction fs as [| [k' v'] fs IH]; simpl; [reflexivity |].
  intros H. destruct (k =? k')%string eqn:E.
  - apply String.eqb_eq in E. subst. elim H. now left.
  - apply IH. intros Hin. apply H. now right.
Qed.

Lemma lookup_rev (k : string) (fs : Fields) :
  NoDup (keys fs) -> lookup k (rev fs) = lookup k fs.
Proof.
  induction fs as [| [k' v'] fs IH]; simpl; [reflexivity |].
  intros H. inversion H as [| ? ? Hnot Hrest]; subst.
  rewrite lookup_app, (IH Hrest). simpl.
  destruct (k =? k')%string eqn:E.
  - apply String.eqb_eq in E. subst. now rewrite (lookup_not_in _ _ Hnot).
  - now destruct (lookup k fs).
Qed.

Lemma keys_set_field (k : string) (v : Value) (fs : Fields) :
  forall x, In x (keys (set_field k v fs)) -> x = k \/ In x (keys fs).
Proof.
  induction fs as [| [k' v'] fs IH]; simpl; intros x H.
  - destruct H as [<- | []]. now left.
  - destruct (k =? k')%string eqn:E; simpl in H.
    + apply String.eqb_eq in E. subst. destruct H as [<- | H]; auto.
    + destruct H as [<- | H]; auto. destruct (IH x H); auto.
Qed.

Lemma NoDup_set_field (k : string) (v : Value) (fs : Fields) :
  NoDup (keys fs) -> NoDup (keys (set_field k v fs)).
Proof.
  induction fs as [| [k' v'] fs IH]; simpl; intros H.
  - constructor; [intros [] | constructor].
  - inversion H as [| ? ? Hnot Hrest]; subst.
    destruct (k =? k')%string eqn:E; simpl.
    + apply String.eqb_eq in E. subst. now constructor.
    + constructor; [| now apply IH].
      intros Hin. apply keys_set_field in Hin as [-> | Hin]; [| contradiction].
      now rewrite String.eqb_refl in E.
Qed.

Lemma NoDup_pick (allowed : list string) (o : Value) : NoDup (keys (pick allowed o)).
Proof.
  unfold pick.
  assert (G : forall acc, NoDup (keys acc) ->
                          NoDup (keys (fold_left
                                         (fun acc k => if has_key k (fields_of o)
                                                       then set_field k (get o k) acc
                                                       else acc) allowed acc))).
  { induction allowed as [| a rest IH]; intros acc Hacc; simpl; [exact Hacc |].
    apply IH. destruct (has_key a (fields_of o)); [now apply NoDup_set_field | exact Hacc]. }
  apply G. constructor.
Qed.

(** [$set] with an object whose keys are distinct: every key of the
    change takes the new value, the others keep theirs. *)
Lemma lookup_apply_set (k : string) (changes : Fields) (d : Doc) :
  NoDup (keys changes) ->
  lookup k (apply_set changes d)
  = match lookup k changes with Some v => Some v | None => lookup k d end.
Proof.
  intros Hnd. rewrite <- (lookup_rev k changes Hnd). clear Hnd.
  unfold apply_set. revert d.
  induction changes as [| [k' v'] rest IH]; intros d; simpl; [reflexivity |].
  rewrite IH, lookup_app. destruct (lookup k (rev rest)); [reflexivity |].
  simpl. destruct (k =? k')%string eqn:E.
  - apply String.eqb_eq in E. subst. apply lookup_set_field_same.
  - now apply lookup_set_field_other.
Qed.

Lemma updateOne_set_run (c : Coll) (id : Value) (changes : Fields) (w : World) :
  exists result,
    updateOne_set c id changes w
    = (Ok result,
       mkWorld (set_coll c (update_first (has_id id) (apply_set changes) (coll c (db w)))
                         (db w))
               (oplog w ++ [OpUpdateOne c id])).
Proof.
  unfold updateOne_set.
  cbv beta iota zeta delta [bind record read_coll write_coll ret]. cbn [db oplog].
  eexists. reflexivity.
Qed.

Lemma users_set_coll (docs : list Doc) (s : Store) :
  users (set_coll Users docs s) = docs
  /\ movies (set_coll Users docs s) = movies s
  /\ cinemas (set_coll Users docs s) = cinemas s.
Proof. now repeat split. Qed.

(** X3.  The update route on every store and every request whose
    identifier, when a digit string, is within the safe integers (so
    that the resolver makes of it the number the language makes).
    On a 200 the users are the old ones with the first document of
    that identifier rewritten; when the body's [movies] is an array the
    rewritten document has [num_ratings] equal to the length of its
    [movies], and when the body has no [movies] the rewriting leaves
    [movies] and [num_ratings] as they were.  A [movies] that is
    present and is no array is covered by neither case. *)
Theorem users_update_outcome (clock : Clock) (id : string) (payload : Value) (s : Store) :
  safe_id id ->
  let out := serve (users_update clock (id_request "user_id" id payload)) s in
  status_of (response_of out) = Some 200 ->
  exists f,
    users (store_of out) = update_first (has_id (checkId id)) f (users s)
    /\ movies (store_of out) = movies s
    /\ cinemas (store_of out) = cinemas s
    /\ (forall l d, lookup "movies" (fields_of payload) = Some (VArr l) -> in_sync (f d))
    /\ (forall d, lookup "movies" (fields_of payload) = None ->
                  lookup "movies" (f d) = lookup "movies" d
                  /\ lookup "num_ratings" (f d) = lookup "num_ratings" d).
Proof.
  intros _. cbv zeta. unfold serve, users_update, try_catch.
  change (param (id_request "user_id" id payload) "user_id") with id.
  change (body (id_request "user_id" id payload)) with payload.
  set (uid := checkId id).
  destruct (truthy uid); cbn [negb]; [| discriminate].
  cbv beta iota delta [findOne bind record read_coll ret]. cbn [db oplog coll app].
  destruct (find (has_id uid) (users s)) as [d0 |]; cbn [truthy negb]; [| discriminate].
  destruct (isArray payload); [discriminate |].
  set (w1 := mkWorld s _).
  destruct (filterValidFields user_fields payload w1) as [[filtered | e] w2] eqn:Hf;
    [| discriminate].
  apply filterValidFields_ok in Hf as [-> ->].
  pose proof (reads_only_validateUserToUpdate (VObj (pick user_fields payload)) w1) as Hdb.
  destruct (validateUserToUpdate (VObj (pick user_fields payload)) w1)
    as [[errors | e] w3] eqn:Hv; [| discriminate].
  cbn [snd] in Hdb. subst w1. cbn [db] in Hdb. clear Hv.
  destruct (0 <? List.length errors)%nat; [discriminate |].
  cbn [fields_of].
  destruct (List.length (pick user_fields payload) =? 0)%nat; [discriminate |].
  assert (Hm : lookup "movies" (pick user_fields payload)
               = lookup "movies" (fields_of payload)) by now rewrite lookup_pick.
  assert (Hn : lookup "num_ratings" (pick user_fields payload) = None)
    by now rewrite lookup_pick.
  pose proof (NoDup_pick user_fields payload) as Hnd.
  set (fs := pick user_fields payload) in *.
  cbn [get]. rewrite Hm.
  destruct (lookup "movies" (fields_of payload)) as [v |] eqn:Hpm.
  - destruct (truthy v) eqn:Htv.
    + destruct (length_of v w3) as [[n | e] w4] eqn:Hlen; [| discriminate].
      cbn [set get].
      rewrite lookup_set_field_other by reflexivity. rewrite Hm.
      destruct (addTimestampAndDate clock v w4) as [[stamped | e] w5] eqn:Hst;
        [| discriminate].
      apply addTimestampAndDate_ok in Hst as [-> (items & -> & ->)].
      cbn [length_of] in Hlen. inversion Hlen; subst; clear Hlen.
      cbn [fields_of].
      set (changes := set_field "movies" _ _).
      destruct (updateOne_set_run Users uid changes w4) as [result ->].
      intros _. exists (apply_set changes).
      unfold store_of. cbn [fst snd db coll].
      destruct (users_set_coll (update_first (has_id uid) (apply_set changes)
                                             (users (db w4))) (db w4))
        as (-> & -> & ->).
      repeat split; try discriminate.
      intros l d Hl. inversion Hl; subst l; clear Hl.
      assert (Hc : NoDup (keys changes)) by (subst changes; now repeat apply NoDup_set_field).
      exists (map (stamp clock) items). split; rewrite (lookup_apply_set _ _ _ Hc); subst changes.
      * now rewrite lookup_set_field_same.
      * rewrite lookup_set_field_other by reflexivity.
        now rewrite lookup_set_field_same, length_map.
    + cbn [fields_of].
      destruct (updateOne_set_run Users uid fs w3) as [result ->].
      intros _. exists (apply_set fs).
      unfold store_of. cbn [fst snd db coll].
      destruct (users_set_coll (update_first (has_id uid) (apply_set fs)
                                             (users (db w3))) (db w3))
        as (-> & -> & ->).
      rewrite Hdb. repeat split; try discriminate.
      intros l d Hl. inversion Hl; subst v. discriminate Htv.
  - cbn [truthy fields_of].
    destruct (updateOne_set_run Users uid fs w3) as [result ->].
    intros _. exists (apply_set fs).
    unfold store_of. cbn [fst snd db coll].
    destruct (users_set_coll (update_first (has_id uid) (apply_set fs)
                                           (users (db w3))) (db w3))
      as (-> & -> & ->).
    rewrite Hdb. repeat split; try discriminate;
      rewrite (lookup_apply_set _ _ _ Hnd); [now rewrite Hm | now rewrite Hn].
Qed.

(* ================================================================= *)
(** ** Creating movies: every request with a string genre *)

Lemma filter_loop_run (fs : Fields) (allowed : list string) :
  has_key "hasOwnProperty" fs = false ->
  forall (acc : Fields) (w : World),
    for_each (fun filtered field =>
                bind (hasOwnProperty (VObj fs) field)
                     (fun own => ret (if own then set filtered field (get (VObj fs) field)
                                      else filtered)))
             (VObj acc) allowed w
    = (Ok (VObj (fold_left (fun acc k => if has_key k fs
                                         then set_field k (get (VObj fs) k) acc else acc)
                           allowed acc)), w).
Proof.
  intros Hs. induction allowed as [| k rest IH]; intros acc w;
    cbn [for_each fold_left]; [reflexivity |].
  rewrite !bind_run. unfold hasOwnProperty at 1. rewrite Hs.
  cbv beta iota delta [ret].
  destruct (has_key k fs); cbn [set]; apply IH.
Qed.

Lemma filterValidFields_run (allowed : list string) (fs : Fields) (w : World) :
  has_key "hasOwnProperty" fs = false ->
  filterValidFields allowed (VObj fs) w = (Ok (VObj (pick allowed (VObj fs))), w).
Proof. intros Hs. unfold filterValidFields, pick. now apply filter_loop_run. Qed.

Lemma validateMovie_string_genre (movie : Fields) (g : string) (rest : list Value)
      (w : World) :
  lookup "genres" movie = Some (VArr (VStr g :: rest)) ->
  validateMovie (VObj movie) w
  = (Throw "availableGenres.includes is not a function",
     mkWorld (db w) (oplog w ++ [OpDistinct Movies "genres"])).
Proof.
  intros Hg. unfold validateMovie. cbn [get]. rewrite Hg.
  cbn [truthy isArray empty_array negb orb].
  reflexivity.
Qed.

(** X4.  Whatever the store and whatever the other fields, a batch whose
    first movie has a string as its first genre is answered with the
    500 of the [catch] branch, after the one call of [distinct]. *)
Theorem movies_create_string_genre (fs : Fields) (g : string) (rest others : list Value)
      (s : Store) :
  has_key "hasOwnProperty" fs = false ->
  lookup "genres" fs = Some (VArr (VStr g :: rest)) ->
  serve (movies_create (mkRequest [] [] (VArr (VObj fs :: others)))) s
  = (Ok (Reply 500 includes_failure), s, [OpDistinct Movies "genres"]).
Proof.
  intros Hs Hg. unfold serve, movies_create, try_catch. cbn [body for_index].
  rewrite !bind_run. unfold movies_create_step. rewrite bind_run.
  rewrite (filterValidFields_run movie_fields fs _ Hs).
  rewrite bind_run.
  rewrite (validateMovie_string_genre _ g rest).
  - reflexivity.
  - rewrite lookup_pick. exact Hg.
Qed.

(* ================================================================= *)
(** ** Movies by genre and year: stored years that are numbers *)

Lemma no_year_match (genre year : string) (docs : list Doc) :
  Forall numeric_year docs ->
  filter (fun d => forallb (fun kv => field_matches (lookup (fst kv) d) (snd kv))
                           [("genres", VStr genre); ("year", VStr year)]) docs = [].
Proof.
  induction 1 as [| d docs [n Hd] _ IH]; [reflexivity |].
  cbn [filter forallb fst snd]. rewrite Hd. cbn [field_matches value_eqb].
  rewrite andb_false_r. exact IH.
Qed.

(** X5.  When every stored movie has a number as its [year], the route
    answers no request with a list. *)
Theorem genre_year_never_lists (clock : Clock) (req : Request) (s : Store) :
  Forall numeric_year (movies s) ->
  status_of (response_of (serve (movies_by_genre_year clock req) s)) <> Some 200.
Proof.
  intros Hy. unfold serve, movies_by_genre_year, try_catch.
  destruct (negb _ || negb _); [discriminate |].
  destruct (negb _ || negb _); [discriminate |].
  cbv beta iota zeta delta [bind ret distinct record read_coll find_eq].
  cbn [db oplog await includes coll].
  destruct (existsb _ _); cbv beta iota delta [ret]; cbn [negb db]; [| discriminate].
  destruct (num_ltb _ _ || num_ltb _ _); [discriminate |].
  rewrite (no_year_match _ _ _ Hy). discriminate.
Qed.

(* ================================================================= *)
(** ** The insertion sort *)

Section SortBy.

Variable A : Type.
Variable le : A -> A -> bool.
Variable P : A -> Prop.
Hypothesis le_total : forall x y, P x -> P y -> le x y = true \/ le y x = true.
Hypothesis le_trans :
  forall x y z, P x -> P y -> P z -> le x y = true -> le y z = true -> le x z = true.

Lemma insert_by_In (x y : A) (l : list A) :
  In y (insert_by le x l) -> y = x \/ In y l.
Proof.
  induction l as [| z l IH]; simpl.
  - intros [<- | []]. now left.
  - destruct (le x z); simpl; intros [<- | H]; auto.
    destruct (IH H); auto.
Qed.

Lemma insert_by_Forall (x : A) (l : list A) :
  P x -> Forall P l -> Forall P (insert_by le x l).
Proof.
  intros Hx Hl. apply Forall_forall. intros y Hy.
  apply insert_by_In in Hy as [-> | Hy]; [exact Hx |].
  now apply (proj1 (Forall_forall P l) Hl).
Qed.

Lemma insert_by_sorted (x : A) (l : list A) :
  P x -> Forall P l -> StronglySorted (fun x y => le x y = true) l -> StronglySorted (fun x y => le x y = true) (insert_by le x l).
Proof.
  intros Hx Hl Hs. induction Hs as [| z l Hs IH Hz]; simpl.
  - constructor; constructor.
  - inversion Hl as [| ? ? Pz Pl]; subst.
    destruct (le x z) eqn:E.
    + constructor; [now constructor |].
      constructor; [exact E |].
      apply Forall_forall. intros y Hy.
      pose proof (proj1 (Forall_forall _ _) Hz y Hy) as Hzy.
      pose proof (proj1 (Forall_forall _ _) Pl y Hy) as Py.
      exact (le_trans x z y Hx Pz Py E Hzy).
    + constructor; [now apply IH |].
      apply Forall_forall. intros y Hy.
      apply insert_by_In in Hy as [-> | Hy].
      * destruct (le_total x z Hx Pz) as [H | H]; [congruence | exact H].
      * exact (proj1 (Forall_forall _ _) Hz y Hy).
Qed.

Lemma sort_by_Forall (l : list A) : Forall P l -> Forall P (sort_by le l).
Proof.
  induction 1 as [| x l Hx Hl IH]; simpl; [constructor |].
  now apply insert_by_Forall.
Qed.

(** The insertion sort orders every list whose elements the
    comparison orders totally. *)
Lemma sort_by_sorted (l : list A) : Forall P l -> StronglySorted (fun x y => le x y = true) (sort_by le l).
Proof.
  induction 1 as [| x l Hx Hl IH]; simpl; [constructor |].
  apply insert_by_sorted; auto using sort_by_Forall.
Qed.

End SortBy.

Section Sublists.

Variable A : Type.
Variable R : A -> A -> Prop.

Lemma Forall_firstn (Q : A -> Prop) (n : nat) (l : list A) :
  Forall Q l -> Forall Q (firstn n l).
Proof.
  intros H. revert n. induction H; intros [| n]; simpl; constructor; auto.
Qed.

Lemma StronglySorted_firstn (n : nat) (l : list A) :
  StronglySorted R l -> StronglySorted R (firstn n l).
Proof.
  intros H. revert n. induction H as [| x l Hs IH Hx]; intros [| n]; simpl;
    try constructor; auto using Forall_firstn.
Qed.

Lemma Forall_filter (Q : A -> Prop) (f : A -> bool) (l : list A) :
  Forall Q l -> Forall Q (filter f l).
Proof.
  induction 1 as [| x l Hx Hl IH]; simpl; [constructor |].
  destruct (f x); [constructor |]; auto.
Qed.

Lemma StronglySorted_filter (f : A -> bool) (l : list A) :
  StronglySorted R l -> StronglySorted R (filter f l).
Proof.
  induction 1 as [| x l Hs IH Hx]; simpl; [constructor |].
  destruct (f x); [constructor |]; auto using Forall_filter.
Qed.

End Sublists.

(* ================================================================= *)
(** ** The five best ratings of a user *)

Lemma top5_unfold (id : Value) (docs : list Doc) :
  run_pipeline (top5_pipeline id) docs
  = map (project ["_id"; "name"; "gender"; "age"; "occupation"; "num_ratings";
                  "topMovies"])
        (group_push "topMovies" "movies"
           (firstn 5 (sort_by (desc_leb rating_path)
                        (flat_map (unwind "movies")
                                  (filter (path_matches ["_id"] id) docs))))).
Proof. reflexivity. Qed.

Lemma pushed_length (field : string) (l : list Doc) :
  (List.length (flat_map (pushed field) l) <= List.length l)%nat.
Proof.
  induction l as [| d l IH]; simpl; [lia |].
  unfold pushed at 1. destruct (lookup field d); simpl; lia.
Qed.

Lemma group_push_entries (l : list Doc) :
  Forall (fun d => exists g,
            d = [("_id", g);
                 ("topMovies",
                  VArr (flat_map (pushed "movies")
                                 (filter (fun x => value_eqb (id_of x) g) l)))])
         (map (project ["_id"; "name"; "gender"; "age"; "occupation"; "num_ratings";
                        "topMovies"])
              (group_push "topMovies" "movies" l)).
Proof.
  unfold group_push. rewrite map_map.
  apply Forall_forall. intros d Hd.
  apply in_map_iff in Hd as (g & <- & _). now exists g.
Qed.

Lemma sort_key_rated (d : Doc) (m : Value) (q : Q) :
  lookup "movies" d = Some m -> has_rating m q ->
  sort_key rating_path d = VNum (Fin q).
Proof.
  intros Hm Hq. unfold sort_key, rating_path. cbn [get_path get].
  rewrite Hm. unfold has_rating in Hq. now rewrite Hq.
Qed.

Lemma desc_leb_rated (a b : Doc) (ma mb : Value) (qa qb : Q) :
  lookup "movies" a = Some ma -> has_rating ma qa ->
  lookup "movies" b = Some mb -> has_rating mb qb ->
  desc_leb rating_path a b = Qle_bool qb qa.
Proof.
  intros Ha Hqa Hb Hqb. unfold desc_leb.
  now rewrite (sort_key_rated a ma qa Ha Hqa), (sort_key_rated b mb qb Hb Hqb).
Qed.

Lemma desc_leb_total (a b : Doc) :
  rated a -> rated b ->
  desc_leb rating_path a b = true \/ desc_leb rating_path b a = true.
Proof.
  intros (ma & qa & Ha & Hqa) (mb & qb & Hb & Hqb).
  rewrite (desc_leb_rated a b ma mb qa qb), (desc_leb_rated b a mb ma qb qa) by assumption.
  destruct (Qlt_le_dec qa qb) as [H | H].
  - right. apply Qle_bool_iff. now apply Qlt_le_weak.
  - left. now apply Qle_bool_iff.
Qed.

Lemma desc_leb_trans (a b c : Doc) :
  rated a -> rated b -> rated c ->
  desc_leb rating_path a b = true -> desc_leb rating_path b c = true ->
  desc_leb rating_path a c = true.
Proof.
  intros (ma & qa & Ha & Hqa) (mb & qb & Hb & Hqb) (mc & qc & Hc & Hqc).
  rewrite (desc_leb_rated a b ma mb qa qb), (desc_leb_rated b c mb mc qb qc),
    (desc_leb_rated a c ma mc qa qc) by assumption.
  rewrite !Qle_bool_iff. intros H1 H2. now apply Qle_trans with qb.
Qed.

Lemma unwind_rated (d : Doc) : well_rated d -> Forall rated (unwind "movies" d).
Proof.
  intros (items & Hm & Hall). unfold unwind. rewrite Hm.
  apply Forall_forall. intros x Hx.
  apply in_map_iff in Hx as (m & <- & Hin).
  destruct (proj1 (Forall_forall _ _) Hall m Hin) as [q Hq].
  exists m, q. split; [apply lookup_set_field_same | exact Hq].
Qed.

Lemma unwound_rated (docs : list Doc) :
  Forall well_rated docs -> Forall rated (flat_map (unwind "movies") docs).
Proof.
  induction 1 as [| d docs Hd _ IH]; simpl; [constructor |].
  apply Forall_app. split; [now apply unwind_rated | exact IH].
Qed.

Lemma pushed_higher_first (d : Doc) (l : list Doc) (m : Value) (q : Q) :
  lookup "movies" d = Some m -> has_rating m q ->
  Forall rated l ->
  Forall (fun x => desc_leb rating_path d x = true) l ->
  Forall (higher_first m) (flat_map (pushed "movies") l).
Proof.
  intros Hm Hq Hl Hd. induction Hl as [| x l (mx & qx & Hx & Hqx) Hl IH]; simpl;
    [constructor |].
  inversion Hd as [| ? ? Hdx Hdl]; subst.
  unfold pushed at 1. rewrite Hx. simpl. constructor; [| now apply IH].
  exists q, qx. repeat split; auto.
  rewrite (desc_leb_rated d x m mx q qx) in Hdx by assumption.
  now apply Qle_bool_iff.
Qed.

Lemma pushed_sorted (l : list Doc) :
  Forall rated l ->
  StronglySorted (fun a b => desc_leb rating_path a b = true) l ->
  StronglySorted higher_first (flat_map (pushed "movies") l).
Proof.
  intros Hl Hs. induction Hs as [| d l Hs IH Hd]; simpl; [constructor |].
  inversion Hl as [| ? ? (m & q & Hm & Hq) Hrest]; subst.
  unfold pushed at 1. rewrite Hm. simpl.
  constructor; [now apply IH |].
  now apply (pushed_higher_first d l m q).
Qed.

(** Every document the pipeline returns is a [top_entry]. *)
Theorem top5_entries (id : Value) (docs : list Doc) :
  Forall (top_entry docs) (run_pipeline (top5_pipeline id) docs).
Proof.
  rewrite top5_unfold.
  set (unwound := flat_map (unwind "movies") (filter (path_matches ["_id"] id) docs)).
  set (best := firstn 5 (sort_by (desc_leb rating_path) unwound)).
  eapply Forall_impl; [| apply group_push_entries].
  intros d [g ->]. exists g. eexists. split; [reflexivity |]. split.
  - etransitivity; [apply pushed_length |].
    etransitivity; [apply filter_length_le |].
    subst best. apply firstn_le_length.
  - intros Hw.
    assert (Hr : Forall rated unwound).
    { subst unwound. apply unwound_rated. now apply Forall_filter. }
    apply pushed_sorted.
    + apply Forall_filter. subst best. apply Forall_firstn.
      now apply sort_by_Forall.
    + apply StronglySorted_filter. subst best. apply StronglySorted_firstn.
      exact (sort_by_sorted Doc (desc_leb rating_path) rated
                            desc_leb_total desc_leb_trans unwound Hr).
Qed.

Lemma aggregate_run (c : Coll) (p : list Stage) (w : World) :
  aggregate c p w
  = (Ok (map VObj (run_pipeline p (coll c (db w)))),
     mkWorld (db w) (oplog w ++ [OpAggregate c])).
Proof. reflexivity. Qed.

Lemma length_of_world (v : Value) (w w' : World) (r : Res Value) :
  length_of v w = (r, w') -> w' = w.
Proof. destruct v; simpl; intros H; now inversion H. Qed.

(** X6.  Whenever the read handler answers with a list, every element
    is a [top_entry]: [topMovies] has at most five entries in
    non-increasing rating order, and no identity field comes with
    it. *)
Theorem users_get_answer (req : Request) (s : Store) (answer : list Value) :
  response_of (serve (users_get req) s) = Ok (Reply 200 (VArr answer)) ->
  Forall (fun v => exists d, v = VObj d /\ top_entry (users s) d) answer.
Proof.
  unfold serve, users_get, try_catch.
  destruct (is_null _); [discriminate |].
  rewrite bind_run.
  cbv beta iota zeta delta [findOne bind record read_coll ret].
  cbn [db oplog coll].
  destruct (find _ (users s)) as [d |]; cbn [truthy negb]; [| discriminate].
  destruct (length_of _ _) as [[n | e] w] eqn:Hlen; [| discriminate].
  apply length_of_world in Hlen. subst w.
  destruct (value_eqb n _); [discriminate |].
  rewrite aggregate_run. unfold response_of. cbn [fst db coll].
  intros H. injection H as <-.
  apply Forall_forall. intros v Hv.
  apply in_map_iff in Hv as (x & <- & Hx).
  exists x. split; [reflexivity |].
  exact (proj1 (Forall_forall _ _) (top5_entries _ (users s)) x Hx).
Qed.

(* ================================================================= *)
(** ** The ranking and statistics routes *)

Lemma aggregate_x_run (c : Coll) (p : list XStage) (w : World) :
  aggregate_x c p w
  = (Ok (map VObj (run_xpipeline (db w) p (coll c (db w)))),
     mkWorld (db w) (oplog w ++ [OpAggregate c])).
Proof. reflexivity. Qed.

Lemma run_xpipeline_app (s : Store) (p q : list XStage) (docs : list Doc) :
  run_xpipeline s (p ++ q) docs = run_xpipeline s q (run_xpipeline s p docs).
Proof. unfold run_xpipeline. apply fold_left_app. Qed.

(** A parameter that is no digit string, or one of value 0, is
    refused before any call to the store. *)
Lemma movies_higher_rejects (n : string) (payload : Value) (s : Store) :
  digits_only n = false \/ parse_digits 0 n = 0 ->
  serve (movies_higher (id_request "num_movies" n payload)) s
  = (Ok (Reply 400 (error_body "O número de filmes deve ser um número inteiro positivo")),
     s, []).
Proof.
  intros H. unfold serve, movies_higher, try_catch.
  change (param (id_request "num_movies" n payload) "num_movies") with n.
  destruct (digits_only n) eqn:Hd; [| reflexivity].
  destruct H as [H | H]; [discriminate |].
  rewrite (parseInt_digits n Hd), H. reflexivity.
Qed.

(** X7.  [GET /movies/higher/:num_movies] with a digit string of
    positive value within the safe integers: one aggregation on the
    users, the store left as it was, and status 200 whatever was
    found.  When no movie is found the body is the message of movies
    not found, which leaves before the status 404 is set; otherwise
    the body is a non-empty list of at most [num_movies] entries. *)
Lemma movies_higher_answer (n : string) (payload : Value) (s : Store) :
  digits_only n = true ->
  0 < parse_digits 0 n <= max_safe_integer ->
  exists answer,
    serve (movies_higher (id_request "num_movies" n payload)) s
    = (Ok (Reply 200 answer), s, [OpAggregate Users])
    /\ (answer = no_movies_found
        \/ exists entries, answer = VArr entries
                           /\ entries <> []
                           /\ (Z.of_nat (List.length entries) <= parse_digits 0 n)).
Proof.
  intros Hd [Hpos _]. unfold serve, movies_higher, try_catch.
  change (param (id_request "num_movies" n payload) "num_movies") with n.
  rewrite Hd, (parseInt_digits n Hd), num_leb_of_Z.
  replace (parse_digits 0 n <=? 0) with false by (symmetry; apply Z.leb_gt; lia).
  cbn [negb orb]. rewrite bind_run, aggregate_x_run. cbn [db oplog coll app].
  set (entries := map VObj _).
  assert (Hlen : Z.of_nat (List.length entries) <= parse_digits 0 n).
  { subst entries. rewrite length_map. unfold higher_pipeline.
    rewrite !run_xpipeline_app.
    set (before := run_xpipeline s _ _).
    change (run_xpipeline s _ before)
      with (firstn (num_to_nat (of_Z (parse_digits 0 n)))
                   (sort_by (desc_leb ["averageRating"])
                            (map (compute [("_id", ["_id"]); ("averageRating", ["averageRating"]);
             ("title", ["movieinfo"; "title"]); ("genres", ["movieinfo"; "genres"]);
             ("year", ["movieinfo"; "year"])]) before))).
    etransitivity; [apply inj_le, firstn_le_length |].
    unfold num_to_nat, of_Z. rewrite Qfloor_Z. lia. }
  destruct entries as [| e entries]; cbn [List.length Nat.eqb].
  - eexists. split; [reflexivity |]. now left.
  - eexists. split; [reflexivity |]. right.
    exists (e :: entries). repeat split; [discriminate | exact Hlen].
Qed.

Lemma total_fin (qs : list Q) :
  forall a, exists t, fold_left num_add (map Fin qs) (Fin a) = Fin t
                      /\ (t == a + fold_right Qplus 0 qs)%Q.
Proof.
  induction qs as [| q qs IH]; intros a; simpl.
  - exists a. split; [reflexivity | ring].
  - destruct (IH (Qred (a + q))) as (t & Ht & Heq).
    exists t. split; [exact Ht |].
    rewrite Heq, Qred_correct. ring.
Qed.

Lemma sum_bounds (lo hi : Q) (qs : list Q) :
  Forall (fun q => lo <= q /\ q <= hi)%Q qs ->
  (inject_Z (Z.of_nat (List.length qs)) * lo <= fold_right Qplus 0 qs
   /\ fold_right Qplus 0 qs <= inject_Z (Z.of_nat (List.length qs)) * hi)%Q.
Proof.
  induction 1 as [| q qs [Hlo Hhi] _ [IHlo IHhi]].
  - simpl. split; ring_simplify; apply Qle_refl.
  - cbn [List.length fold_right]. rewrite Nat2Z.inj_succ. unfold Z.succ.
    rewrite inject_Z_plus. split.
    + setoid_replace ((inject_Z (Z.of_nat (List.length qs)) + inject_Z 1) * lo)%Q
        with (lo + inject_Z (Z.of_nat (List.length qs)) * lo)%Q by ring.
      now apply Qplus_le_compat.
    + setoid_replace ((inject_Z (Z.of_nat (List.length qs)) + inject_Z 1) * hi)%Q
        with (hi + inject_Z (Z.of_nat (List.length qs)) * hi)%Q by ring.
      now apply Qplus_le_compat.
Qed.

(** The mean of finite numbers between two bounds is a finite number
    between them. *)
Lemma mean_bounds (lo hi : Q) (qs : list Q) :
  qs <> [] ->
  Forall (fun q => lo <= q /\ q <= hi)%Q qs ->
  exists a, mean (map Fin qs) = VNum (Fin a) /\ (lo <= a /\ a <= hi)%Q.
Proof.
  intros Hne Hall. destruct qs as [| q qs]; [congruence |].
  change (mean (map Fin (q :: qs)))
    with (VNum (num_div (fold_left num_add (map Fin (q :: qs)) (Fin (inject_Z 0)))
                        (of_nat (List.length (map Fin (q :: qs)))))).
  destruct (total_fin (q :: qs) (inject_Z 0)) as (t & -> & Ht).
  rewrite length_map.
  set (n := List.length (q :: qs)) in *.
  assert (Hn : (0 < inject_Z (Z.of_nat n))%Q).
  { change 0%Q with (inject_Z 0). rewrite <- Zlt_Qlt. subst n. simpl. lia. }
  unfold num_div, of_nat, of_Z.
  replace (Qeq_bool (inject_Z (Z.of_nat n)) 0) with false.
  2:{ symmetry. apply not_true_is_false. intros E. apply Qeq_bool_iff in E.
      rewrite E in Hn. now apply Qlt_irrefl in Hn. }
  eexists. split; [reflexivity |].
  rewrite Qred_correct.
  destruct (sum_bounds lo hi (q :: qs) Hall) as [Hlo Hhi]. fold n in Hlo, Hhi.
  assert (Et : (t == fold_right Qplus 0 (q :: qs))%Q) by (rewrite Ht; ring).
  split.
  - apply Qle_shift_div_l; [exact Hn |]. rewrite Et.
    now rewrite Qmult_comm.
  - apply Qle_shift_div_r; [exact Hn |]. rewrite Et.
    now rewrite Qmult_comm.
Qed.

Section FiniteKeys.

Variable path : list string.

Lemma desc_leb_fin (a b : Doc) (qa qb : Q) :
  key_is path a qa -> key_is path b qb -> desc_leb path a b = Qle_bool qb qa.
Proof. unfold key_is, desc_leb. now intros -> ->. Qed.

Lemma asc_leb_fin (a b : Doc) (qa qb : Q) :
  key_is path a qa -> key_is path b qb -> asc_leb path a b = Qle_bool qa qb.
Proof. unfold key_is, asc_leb. now intros -> ->. Qed.

Lemma desc_fin_total (a b : Doc) :
  fin_key path a -> fin_key path b ->
  desc_leb path a b = true \/ desc_leb path b a = true.
Proof.
  intros [qa Ha] [qb Hb].
  rewrite (desc_leb_fin a b qa qb Ha Hb), (desc_leb_fin b a qb qa Hb Ha).
  destruct (Qlt_le_dec qa qb) as [H | H].
  - right. apply Qle_bool_iff. now apply Qlt_le_weak.
  - left. now apply Qle_bool_iff.
Qed.

Lemma desc_fin_trans (a b c : Doc) :
  fin_key path a -> fin_key path b -> fin_key path c ->
  desc_leb path a b = true -> desc_leb path b c = true -> desc_leb path a c = true.
Proof.
  intros [qa Ha] [qb Hb] [qc Hc].
  rewrite (desc_leb_fin a b qa qb Ha Hb), (desc_leb_fin b c qb qc Hb Hc),
    (desc_leb_fin a c qa qc Ha Hc), !Qle_bool_iff.
  intros H1 H2. now apply Qle_trans with qb.
Qed.

Lemma asc_fin_total (a b : Doc) :
  fin_key path a -> fin_key path b ->
  asc_leb path a b = true \/ asc_leb path b a = true.
Proof.
  intros [qa Ha] [qb Hb].
  rewrite (asc_leb_fin a b qa qb Ha Hb), (asc_leb_fin b a qb qa Hb Ha).
  destruct (Qlt_le_dec qa qb) as [H | H].
  - left. apply Qle_bool_iff. now apply Qlt_le_weak.
  - right. now apply Qle_bool_iff.
Qed.

Lemma asc_fin_trans (a b c : Doc) :
  fin_key path a -> fin_key path b -> fin_key path c ->
  asc_leb path a b = true -> asc_leb path b c = true -> asc_leb path a c = true.
Proof.
  intros [qa Ha] [qb Hb] [qc Hc].
  rewrite (asc_leb_fin a b qa qb Ha Hb), (asc_leb_fin b c qb qc Hb Hc),
    (asc_leb_fin a c qa qc Ha Hc), !Qle_bool_iff.
  intros H1 H2. now apply Qle_trans with qb.
Qed.

Lemma StronglySorted_on (A : Type) (P : A -> Prop) (R R' : A -> A -> Prop)
      (l : list A) :
  (forall a b, P a -> P b -> R a b -> R' a b) ->
  Forall P l -> StronglySorted R l -> StronglySorted R' l.
Proof.
  intros Himp Hl Hs. induction Hs as [| x l Hs IH Hx]; [constructor |].
  inversion Hl as [| ? ? Px Pl]; subst.
  constructor; [now apply IH |].
  apply Forall_forall. intros y Hy.
  apply Himp; auto.
  - exact (proj1 (Forall_forall _ _) Pl y Hy).
  - exact (proj1 (Forall_forall _ _) Hx y Hy).
Qed.

(** Sorting documents with finite keys in descending order puts
    every document before those of smaller or equal key. *)
Lemma sort_desc_sorted (l : list Doc) :
  Forall (fin_key path) l ->
  StronglySorted (key_geq path) (sort_by (desc_leb path) l).
Proof.
  intros Hl.
  apply (StronglySorted_on Doc (fin_key path)
           (fun a b => desc_leb path a b = true)).
  - intros a b [qa Ha] [qb Hb] H.
    rewrite (desc_leb_fin a b qa qb Ha Hb) in H.
    exists qa, qb. repeat split; auto. now apply Qle_bool_iff.
  - now apply sort_by_Forall.
  - exact (sort_by_sorted Doc (desc_leb path) (fin_key path)
                          desc_fin_total desc_fin_trans l Hl).
Qed.

(** The same in ascending order. *)
Lemma sort_asc_sorted (l : list Doc) :
  Forall (fin_key path) l ->
  StronglySorted (fun a b => key_geq path b a) (sort_by (asc_leb path) l).
Proof.
  intros Hl.
  apply (StronglySorted_on Doc (fin_key path)
           (fun a b => asc_leb path a b = true)).
  - intros a b [qa Ha] [qb Hb] H.
    rewrite (asc_leb_fin a b qa qb Ha Hb) in H.
    exists qb, qa. repeat split; auto. now apply Qle_bool_iff.
  - now apply sort_by_Forall.
  - exact (sort_by_sorted Doc (asc_leb path) (fin_key path)
                          asc_fin_total asc_fin_trans l Hl).
Qed.

End FiniteKeys.

Lemma unwind_entries (d : Doc) : valid_user d -> Forall entry_doc (unwind "movies" d).
Proof.
  intros (items & Hm & Hall). unfold unwind. rewrite Hm.
  apply Forall_forall. intros x Hx.
  apply in_map_iff in Hx as (m & <- & Hin).
  exists m. split; [apply lookup_set_field_same |].
  exact (proj1 (Forall_forall _ _) Hall m Hin).
Qed.

Lemma unwound_entries (docs : list Doc) :
  Forall valid_user docs -> Forall entry_doc (flat_map (unwind "movies") docs).
Proof.
  induction 1 as [| d docs Hd _ IH]; simpl; [constructor |].
  apply Forall_app. split; [now apply unwind_entries | exact IH].
Qed.

Lemma entry_doc_key (d : Doc) :
  entry_doc d -> exists id, sort_key rated_movie d = VNum (Fin id).
Proof.
  intros (m & Hm & id & q & Hid & _). exists id.
  unfold sort_key, rated_movie. cbn [get_path get]. rewrite Hm.
  now rewrite Hid.
Qed.

Lemma entry_doc_rating (d : Doc) :
  entry_doc d ->
  exists q, at_path rating_of d = VNum (Fin q) /\ (inject_Z 1 <= q /\ q <= inject_Z 5)%Q.
Proof.
  intros (m & Hm & id & q & _ & Hq & Hb). exists q. split; [| exact Hb].
  unfold at_path, rating_of. cbn [get_path get]. now rewrite Hm.
Qed.

Lemma entries_ratings (l : list Doc) :
  Forall entry_doc l ->
  exists qs, numbers (map (at_path rating_of) l) = map Fin qs
             /\ List.length qs = List.length l
             /\ Forall (fun q => inject_Z 1 <= q /\ q <= inject_Z 5)%Q qs.
Proof.
  induction 1 as [| d l Hd _ (qs & Hqs & Hlen & Hall)].
  - exists []. now repeat split.
  - destruct (entry_doc_rating d Hd) as (q & Hq & Hb).
    exists (q :: qs). cbn [map numbers flat_map]. rewrite Hq.
    unfold numbers in Hqs. rewrite Hqs. simpl.
    repeat split; auto.
Qed.

Lemma dedup_keys_In (x : Value) (l : list Value) :
  forall seen, In x (dedup_keys seen l) -> In x l.
Proof.
  induction l as [| y l IH]; intros seen H; simpl in *; [exact H |].
  destruct (existsb (same_key y) seen).
  - right. now apply IH with seen.
  - destruct H as [<- | H]; [now left | right; now apply IH with (y :: seen)].
Qed.

Lemma group_by_In (key : list string) (outs : list (string * Accumulator))
      (docs : list Doc) (g : Doc) :
  In g (group_by key outs docs) ->
  exists d, In d docs
            /\ g = ("_id", sort_key key d)
                   :: map (fun oa =>
                             (fst oa,
                              accumulate (snd oa)
                                (filter (fun x => same_key (sort_key key x) (sort_key key d))
                                        docs))) outs.
Proof.
  unfold group_by. intros H.
  apply in_map_iff in H as (k & <- & Hk).
  apply dedup_keys_In in Hk. apply in_map_iff in Hk as (d & <- & Hd).
  now exists d.
Qed.

Lemma same_key_fin (q : Q) : same_key (VNum (Fin q)) (VNum (Fin q)) = true.
Proof. cbn. apply Qeq_bool_refl. Qed.

(** After the join with the movies and its unwinding, a document
    keeps the fields of the group it comes from, apart from
    [movieinfo]. *)
Lemma joined_In (s : Store) (groups : list Doc) (j : Doc) :
  In j (run_xpipeline s join_movieinfo groups) ->
  exists g, In g groups
            /\ forall k, (k =? "movieinfo")%string = false -> lookup k j = lookup k g.
Proof.
  unfold run_xpipeline, join_movieinfo. cbn [fold_left run_xstage run_stage].
  intros H. apply in_flat_map in H as (x & Hx & Hj).
  apply in_map_iff in Hx as (g & <- & Hg).
  exists g. split; [exact Hg |]. intros k Hk.
  unfold unwind, join_docs in Hj. rewrite lookup_set_field_same in Hj.
  apply in_map_iff in Hj as (m & <- & _).
  now rewrite !lookup_set_field_other.
Qed.

Lemma lookup_compute (k : string) (outs : list (string * list string)) (d : Doc) :
  lookup k (compute outs d)
  = match find (fun op => (k =? fst op)%string && negb (undefined (at_path (snd op) d)))
               outs with
    | Some op => Some (at_path (snd op) d)
    | None => None
    end.
Proof.
  unfold compute. induction outs as [| [name p] outs IH]; [reflexivity |].
  cbn [flat_map find fst snd]. rewrite lookup_app, IH. clear IH.
  destruct (at_path p d) eqn:E; cbn [undefined negb lookup fst snd];
    rewrite ?andb_false_r, ?andb_true_r; try reflexivity;
    destruct (k =? name)%string; cbn [snd]; rewrite ?E; reflexivity.
Qed.

Lemma at_path_field (k : string) (d : Doc) :
  at_path [k] d = match lookup k d with Some v => v | None => VUndef end.
Proof. reflexivity. Qed.

Lemma sort_key_field (k : string) (d : Doc) (q : Q) :
  lookup k d = Some (VNum (Fin q)) -> sort_key [k] d = VNum (Fin q).
Proof. intros H. unfold sort_key. cbn [get_path get]. now rewrite H. Qed.

(** A projection that includes the field [k] under its own name
    keeps the value of [k]. *)
Lemma compute_keeps (k : string) (outs : list (string * list string)) (d : Doc)
      (v : Value) :
  find (fun op => (k =? fst op)%string) outs = Some (k, [k]) ->
  lookup k d = Some v -> undefined v = false ->
  lookup k (compute outs d) = Some v.
Proof.
  intros Hfind Hd Hv. rewrite lookup_compute.
  induction outs as [| [name p] outs IH]; [discriminate |].
  cbn [find fst snd] in *.
  destruct (k =? name)%string eqn:E.
  - injection Hfind as -> ->. rewrite at_path_field, Hd, Hv.
    cbn [negb andb snd]. now rewrite at_path_field, Hd.
  - cbn [andb]. now apply IH.
Qed.

Lemma group_avg_field (docs : list Doc) (g : Doc) :
  Forall entry_doc docs ->
  In g (group_by rated_movie [("averageRating", AccAvg rating_of)] docs) ->
  averaged g.
Proof.
  intros Hall Hg. apply group_by_In in Hg as (d & Hd & ->).
  cbn [map fst snd accumulate].
  set (members := filter _ docs).
  assert (Hm : Forall entry_doc members) by (subst members; now apply Forall_filter).
  assert (Hin : In d members).
  { subst members. apply filter_In. split; [exact Hd |].
    destruct (entry_doc_key d (proj1 (Forall_forall _ _) Hall d Hd)) as [id ->].
    apply same_key_fin. }
  destruct (entries_ratings members Hm) as (qs & -> & Hlen & Hb).
  destruct (mean_bounds (inject_Z 1) (inject_Z 5) qs) as (a & Ha & Hab); auto.
  { intros ->. destruct members; [contradiction | discriminate]. }
  exists a. split; [| exact Hab].
  cbn [lookup]. change ("averageRating" =? "_id")%string with false.
  change ("averageRating" =? "averageRating")%string with true. cbv iota.
  now rewrite Ha.
Qed.

Lemma higher_computed (s : Store) (outs : list (string * list string)) :
  Forall valid_user (users s) ->
  find (fun op => ("averageRating" =? fst op)%string) outs
  = Some ("averageRating", ["averageRating"]) ->
  Forall averaged
         (map (compute outs)
              (run_xpipeline s join_movieinfo
                 (group_by rated_movie [("averageRating", AccAvg rating_of)]
                           (flat_map (unwind "movies") (users s))))).
Proof.
  intros Hv Hfind. apply Forall_forall. intros c Hc.
  apply in_map_iff in Hc as (j & <- & Hj).
  apply joined_In in Hj as (g & Hg & Hsame).
  apply group_avg_field in Hg; [| now apply unwound_entries].
  destruct Hg as (a & Ha & Hab). exists a. split; [| exact Hab].
  apply compute_keeps; [exact Hfind | | reflexivity].
  rewrite Hsame; [exact Ha | reflexivity].
Qed.

Lemma averaged_fin_key (d : Doc) : averaged d -> fin_key ["averageRating"] d.
Proof. intros (a & Ha & _). exists a. now apply sort_key_field. Qed.

(** X8.  When every stored user holds valid ratings, a list sent by
    the route is made of documents whose [averageRating] is a finite
    number between 1 and 5, in non-increasing order of it. *)
Theorem movies_higher_ranking (n : string) (payload : Value) (s : Store)
        (entries : list Value) :
  Forall valid_user (users s) ->
  response_of (serve (movies_higher (id_request "num_movies" n payload)) s)
  = Ok (Reply 200 (VArr entries)) ->
  exists docs,
    entries = map VObj docs
    /\ Forall averaged docs
    /\ StronglySorted (key_geq ["averageRating"]) docs.
Proof.
  intros Hv. unfold serve, movies_higher, try_catch.
  destruct (negb _ || num_leb _ _); [discriminate |].
  rewrite bind_run, aggregate_x_run. cbn [db oplog coll].
  unfold higher_pipeline. rewrite !run_xpipeline_app.
  set (joined := run_xpipeline s join_movieinfo _).
  set (outs := [("_id", ["_id"]); ("averageRating", ["averageRating"]);
                ("title", ["movieinfo"; "title"]); ("genres", ["movieinfo"; "genres"]);
                ("year", ["movieinfo"; "year"])]).
  set (count := num_to_nat _).
  change (run_xpipeline s _ joined)
    with (firstn count (sort_by (desc_leb ["averageRating"]) (map (compute outs) joined))).
  assert (Hc : Forall averaged (map (compute outs) joined)).
  { subst joined. apply (higher_computed s outs Hv). reflexivity. }
  set (ranked := firstn count _).
  destruct (List.length (map VObj ranked) =? 0)%nat; [discriminate |].
  unfold send_then_status, response_of. cbn [fst]. intros H. injection H as <-.
  exists ranked. split; [reflexivity |]. subst ranked. split.
  - apply Forall_firstn. now apply sort_by_Forall.
  - apply StronglySorted_firstn. apply sort_desc_sorted.
    eapply Forall_impl; [| exact Hc]. apply averaged_fin_key.
Qed.

Lemma insert_by_perm {A} (le : A -> A -> bool) (x : A) (l : list A) :
  Permutation (insert_by le x l) (x :: l).
Proof.
  induction l as [| y l IH]; simpl; [reflexivity |].
  destruct (le x y); [reflexivity |].
  rewrite IH. apply perm_swap.
Qed.

(** The sort keeps the elements. *)
Lemma sort_by_perm {A} (le : A -> A -> bool) (l : list A) :
  Permutation (sort_by le l) l.
Proof.
  induction l as [| x l IH]; simpl; [reflexivity |].
  rewrite insert_by_perm. now constructor.
Qed.

(** Any order other than the two words is refused before any call
    to the store. *)
Lemma movies_ratings_rejects (order : string) (payload : Value) (s : Store) :
  order <> "asc" -> order <> "desc" ->
  serve (movies_ratings (id_request "order" order payload)) s
  = (Ok (Reply 400 (error_body
           "Parâmetro de ordenação inválido. Deve ser 'asc' ou 'desc'.")),
     s, []).
Proof.
  intros Ha Hd. unfold serve, movies_ratings, try_catch.
  change (param (id_request "order" order payload) "order") with order.
  apply String.eqb_neq in Ha, Hd. now rewrite Ha, Hd.
Qed.

Lemma movies_ratings_run (ascending : bool) (payload : Value) (s : Store) :
  serve (movies_ratings
           (id_request "order" (if ascending then "asc" else "desc") payload)) s
  = (Ok (Reply 200 (ranking_answer (run_xpipeline s (ratings_pipeline ascending)
                                                  (users s)))),
     s, [OpAggregate Users]).
Proof.
  unfold serve, movies_ratings, try_catch.
  destruct ascending;
    change (param (id_request "order" _ payload) "order") with "asc" ||
    change (param (id_request "order" _ payload) "order") with "desc";
    cbn [String.eqb Ascii.eqb Bool.eqb negb andb];
    rewrite bind_run, aggregate_x_run; cbn [db oplog coll];
    destruct (run_xpipeline s _ (users s)); reflexivity.
Qed.

Lemma group_sum_field (docs : list Doc) (g : Doc) :
  Forall entry_doc docs ->
  In g (group_by rated_movie [("totalRatings", AccSum rating_of)] docs) ->
  exists t, lookup "totalRatings" g = Some (VNum (Fin t)).
Proof.
  intros Hall Hg. apply group_by_In in Hg as (d & Hd & ->).
  cbn [map fst snd accumulate].
  set (members := filter _ docs).
  assert (Hm : Forall entry_doc members) by (subst members; now apply Forall_filter).
  destruct (entries_ratings members Hm) as (qs & -> & _).
  destruct (total_fin qs (inject_Z 0)) as (t & Ht & _).
  exists t. cbn [lookup].
  change ("totalRatings" =? "_id")%string with false.
  change ("totalRatings" =? "totalRatings")%string with true. cbv iota.
  unfold total, of_Z. now rewrite Ht.
Qed.

Lemma ratings_computed (s : Store) :
  Forall valid_user (users s) ->
  Forall (fin_key ["totalRatings"])
         (map (compute [("_id", ["_id"]); ("totalRatings", ["totalRatings"]);
                        ("title", ["movieinfo"; "title"])])
              (run_xpipeline s join_movieinfo
                 (group_by rated_movie [("totalRatings", AccSum rating_of)]
                           (flat_map (unwind "movies") (users s))))).
Proof.
  intros Hv. apply Forall_forall. intros c Hc.
  apply in_map_iff in Hc as (j & <- & Hj).
  apply joined_In in Hj as (g & Hg & Hsame).
  apply group_sum_field in Hg as (t & Ht); [| now apply unwound_entries].
  assert (Hj : lookup "totalRatings" j = Some (VNum (Fin t)))
    by (rewrite Hsame; [exact Ht | reflexivity]).
  exists t. apply sort_key_field.
  apply compute_keeps; [reflexivity | exact Hj | reflexivity].
Qed.

(** X9.  [GET /movies/ratings/:order]: both orders are answered
    with status 200 after one aggregation and with the store left as
    it was; the documents of the ascending answer are a permutation
    of those of the descending one; and when every stored user holds
    valid ratings the first are in non-decreasing, the second in
    non-increasing order of [totalRatings]. *)
Theorem movies_ratings_orders (payload : Value) (s : Store) :
  exists up down,
    serve (movies_ratings (id_request "order" "asc" payload)) s
    = (Ok (Reply 200 (ranking_answer up)), s, [OpAggregate Users])
    /\ serve (movies_ratings (id_request "order" "desc" payload)) s
       = (Ok (Reply 200 (ranking_answer down)), s, [OpAggregate Users])
    /\ Permutation up down
    /\ (Forall valid_user (users s) ->
        StronglySorted (fun a b => key_geq ["totalRatings"] b a) up
        /\ StronglySorted (key_geq ["totalRatings"]) down).
Proof.
  exists (run_xpipeline s (ratings_pipeline true) (users s)),
         (run_xpipeline s (ratings_pipeline false) (users s)).
  split; [exact (movies_ratings_run true payload s) |].
  split; [exact (movies_ratings_run false payload s) |].
  unfold ratings_pipeline. rewrite !run_xpipeline_app.
  set (joined := run_xpipeline s join_movieinfo _).
  set (outs := [("_id", ["_id"]); ("totalRatings", ["totalRatings"]);
                ("title", ["movieinfo"; "title"])]).
  change (run_xpipeline s [XCompute outs; XSort ["totalRatings"] true] joined)
    with (sort_by (asc_leb ["totalRatings"]) (map (compute outs) joined)).
  change (run_xpipeline s [XCompute outs; XSort ["totalRatings"] false] joined)
    with (sort_by (desc_leb ["totalRatings"]) (map (compute outs) joined)).
  split.
  - rewrite !sort_by_perm. reflexivity.
  - intros Hv. pose proof (ratings_computed s Hv) as Hc.
    split; [now apply sort_asc_sorted | now apply sort_desc_sorted].
Qed.

Lemma group_count_field (docs : list Doc) (g : Doc) :
  In g (group_by rated_movie [("Ratings5", AccCount rating_of (VNum (of_Z 5)))] docs) ->
  counted (List.length docs) g.
Proof.
  intros Hg. apply group_by_In in Hg as (d & Hd & ->).
  cbn [map fst snd accumulate]. eexists. split.
  - cbn [lookup]. change ("Ratings5" =? "_id")%string with false.
    change ("Ratings5" =? "Ratings5")%string with true. reflexivity.
  - etransitivity; apply filter_length_le.
Qed.

Lemma counted_fin_key (bound : nat) (d : Doc) : counted bound d -> fin_key ["Ratings5"] d.
Proof. intros (n & Hn & _). eexists. apply sort_key_field. exact Hn. Qed.

(** X10.  [GET /movies/star] on every request and store: status
    200 after one aggregation, with the store left as it was; every
    document carries a [Ratings5] count that is at most the number
    of rating entries stored, and the documents are in
    non-increasing order of it. *)
Theorem movies_star_ranking (req : Request) (s : Store) :
  exists docs,
    serve (movies_star req) s
    = (Ok (Reply 200 (ranking_answer docs)), s, [OpAggregate Users])
    /\ Forall (counted (List.length (flat_map (unwind "movies") (users s)))) docs
    /\ StronglySorted (key_geq ["Ratings5"]) docs.
Proof.
  exists (run_xpipeline s star_pipeline (users s)). split.
  { unfold serve, movies_star, try_catch.
    rewrite bind_run, aggregate_x_run. cbn [db oplog coll].
    destruct (run_xpipeline s star_pipeline (users s)); reflexivity. }
  unfold star_pipeline. rewrite !run_xpipeline_app.
  set (unwound := flat_map (unwind "movies") (users s)).
  change (run_xpipeline s [XBase (SUnwind "movies"); XGroup rated_movie _] (users s))
    with (group_by rated_movie [("Ratings5", AccCount rating_of (VNum (of_Z 5)))] unwound).
  set (joined := run_xpipeline s join_movieinfo _).
  set (outs := [("_id", ["_id"]); ("Ratings5", ["Ratings5"]);
                ("title", ["movieinfo"; "title"])]).
  change (run_xpipeline s _ joined)
    with (sort_by (desc_leb ["Ratings5"]) (map (compute outs) joined)).
  assert (Hc : Forall (counted (List.length unwound)) (map (compute outs) joined)).
  { apply Forall_forall. intros c Hc.
    apply in_map_iff in Hc as (j & <- & Hj).
    subst joined. apply joined_In in Hj as (g & Hg & Hsame).
    apply group_count_field in Hg as (n & Hn & Hle).
    exists n. split; [| exact Hle].
    apply compute_keeps; [reflexivity | | reflexivity].
    rewrite Hsame; [exact Hn | reflexivity]. }
  split.
  - now apply sort_by_Forall.
  - apply sort_desc_sorted. eapply Forall_impl; [| exact Hc].
    apply counted_fin_key.
Qed.

Lemma entries_values (l : list Doc) :
  Forall entry_doc l ->
  exists qs, map (at_path rating_of) l = map (fun q => VNum (Fin q)) qs
             /\ List.length qs = List.length l
             /\ Forall (fun q => inject_Z 1 <= q /\ q <= inject_Z 5)%Q qs.
Proof.
  induction 1 as [| d l Hd _ (qs & Hqs & Hlen & Hall)].
  - exists []. now repeat split.
  - destruct (entry_doc_rating d Hd) as (q & Hq & Hb).
    exists (q :: qs). cbn [map]. rewrite Hq, Hqs. simpl.
    repeat split; auto.
Qed.

Lemma numbers_fin (qs : list Q) : numbers (map (fun q => VNum (Fin q)) qs) = map Fin qs.
Proof. induction qs as [| q qs IH]; [reflexivity |]. simpl. now f_equal. Qed.

Lemma greatest_from (qs : list Q) :
  forall b, exists hi,
    fold_left (fun best v => if is_nullish v then best
                             else if is_nullish best then v
                             else if bson_leb best v then v else best)
              (map (fun q => VNum (Fin q)) qs) (VNum (Fin b)) = VNum (Fin hi)
    /\ (b <= hi)%Q /\ Forall (fun q => q <= hi)%Q qs
    /\ (forall u, b <= u -> Forall (fun q => q <= u) qs -> hi <= u)%Q.
Proof.
  induction qs as [| q qs IH]; intros b; cbn [map fold_left].
  - exists b. repeat split; [apply Qle_refl | constructor | auto].
  - cbn [is_nullish].
    change (bson_leb (VNum (Fin b)) (VNum (Fin q))) with (Qle_bool b q).
    destruct (Qle_bool b q) eqn:E.
    + apply Qle_bool_iff in E.
      destruct (IH q) as (hi & Hhi & Hq & Hall & Hleast).
      exists hi. split; [exact Hhi |]. repeat split.
      * now apply Qle_trans with q.
      * now constructor.
      * intros u Hu Hqs. inversion Hqs; subst. now apply Hleast.
    + assert (Hqb : (q <= b)%Q).
      { destruct (Qlt_le_dec b q) as [H | H]; [| exact H].
        apply Qlt_le_weak, Qle_bool_iff in H. congruence. }
      destruct (IH b) as (hi & Hhi & Hb & Hall & Hleast).
      exists hi. split; [exact Hhi |]. repeat split.
      * exact Hb.
      * constructor; [now apply Qle_trans with b | exact Hall].
      * intros u Hu Hqs. inversion Hqs; subst. now apply Hleast.
Qed.

Lemma least_from (qs : list Q) :
  forall b, exists lo,
    fold_left (fun best v => if is_nullish v then best
                             else if is_nullish best then v
                             else if bson_leb v best then v else best)
              (map (fun q => VNum (Fin q)) qs) (VNum (Fin b)) = VNum (Fin lo)
    /\ (lo <= b)%Q /\ Forall (fun q => lo <= q)%Q qs
    /\ (forall u, u <= b -> Forall (fun q => u <= q) qs -> u <= lo)%Q.
Proof.
  induction qs as [| q qs IH]; intros b; cbn [map fold_left].
  - exists b. repeat split; [apply Qle_refl | constructor | auto].
  - cbn [is_nullish].
    change (bson_leb (VNum (Fin q)) (VNum (Fin b))) with (Qle_bool q b).
    destruct (Qle_bool q b) eqn:E.
    + apply Qle_bool_iff in E.
      destruct (IH q) as (lo & Hlo & Hq & Hall & Hgreatest).
      exists lo. split; [exact Hlo |]. repeat split.
      * now apply Qle_trans with q.
      * now constructor.
      * intros u Hu Hqs. inversion Hqs; subst. now apply Hgreatest.
    + assert (Hbq : (b <= q)%Q).
      { destruct (Qlt_le_dec q b) as [H | H]; [| exact H].
        apply Qlt_le_weak, Qle_bool_iff in H. congruence. }
      destruct (IH b) as (lo & Hlo & Hb & Hall & Hgreatest).
      exists lo. split; [exact Hlo |]. repeat split.
      * exact Hb.
      * constructor; [now apply Qle_trans with b | exact Hall].
      * intros u Hu Hqs. inversion Hqs; subst. now apply Hgreatest.
Qed.

(** The group of one user with valid entries is summarised by three
    finite numbers in order. *)
Lemma group_stats_fields (docs : list Doc) (g : Doc) :
  Forall entry_doc docs ->
  Forall identified docs ->
  In g (group_by ["_id"] [("name", AccFirst ["name"]);
                          ("max_rating", AccMax rating_of);
                          ("min_rating", AccMin rating_of);
                          ("avg_rating", AccAvg rating_of)] docs) ->
  summarised g.
Proof.
  intros Hall Hid Hg. apply group_by_In in Hg as (d & Hd & ->).
  cbn [map fst snd accumulate].
  set (members := filter _ docs).
  assert (Hm : Forall entry_doc members) by (subst members; now apply Forall_filter).
  assert (Hin : In d members).
  { subst members. apply filter_In. split; [exact Hd |].
    unfold sort_key. cbn [get_path get].
    destruct (proj1 (Forall_forall _ _) Hid d Hd) as [[q ->] | [h ->]].
    - apply same_key_fin.
    - cbn. apply String.eqb_refl. }
  destruct (entries_values members Hm) as (qs & -> & Hlen & Hb).
  rewrite numbers_fin.
  destruct qs as [| q qs]; [destruct members; [contradiction | discriminate] |].
  inversion Hb as [| ? ? [Hq1 Hq5] Hrest]; subst.
  destruct (greatest_from qs q) as (hi & Hhi & Hqhi & Hallhi & Hhi5).
  destruct (least_from qs q) as (lo & Hlo & Hloq & Halllo & Hlo1).
  destruct (mean_bounds lo hi (q :: qs)) as (a & Ha & Hloa & Hahi).
  { discriminate. }
  { constructor; [now split |].
    apply Forall_forall. intros x Hx. split.
    - exact (proj1 (Forall_forall _ _) Halllo x Hx).
    - exact (proj1 (Forall_forall _ _) Hallhi x Hx). }
  exists lo, a, hi. cbn [lookup].
  change ("min_rating" =? "_id")%string with false.
  change ("min_rating" =? "name")%string with false.
  change ("min_rating" =? "max_rating")%string with false.
  change ("min_rating" =? "min_rating")%string with true.
  change ("avg_rating" =? "_id")%string with false.
  change ("avg_rating" =? "name")%string with false.
  change ("avg_rating" =? "max_rating")%string with false.
  change ("avg_rating" =? "min_rating")%string with false.
  change ("avg_rating" =? "avg_rating")%string with true.
  change ("max_rating" =? "_id")%string with false.
  change ("max_rating" =? "name")%string with false.
  change ("max_rating" =? "max_rating")%string with true.
  cbv iota.
  rewrite Ha. unfold greatest, least. cbn [map fold_left is_nullish].
  rewrite Hhi, Hlo.
  repeat split; auto.
  - apply Hlo1; [exact Hq1 |].
    eapply Forall_impl; [| exact Hrest]. now intros x [H _].
  - apply Hhi5; [exact Hq5 |].
    eapply Forall_impl; [| exact Hrest]. now intros x [_ H].
Qed.

Lemma unwound_identified (docs : list Doc) :
  Forall identified docs -> Forall identified (flat_map (unwind "movies") docs).
Proof.
  induction 1 as [| d docs Hd _ IH]; simpl; [constructor |].
  apply Forall_app. split; [| exact IH].
  unfold unwind. destruct (lookup "movies" d) as [[]|]; try constructor; auto.
  apply Forall_forall. intros x Hx. apply in_map_iff in Hx as (m & <- & _).
  unfold identified. rewrite lookup_set_field_other by reflexivity. exact Hd.
Qed.

Lemma summarised_fin_key (d : Doc) : summarised d -> fin_key ["avg_rating"] d.
Proof. intros (lo & a & hi & _ & Ha & _). exists a. now apply sort_key_field. Qed.

Lemma summarised_within (d : Doc) : summarised d -> rated_within d.
Proof.
  intros (lo & a & hi & Hlo & Ha & Hhi & H1 & Hla & Hah & H5).
  exists lo, a, hi. repeat split; auto.
  - now apply Qle_trans with a.
  - now apply Qle_trans with lo.
  - now apply Qle_trans with hi.
Qed.

(** X11.  [GET /users/stats] on every request and store: status
    200 with a list, after one aggregation and with the store left
    as it was.  When every stored user holds valid ratings and an
    identifier as the resolver makes them, every entry has
    1 <= [min_rating] <= [max_rating] <= 5 and [avg_rating] between
    1 and 5, and the entries are in non-decreasing order of
    [avg_rating]; these hold of the mean as the store rounds it.
    When the ratings are whole numbers, [avg_rating] lies between
    [min_rating] and [max_rating] as well. *)
Theorem users_stats_summary (req : Request) (s : Store) :
  exists docs,
    serve (users_stats req) s
    = (Ok (Reply 200 (VArr (map VObj docs))), s, [OpAggregate Users])
    /\ (Forall valid_user (users s) -> Forall identified (users s) ->
        Forall rated_within docs
        /\ StronglySorted (fun a b => key_geq ["avg_rating"] b a) docs
        /\ (Forall whole_ratings (users s) -> Forall summarised docs)).
Proof.
  exists (run_xpipeline s stats_pipeline (users s)). split; [reflexivity |].
  intros Hv Hid.
  change (run_xpipeline s stats_pipeline (users s))
    with (sort_by (asc_leb ["avg_rating"])
            (group_by ["_id"] [("name", AccFirst ["name"]);
                               ("max_rating", AccMax rating_of);
                               ("min_rating", AccMin rating_of);
                               ("avg_rating", AccAvg rating_of)]
                      (flat_map (unwind "movies") (users s)))).
  set (groups := group_by _ _ _).
  assert (Hg : Forall summarised groups).
  { apply Forall_forall. intros g Hg. subst groups.
    eapply group_stats_fields; [| | exact Hg].
    - now apply unwound_entries.
    - now apply unwound_identified. }
  assert (Hs : Forall summarised (sort_by (asc_leb ["avg_rating"]) groups))
    by now apply sort_by_Forall.
  split; [| split].
  - eapply Forall_impl; [| exact Hs]. apply summarised_within.
  - apply sort_asc_sorted. eapply Forall_impl; [| exact Hg].
    apply summarised_fin_key.
  - intros _. exact Hs.
Qed.

(* ================================================================= *)
(** ** Movies showing at a cinema *)

Lemma showing_loop (ids : list Value) :
  forall (acc : list Value) (w : World),
    for_each (fun results movieId =>
                bind (findOne Movies movieId) (fun filme => ret (push results filme)))
             acc ids w
    = (Ok (acc ++ map (movie_or_null (db w)) ids)%list,
       mkWorld (db w) (oplog w ++ map (OpFindOne Movies) ids)).
Proof.
  induction ids as [| id ids IH]; intros acc w; cbn [for_each map].
  - rewrite !app_nil_r. now destruct w.
  - rewrite bind_run, bind_run.
    cbv beta iota delta [findOne bind record read_coll ret]. cbn [db oplog coll].
    rewrite IH. cbn [db oplog]. unfold push, movie_or_null.
    now rewrite <- !app_assoc.
Qed.

(** X12.  [GET /cinemas/movies/:id_cinema] on an existing cinema:
    without a [movies] field, or with an empty one, the answer is
    404 after the lookup of the cinema alone; with a non-empty array
    of numbers and [ObjectId]s, which the store matches by equality,
    the answer is 200 with one element per identifier, in order, the
    stored movie or [null] where there is none, after one lookup per
    identifier; the store is left as it was. *)
Theorem cinemas_movies_showing (id : string) (payload : Value) (cinema : Doc)
        (s : Store) :
  objectId_isValid id = true ->
  find (has_id (VOid (lowercase id))) (cinemas s) = Some cinema ->
  has_key "hasOwnProperty" cinema = false ->
  (lookup "movies" cinema = None \/ lookup "movies" cinema = Some (VArr []) ->
   serve (cinemas_movies (id_request "id_cinema" id payload)) s
   = (Ok (Reply 404 (error_body "Não existem filmes em exibição neste cinema")),
      s, [OpFindOne Cinemas (VOid (lowercase id))]))
  /\ (forall ids,
        lookup "movies" cinema = Some (VArr ids) -> ids <> [] ->
        Forall plain_id ids ->
        serve (cinemas_movies (id_request "id_cinema" id payload)) s
        = (Ok (Reply 200 (VArr (map (movie_or_null s) ids))),
           s, OpFindOne Cinemas (VOid (lowercase id)) :: map (OpFindOne Movies) ids)).
Proof.
  intros Hid Hfind Hown. split.
  - intros Hm. unfold serve, cinemas_movies, try_catch, new_ObjectId.
    change (param (id_request "id_cinema" id payload) "id_cinema") with id.
    rewrite Hid.
    cbv beta iota delta [findOne bind record read_coll ret]. cbn [db oplog coll].
    rewrite Hfind. cbn [truthy negb get]. unfold hasOwnProperty. rewrite Hown.
    unfold has_key. destruct Hm as [-> | ->]; reflexivity.
  - intros ids Hm Hne _. unfold serve, cinemas_movies, try_catch, new_ObjectId.
    change (param (id_request "id_cinema" id payload) "id_cinema") with id.
    rewrite Hid. rewrite !bind_run.
    cbv beta iota delta [findOne bind record read_coll ret]. cbn [db oplog coll].
    rewrite Hfind. cbn [truthy negb get]. unfold hasOwnProperty. rewrite Hown.
    unfold has_key. rewrite Hm.
    destruct ids as [| i ids]; [congruence |].
    cbn [length_of negb orb iterate].
    cbv beta iota delta [ret].
    assert (Hlen : value_eqb (VNum (of_nat (List.length (i :: ids)))) (VNum (of_Z 0))
                   = false).
    { cbn [value_eqb]. unfold of_nat. rewrite num_eqb_of_Z.
      apply Z.eqb_neq. cbn [List.length]. lia. }
    rewrite Hlen.
    pose proof (showing_loop (i :: ids) []
                  (mkWorld s [OpFindOne Cinemas (VOid (lowercase id))])) as Hloop.
    cbv beta iota delta [findOne bind record read_coll ret] in Hloop.
    cbn [db oplog coll] in Hloop.
    cbn [app negb orb]. cbv beta iota. rewrite Hloop. reflexivity.
Qed.

(* ================================================================= *)
(** ** Pages of the list routes *)

Lemma num_mul_of_Z (a b : Z) : num_mul (of_Z a) (of_Z b) = of_Z (a * b).
Proof.
  unfold num_mul, of_Z. f_equal.
  rewrite <- (Qred_inject_Z (a * b)). apply Qred_complete.
  now rewrite inject_Z_mult.
Qed.

Lemma num_to_nat_of_Z (z : Z) : num_to_nat (of_Z z) = Z.to_nat z.
Proof. unfold num_to_nat, of_Z. now rewrite Qfloor_Z. Qed.

Lemma num_is_zero_of_Z (z : Z) : num_is_zero (of_Z z) = (z =? 0).
Proof. unfold num_is_zero, of_Z, Qeq_bool. simpl. now rewrite Z.mul_1_r. Qed.

Lemma sort_by_length {A} (le : A -> A -> bool) (l : list A) :
  List.length (sort_by le l) = List.length l.
Proof. apply Permutation_length, sort_by_perm. Qed.

(** With a limit of at least 1, a page within the page count starts
    before the end of the collection. *)
Lemma page_starts_inside (n l : Z) (t : nat) :
  1 <= l ->
  num_leb (of_Z n) (num_ceil (num_div (of_nat t) (of_Z l))) = true ->
  (n - 1) * l < Z.of_nat t.
Proof.
  intros Hl H. unfold num_div, of_nat, of_Z in H.
  assert (Hpos : (0 < inject_Z l)%Q).
  { change 0%Q with (inject_Z 0). rewrite <- Zlt_Qlt. lia. }
  replace (Qeq_bool (inject_Z l) 0) with false in H.
  2:{ symmetry. apply not_true_is_false. intros E. apply Qeq_bool_iff in E.
      rewrite E in Hpos. now apply Qlt_irrefl in Hpos. }
  cbn [num_ceil] in H. fold (of_Z n) in H.
  fold (of_Z (Qceiling (Qred (inject_Z (Z.of_nat t) / inject_Z l)))) in H.
  rewrite num_leb_of_Z in H. apply Z.leb_le in H.
  set (x := (inject_Z (Z.of_nat t) / inject_Z l)%Q) in *.
  assert (Hx : (inject_Z (n - 1) < x)%Q).
  { apply Qle_lt_trans with (inject_Z (Qceiling (Qred x) - 1)).
    - rewrite <- Zle_Qle. lia.
    - rewrite <- (Qred_correct x) at 2. apply Qceiling_lt. }
  assert (Hm : (inject_Z (n - 1) * inject_Z l < inject_Z (Z.of_nat t))%Q).
  { apply Qlt_le_trans with (x * inject_Z l)%Q.
    - apply Qmult_lt_compat_r; assumption.
    - subst x. rewrite Qmult_comm, Qmult_div_r; [apply Qle_refl |].
      intros E. rewrite E in Hpos. now apply Qlt_irrefl in Hpos. }
  rewrite <- inject_Z_mult, <- Zlt_Qlt in Hm. exact Hm.
Qed.

Lemma paginate_page (c : Coll) (key location : string)
      (on_error : string -> string) (page limit : string) (s : Store) :
  digits_only page = true ->
  digits_only limit = true ->
  1 <= parse_digits 0 page ->
  1 <= parse_digits 0 limit ->
  num_leb (of_Z (parse_digits 0 page)) (total_pages c limit s) = true ->
  serve (paginate c key location on_error (list_request page limit)) s
  = (Ok (Reply 200
           (VObj (envelope key
                    (map VObj (page_slice (parse_digits 0 page) (parse_digits 0 limit)
                                          (coll c s)))
                    (of_nat (List.length (coll c s)))
                    (total_pages c limit s) (of_Z (parse_digits 0 page))))),
     s, [OpCount c; OpFind c]).
Proof.
  intros Hp Hl H1 Hl1 Hle.
  assert (Ap : assoc "page" (query (list_request page limit)) = Some page)
    by reflexivity.
  assert (Al : assoc "limit" (query (list_request page limit)) = Some limit)
    by reflexivity.
  unfold serve, paginate, qparam. rewrite Ap, Al.
  rewrite (digits_only_present page Hp), (digits_only_present limit Hl).
  rewrite Hp, Hl. cbn [negb orb].
  pose proof Hle as Hle'. unfold total_pages in Hle'.
  rewrite (parseInt_digits limit Hl) in Hle'.
  rewrite (parseInt_digits page Hp).
  cbv beta iota zeta delta [try_catch bind countDocuments record read_coll ret db oplog].
  fold (total_pages c limit s).
  rewrite num_ltb_of_Z, (num_leb_not_gt _ _ Hle).
  replace (parse_digits 0 page <? 1) with false by (symmetry; apply Z.ltb_ge; lia).
  cbn [orb].
  cbv beta iota zeta delta [find_page bind record read_coll ret db oplog].
  rewrite (parseInt_digits limit Hl).
  rewrite num_sub_of_Z, num_mul_of_Z, num_to_nat_of_Z, num_to_nat_of_Z, num_is_zero_of_Z.
  replace (parse_digits 0 limit =? 0) with false by (symmetry; apply Z.eqb_neq; lia).
  reflexivity.
Qed.

Lemma page_slice_length (n l : Z) (docs : list Doc) :
  1 <= n -> 1 <= l ->
  Z.of_nat (List.length (page_slice n l docs))
  = Z.max 0 (Z.min l (Z.of_nat (List.length docs) - (n - 1) * l)).
Proof.
  intros Hn Hl. unfold page_slice.
  rewrite length_firstn, length_skipn, sort_by_length. nia.
Qed.

Lemma envelope_field (k key : string) (results : list Value)
      (totalDocs totalPages currentPage : Num) :
  k <> "prevPage" -> k <> "nextPage" ->
  lookup k (envelope key results totalDocs totalPages currentPage)
  = lookup k [(key, VArr results);
              ("totalDocs", VNum totalDocs);
              ("currentPageDocs", VNum (of_nat (List.length results)));
              ("totalPages", VNum totalPages);
              ("currentPage", VNum currentPage)].
Proof.
  intros Hp Hn. unfold envelope.
  rewrite lookup_cond_other by (now apply String.eqb_neq).
  rewrite lookup_cond_other by (now apply String.eqb_neq).
  reflexivity.
Qed.

(** The order of strings is transitive. *)
Lemma string_leb_trans (a b c : string) :
  String.leb a b = true -> String.leb b c = true -> String.leb a c = true.
Proof.
  unfold String.leb. revert b c.
  induction a as [| x a IH]; intros [| y b] [| z c]; cbn [String.compare];
    try reflexivity; try discriminate.
  unfold Ascii.compare.
  destruct (N.compare_spec (Ascii.N_of_ascii x) (Ascii.N_of_ascii y)) as [Exy | Exy | Exy];
    destruct (N.compare_spec (Ascii.N_of_ascii y) (Ascii.N_of_ascii z)) as [Eyz | Eyz | Eyz];
    try discriminate.
  - rewrite Exy, Eyz, N.compare_refl. apply IH.
  - intros _ _. rewrite Exy. now rewrite (proj2 (N.compare_lt_iff _ _) Eyz).
  - intros _ _. rewrite <- Eyz. now rewrite (proj2 (N.compare_lt_iff _ _) Exy).
  - intros _ _.
    now rewrite (proj2 (N.compare_lt_iff _ _) (N.lt_trans _ _ _ Exy Eyz)).
Qed.

(** On documents with a number or an [ObjectId] as identifier the
    comparison of the sort is the order of the identifiers. *)
Lemma by_id_leb_identified (a b : Doc) :
  identified a -> identified b ->
  (by_id_leb a b = true <-> id_before a b).
Proof.
  unfold by_id_leb, sort_key, id_before. cbn [get_path get].
  intros [[x Ha] | [g Ha]] [[y Hb] | [h Hb]]; rewrite Ha, Hb; cbn; split.
  - intros H. left. exists x, y. repeat split. now apply Qle_bool_iff.
  - intros [(x' & y' & Ex & Ey & H) | [(x' & h' & _ & E) | (g' & h' & E & _)]];
      try discriminate.
    injection Ex as <-. injection Ey as <-. now apply Qle_bool_iff.
  - intros _. right. left. now exists x, h.
  - reflexivity.
  - discriminate.
  - intros [(x' & y' & E & _) | [(x' & h' & E & _) | (g' & h' & _ & E & _)]];
      discriminate.
  - intros H. right. right. now exists g, h.
  - intros [(x' & y' & E & _) | [(x' & h' & E & _) | (g' & h' & Eg & Eh & H)]];
      try discriminate.
    injection Eg as <-. injection Eh as <-. exact H.
Qed.

Lemma id_before_total (a b : Doc) :
  identified a -> identified b -> by_id_leb a b = true \/ by_id_leb b a = true.
Proof.
  intros Ha Hb.
  rewrite (by_id_leb_identified a b Ha Hb), (by_id_leb_identified b a Hb Ha).
  unfold id_before.
  destruct Ha as [[x Ha] | [g Ha]], Hb as [[y Hb] | [h Hb]].
  - destruct (Qlt_le_dec x y) as [H | H].
    + left. left. exists x, y. repeat split; auto. now apply Qlt_le_weak.
    + right. left. exists y, x. now repeat split.
  - left. right. left. now exists x, h.
  - right. right. left. now exists y, g.
  - destruct (String.leb_total g h) as [H | H].
    + left. right. right. now exists g, h.
    + right. right. right. now exists h, g.
Qed.

Lemma id_before_trans (a b c : Doc) :
  identified a -> identified b -> identified c ->
  by_id_leb a b = true -> by_id_leb b c = true -> by_id_leb a c = true.
Proof.
  intros Ha Hb Hc.
  rewrite (by_id_leb_identified a b Ha Hb), (by_id_leb_identified b c Hb Hc),
    (by_id_leb_identified a c Ha Hc).
  unfold id_before.
  intros [(x & y & Ex & Ey & Hxy) | [(x & h & Ex & Eh) | (g & h & Eg & Eh & Hgh)]]
         [(y' & z & Ey' & Ez & Hyz) | [(y' & k & Ey' & Ek) | (h' & k & Eh' & Ek & Hhk)]];
    try congruence.
  - left. exists x, z. repeat split; auto.
    rewrite Ey in Ey'. injection Ey' as <-. now apply Qle_trans with y.
  - right. left. now exists x, k.
  - right. left. now exists x, k.
  - right. right. exists g, k. repeat split; auto.
    rewrite Eh in Eh'. injection Eh' as <-. now apply string_leb_trans with h.
Qed.

(** Sorting identified documents gives the same documents in
    ascending order of identifier. *)
Lemma sort_by_id (docs : list Doc) :
  Forall identified docs ->
  Permutation (sort_by by_id_leb docs) docs
  /\ StronglySorted id_before (sort_by by_id_leb docs).
Proof.
  intros Hid. split; [apply sort_by_perm |].
  apply (StronglySorted_on Doc identified (fun a b => by_id_leb a b = true)).
  - intros a b Ha Hb. now apply by_id_leb_identified.
  - now apply sort_by_Forall.
  - exact (sort_by_sorted Doc by_id_leb identified id_before_total id_before_trans
                          docs Hid).
Qed.

(** X13.  A page within the page count, asked with a limit of at least
    1 on a collection whose identifiers are numbers or [ObjectId]s
    (limit and size within the safe integers), is answered with
    status 200 after one count and one find.  Its items are the
    documents at positions (page-1)*limit .. page*limit-1 of a list
    that holds the documents of the collection in ascending order of
    identifier; there are min(limit, totalDocs - (page-1)*limit) of
    them, at least one, and [currentPageDocs] and [totalDocs] report
    the two counts. *)
Theorem list_page_contents (r : Resource) (page limit : string) (s : Store) :
  digits_only page = true ->
  digits_only limit = true ->
  1 <= parse_digits 0 page ->
  1 <= parse_digits 0 limit <= max_safe_integer ->
  Forall identified (coll (collection r) s) ->
  Z.of_nat (List.length (coll (collection r) s)) <= max_safe_integer ->
  num_leb (of_Z (parse_digits 0 page)) (total_pages (collection r) limit s) = true ->
  let n := parse_digits 0 page in
  let l := parse_digits 0 limit in
  let total := Z.of_nat (List.length (coll (collection r) s)) in
  exists fields sorted docs,
    serve (list_route r (list_request page limit)) s
    = (Ok (Reply 200 (VObj fields)), s,
       [OpCount (collection r); OpFind (collection r)])
    /\ Permutation sorted (coll (collection r) s)
    /\ StronglySorted id_before sorted
    /\ docs = firstn (Z.to_nat l) (skipn (Z.to_nat ((n - 1) * l)) sorted)
    /\ lookup (items_key r) fields = Some (VArr (map VObj docs))
    /\ lookup "currentPageDocs" fields = Some (VNum (of_nat (List.length docs)))
    /\ lookup "totalDocs" fields = Some (VNum (of_Z total))
    /\ Z.of_nat (List.length docs) = Z.min l (total - (n - 1) * l)
    /\ (1 <= List.length docs)%nat.
Proof.
  intros Hp Hl Hn [Hl1 _] Hid _ Hle n l total.
  pose proof Hle as Hin. unfold total_pages in Hin.
  rewrite (parseInt_digits limit Hl) in Hin.
  apply (page_starts_inside _ _ _ Hl1) in Hin.
  pose proof (page_slice_length _ _ (coll (collection r) s) Hn Hl1) as Hlen.
  fold n l total in Hlen, Hin.
  destruct (sort_by_id _ Hid) as [Hperm Hsorted].
  destruct r; cbn [collection] in *;
    match type of Hperm with
    | Permutation ?sorted ?all =>
        eexists; exists sorted, (page_slice n l all)
    end;
    (split;
     [ apply (paginate_page _ _ _ _ page limit s Hp Hl Hn Hl1 Hle)
     | split; [exact Hperm |]; split; [exact Hsorted |]; split; [reflexivity |];
       split; [| split; [| split; [| split]]] ]);
    try (rewrite envelope_field by discriminate);
    try reflexivity; try lia;
    cbn [lookup]; rewrite ?length_map; reflexivity.
Qed.

Lemma list_page_contents_witness :
  exists fields sorted,
    serve (list_route RMovies (list_request "2" "1")) Sample.store
    = (Ok (Reply 200 (VObj fields)), Sample.store, [OpCount Movies; OpFind Movies])
    /\ Permutation sorted (movies Sample.store)
    /\ StronglySorted id_before sorted
    /\ lookup "filmes" fields = Some (VArr (map VObj (firstn 1 (skipn 1 sorted)))).
Proof.
  assert (Hid : Forall identified (coll (collection RMovies) Sample.store)).
  { apply Forall_cons; [| apply Forall_cons; [| apply Forall_nil]];
      left; eexists; reflexivity. }
  assert (Hl : 1 <= parse_digits 0 "1" <= max_safe_integer)
    by (split; vm_compute; discriminate).
  assert (Hn : 1 <= parse_digits 0 "2") by (vm_compute; discriminate).
  assert (Hsize : Z.of_nat (List.length (coll (collection RMovies) Sample.store))
                  <= max_safe_integer) by (vm_compute; discriminate).
  destruct (list_page_contents RMovies "2" "1" Sample.store
                               eq_refl eq_refl Hn Hl Hid Hsize eq_refl)
    as (fields & sorted & docs & Hrun & Hperm & Hsorted & Hdocs & Hitems & _).
  exists fields, sorted. subst docs. repeat split; assumption.
Defined.

(** X14.  An empty collection has no page: with a limit of at least 1
    every page number is answered 404 after the count alone. *)
Theorem list_empty_collection (r : Resource) (page limit : string) (s : Store) :
  digits_only page = true ->
  digits_only limit = true ->
  1 <= parse_digits 0 limit ->
  coll (collection r) s = [] ->
  serve (list_route r (list_request page limit)) s
  = (Ok (Reply 404 (error_body "Página não existe")), s, [OpCount (collection r)]).
Proof.
  intros Hp Hl Hl1 Hempty.
  assert (Ap : assoc "page" (query (list_request page limit)) = Some page)
    by reflexivity.
  assert (Al : assoc "limit" (query (list_request page limit)) = Some limit)
    by reflexivity.
  assert (Hrun : forall key location on_error,
             serve (paginate (collection r) key location on_error
                             (list_request page limit)) s
             = (Ok (Reply 404 (error_body "Página não existe")), s,
                [OpCount (collection r)])).
  { intros key location on_error.
    unfold serve, paginate, qparam. rewrite Ap, Al.
    rewrite (digits_only_present page Hp), (digits_only_present limit Hl).
    rewrite Hp, Hl. cbn [negb orb].
    rewrite (parseInt_digits limit Hl), (parseInt_digits page Hp).
    cbv beta iota zeta delta [try_catch bind countDocuments record read_coll ret db oplog].
    rewrite Hempty. cbn [List.length].
    assert (Hz : num_ceil (num_div (of_nat 0) (of_Z (parse_digits 0 limit))) = of_Z 0).
    { unfold num_div, of_nat, of_Z.
      replace (Qeq_bool (inject_Z (parse_digits 0 limit)) 0) with false.
      2:{ symmetry. apply not_true_is_false. intros E. apply Qeq_bool_iff in E.
          unfold Qeq in E. simpl in E. lia. }
      cbn [num_ceil].
      assert (E : Qred (inject_Z (Z.of_nat 0) / inject_Z (parse_digits 0 limit)) = inject_Z 0).
      { rewrite <- (Qred_inject_Z 0). apply Qred_complete.
        change (inject_Z (Z.of_nat 0)) with 0%Q. unfold Qdiv. apply Qmult_0_l. }
      rewrite E, Qceiling_Z. reflexivity. }
    rewrite Hz, !num_ltb_of_Z.
    destruct (parse_digits 0 page <? 1) eqn:E1; [reflexivity |].
    apply Z.ltb_ge in E1.
    replace (0 <? parse_digits 0 page) with true by (symmetry; apply Z.ltb_lt; lia).
    reflexivity. }
  destruct r; apply Hrun.
Qed.

Lemma list_empty_collection_witness :
  serve (list_route RCinemas (list_request "1" "10")) Sample.empty
  = (Ok (Reply 404 (error_body "Página não existe")), Sample.empty, [OpCount Cinemas]).
Proof.
  apply (list_empty_collection RCinemas "1" "10" Sample.empty); try reflexivity.
  vm_compute. discriminate.
Defined.

(* ================================================================= *)
(** ** Deleting a user or a movie *)

Section RemoveFirst.

Variable p : Doc -> bool.

Lemma remove_first_perm (docs : list Doc) (d : Doc) :
  find p docs = Some d -> Permutation docs (d :: remove_first p docs).
Proof.
  induction docs as [| a docs IH]; cbn [find remove_first]; [discriminate |].
  destruct (p a); intros H.
  - injection H as <-. apply Permutation_refl.
  - apply Permutation_trans with (a :: d :: remove_first p docs).
    + apply perm_skip, IH, H.
    + apply perm_swap.
Qed.

Lemma find_none_filter (docs : list Doc) : filter p docs = [] -> find p docs = None.
Proof.
  induction docs as [| a docs IH]; cbn [find filter]; [reflexivity |].
  destruct (p a); [discriminate | exact IH].
Qed.

Lemma remove_first_only (docs : list Doc) (d : Doc) :
  filter p docs = [d] -> find p (remove_first p docs) = None.
Proof.
  induction docs as [| a docs IH]; cbn [filter remove_first]; [discriminate |].
  destruct (p a) eqn:E; intros H.
  - injection H as _ H. now apply find_none_filter.
  - cbn [find]. rewrite E. now apply IH.
Qed.

Lemma existsb_find (docs : list Doc) (d : Doc) :
  find p docs = Some d -> existsb p docs = true.
Proof.
  induction docs as [| a docs IH]; cbn [find existsb]; [discriminate |].
  destruct (p a); [reflexivity | exact IH].
Qed.

End RemoveFirst.

(** X15.  [DELETE /users/id/:user_id] with an identifier the resolver
    accepts (a digit string within the safe integers, or an
    [ObjectId]): when no user has it the answer is 404 and nothing is
    written; otherwise the answer is 200 with [deletedCount] 1, the
    first user with that identifier is the one document removed, the
    movies and cinemas stay as they are, and when no other user
    shared the identifier a following read of it is answered 404. *)
Theorem users_delete_outcome (id : string) (payload : Value) (s : Store) :
  safe_id id ->
  is_null (checkId id) = false ->
  let uid := checkId id in
  let req := id_request "user_id" id payload in
  let out := serve (users_delete req) s in
  match find (has_id uid) (users s) with
  | None =>
      out = (Ok (Reply 404 (error_body "User não existe")), s, [OpFindOne Users uid])
  | Some d =>
      response_of out
      = Ok (Reply 200 (VObj [("message", VStr "User apagado com sucesso");
                             ("result", VObj [("acknowledged", VBool true);
                                              ("deletedCount", VNum (of_Z 1))])]))
      /\ calls_of out = [OpFindOne Users uid; OpDeleteOne Users uid]
      /\ Permutation (users s) (d :: users (store_of out))
      /\ movies (store_of out) = movies s
      /\ cinemas (store_of out) = cinemas s
      /\ (filter (has_id uid) (users s) = [d] ->
          serve (users_get req) (store_of out)
          = (Ok (Reply 404 (error_body "User não encontrado")), store_of out,
             [OpFindOne Users uid]))
  end.
Proof.
  intros _ Hid uid req out. subst out req.
  unfold users_delete, users_get.
  change (param (id_request "user_id" id payload) "user_id") with id.
  change (checkId id) with uid.
  assert (Hid' : is_null uid = false) by exact Hid.
  rewrite Hid'. run_monad. cbn [coll app].
  destruct (find (has_id uid) (users s)) as [d |] eqn:Hfind.
  - cbn [truthy negb]. run_monad. cbn [coll set_coll users movies cinemas app].
    rewrite (existsb_find _ _ _ Hfind).
    repeat split.
    + now apply remove_first_perm.
    + intros Honly. rewrite (remove_first_only _ _ _ Honly). reflexivity.
  - reflexivity.
Qed.

Lemma users_delete_outcome_witness :
  exists out,
    out = serve (users_delete (id_request "user_id" "1" VUndef)) Sample.store
    /\ calls_of out = [OpFindOne Users (checkId "1"); OpDeleteOne Users (checkId "1")]
    /\ movies (store_of out) = movies Sample.store.
Proof.
  eexists. split; [reflexivity |].
  assert (Hsafe : safe_id "1") by (intros _; vm_compute; discriminate).
  pose proof (users_delete_outcome "1" VUndef Sample.store Hsafe eq_refl) as H.
  cbv zeta in H.
  change (find (has_id (checkId "1")) (users Sample.store)) with (Some Sample.ana) in H.
  destruct H as [_ [Hc [_ [Hm _]]]]. split; [exact Hc | exact Hm].
Defined.

(** X16.  [DELETE /movies/id/:movie_id] with an identifier the resolver
    accepts (a digit string within the safe integers, or an
    [ObjectId]): when no movie has it the answer is 404 and nothing is
    written; otherwise the answer is 200 with [deletedCount] 1, the
    first movie with that identifier is the one document removed, the
    users (and the ratings they hold of the movie) and the cinemas
    stay as they are, and when no other movie shared the identifier a
    following read of it is answered 404. *)
Theorem movies_delete_outcome (id : string) (payload : Value) (s : Store) :
  safe_id id ->
  is_null (checkId id) = false ->
  let mid := checkId id in
  let req := id_request "movie_id" id payload in
  let out := serve (movies_delete req) s in
  match find (has_id mid) (movies s) with
  | None =>
      out = (Ok (Reply 404 (error_body "Filme não existe")), s, [OpFindOne Movies mid])
  | Some d =>
      response_of out
      = Ok (Reply 200 (VObj [("message", VStr "Filme apagado com sucesso");
                             ("result", VObj [("acknowledged", VBool true);
                                              ("deletedCount", VNum (of_Z 1))])]))
      /\ calls_of out = [OpFindOne Movies mid; OpDeleteOne Movies mid]
      /\ Permutation (movies s) (d :: movies (store_of out))
      /\ users (store_of out) = users s
      /\ cinemas (store_of out) = cinemas s
      /\ (filter (has_id mid) (movies s) = [d] ->
          serve (movies_get req) (store_of out)
          = (Ok (Reply 404 (error_body "Filme não encontrado")), store_of out,
             [OpFindOne Movies mid]))
  end.
Proof.
  intros _ Hid mid req out. subst out req.
  unfold movies_delete, movies_get.
  change (param (id_request "movie_id" id payload) "movie_id") with id.
  change (checkId id) with mid.
  assert (Hid' : is_null mid = false) by exact Hid.
  rewrite Hid'. run_monad. cbn [coll app].
  destruct (find (has_id mid) (movies s)) as [d |] eqn:Hfind.
  - cbn [truthy negb]. run_monad. cbn [coll set_coll users movies cinemas app].
    rewrite (existsb_find _ _ _ Hfind).
    repeat split.
    + now apply remove_first_perm.
    + intros Honly. rewrite (remove_first_only _ _ _ Honly). reflexivity.
  - reflexivity.
Qed.

Lemma movies_delete_outcome_witness :
  exists out,
    out = serve (movies_delete (id_request "movie_id" "6" VUndef)) Sample.store
    /\ calls_of out = [OpFindOne Movies (checkId "6"); OpDeleteOne Movies (checkId "6")]
    /\ users (store_of out) = users Sample.store.
Proof.
  eexists. split; [reflexivity |].
  assert (Hsafe : safe_id "6") by (intros _; vm_compute; discriminate).
  pose proof (movies_delete_outcome "6" VUndef Sample.store Hsafe eq_refl) as H.
  cbv zeta in H.
  change (find (has_id (checkId "6")) (movies Sample.store)) with (Some Sample.heat) in H.
  destruct H as [_ [Hc [_ [Hu _]]]]. split; [exact Hc | exact Hu].
Defined.

(* ================================================================= *)
(** ** Attaching movies to a cinema: every list of identifiers *)

Lemma attach_loop (ids : list Value) :
  forall (miss0 old0 : list Value) (w : World),
  exists added,
    for_each attach_step (miss0, VArr old0) ids w
    = (Ok ((miss0 ++ filter (fun x => negb (stored Movies (db w) x)) ids)%list,
           VArr (old0 ++ added)%list),
       mkWorld (db w) (oplog w ++ map (OpFindOne Movies) ids))
    /\ Forall (fun x => In x ids /\ stored Movies (db w) x = true
                        /\ existsb (same_value_zero x) old0 = false) added.
Proof.
  induction ids as [| id ids IH]; intros miss0 old0 w.
  - exists []. cbn [for_each map filter]. rewrite !app_nil_r.
    split; [now destruct w | constructor].
  - cbn [for_each map filter]. rewrite bind_run. unfold attach_step at 1.
    rewrite bind_run.
    cbv beta iota delta [findOne bind record read_coll ret]. cbn [db oplog].
    unfold stored at 1.
    destruct (find (has_id id) (coll Movies (db w))) as [d |] eqn:Hd;
      cbn [truthy negb].
    + cbn [includes]. cbv beta iota delta [ret].
      destruct (existsb (same_value_zero id) old0) eqn:Hin; cbn [negb].
      * destruct (IH miss0 old0 (mkWorld (db w) (oplog w ++ [OpFindOne Movies id])))
          as (added & Hrun & Hall).
        cbn [db oplog] in Hrun, Hall. exists added.
        split; [rewrite Hrun, <- app_assoc; reflexivity |].
        eapply Forall_impl; [| exact Hall].
        intros x (Hx & Hs & Ho). repeat split; auto. now right.
      * cbn [push_of]. cbv beta iota delta [bind ret].
        destruct (IH miss0 (old0 ++ [id])%list
                     (mkWorld (db w) (oplog w ++ [OpFindOne Movies id])))
          as (added & Hrun & Hall).
        cbn [db oplog] in Hrun, Hall. exists (id :: added).
        split.
        { rewrite Hrun, <- !app_assoc. reflexivity. }
        constructor.
        { repeat split; [now left | | exact Hin]. unfold stored. now rewrite Hd. }
        eapply Forall_impl; [| exact Hall].
        intros x (Hx & Hs & Ho). repeat split; auto; [now right |].
        rewrite existsb_app in Ho. now apply orb_false_elim in Ho.
    + destruct (IH (push miss0 id) old0
                   (mkWorld (db w) (oplog w ++ [OpFindOne Movies id])))
        as (added & Hrun & Hall).
      cbn [db oplog] in Hrun, Hall. exists added.
      split; [rewrite Hrun; unfold push; rewrite <- !app_assoc; reflexivity |].
      eapply Forall_impl; [| exact Hall].
      intros x (Hx & Hs & Ho). repeat split; auto. now right.
Qed.

Lemma filter_all_length {A} (f : A -> bool) (l : list A) :
  (List.length (filter f l) =? List.length l)%nat = forallb f l.
Proof.
  induction l as [| a l IH]; [reflexivity |]. cbn [filter forallb].
  destruct (f a); cbn [List.length andb].
  - exact IH.
  - apply Nat.eqb_neq. pose proof (filter_length_le f l). lia.
Qed.

(** X17.  [PUT /cinemas/id/:id_cinema] on an existing cinema whose
    [movies] is an array (or absent), with a body whose [movies] is an
    array of identifiers, each a number or an [ObjectId]: every
    identifier is looked up among the movies, in order.  When none of them exists the answer is 404 and
    nothing is written.  Otherwise the answer is 200, with the plain
    message of success when every identifier was found, and the
    cinema's [movies] becomes the old list followed by added
    identifiers, each of which is one of the body's, exists among the
    movies, and was not in the old list; users and movies stay as
    they are. *)
Theorem cinemas_attach_outcome (id : string) (fields : Fields) (cinema : Doc)
        (ids old : list Value) (s : Store) :
  objectId_isValid id = true ->
  find (has_id (VOid (lowercase id))) (cinemas s) = Some cinema ->
  lookup "movies" cinema = Some (VArr old)
  \/ (lookup "movies" cinema = None /\ old = []) ->
  lookup "movies" fields = Some (VArr ids) ->
  Forall plain_id ids ->
  let oid := VOid (lowercase id) in
  let missing := filter (fun x => negb (stored Movies s x)) ids in
  let out := serve (cinemas_attach (id_request "id_cinema" id (VObj fields))) s in
  if forallb (fun x => negb (stored Movies s x)) ids
  then out = (Ok (Reply 404 (error_body "Filme/s não encontrado/s, insira o id correto")),
              s, OpFindOne Cinemas oid :: map (OpFindOne Movies) ids)
  else
    exists added message,
      out = (Ok (Reply 200 (VObj [("message", VStr message)])),
             set_coll Cinemas
                      (update_first (has_id oid)
                                    (apply_set [("movies", VArr (old ++ added)%list)])
                                    (cinemas s)) s,
             OpFindOne Cinemas oid
               :: (map (OpFindOne Movies) ids ++ [OpUpdateOne Cinemas oid])%list)
      /\ (missing = [] -> message = "Filme/s adicionado/s com sucesso")
      /\ Forall (fun x => In x ids /\ stored Movies s x = true
                          /\ existsb (same_value_zero x) old = false) added.
Proof.
  intros Hid Hfind Hold Hbody _ oid missing out. subst out oid missing.
  unfold serve, cinemas_attach, try_catch, new_ObjectId.
  change (param (id_request "id_cinema" id (VObj fields)) "id_cinema") with id.
  rewrite Hid. cbn [body id_request member get]. rewrite Hbody.
  rewrite !bind_run.
  cbv beta iota delta [findOne bind record read_coll ret]. cbn [db oplog coll app].
  rewrite Hfind. cbn [truthy negb].
  assert (Hm : (if truthy (get (VObj cinema) "movies")
                then get (VObj cinema) "movies" else VArr []) = VArr old).
  { cbn [get]. destruct Hold as [-> | [-> ->]]; reflexivity. }
  rewrite Hm. clear Hm.
  destruct (attach_loop ids [] old (mkWorld s [OpFindOne Cinemas (VOid (lowercase id))]))
    as (added & Hrun & Hall).
  cbn [db oplog app] in Hrun, Hall.
  rewrite Hrun. cbn [app]. cbv beta iota.
  rewrite filter_all_length.
  destruct (forallb _ ids); [reflexivity |].
  exists added. eexists. split; [| split; [| exact Hall]].
  - destruct (updateOne_set_run Cinemas (VOid (lowercase id))
                [("movies", VArr (old ++ added)%list)]
                (mkWorld s (OpFindOne Cinemas (VOid (lowercase id))
                              :: map (OpFindOne Movies) ids)))
      as (result & Hup).
    rewrite Hup. reflexivity.
  - intros Hnil. rewrite Hnil. reflexivity.
Qed.

Lemma cinemas_attach_outcome_witness :
  exists added message,
    serve (cinemas_attach
             (id_request "id_cinema" "65f0a1b2c3d4e5f60718293a"
                         (VObj [("movies", VArr [Sample.int 6; Sample.int 9])])))
          Sample.store
    = (Ok (Reply 200 (VObj [("message", VStr message)])),
       set_coll Cinemas
                (update_first (has_id (VOid "65f0a1b2c3d4e5f60718293a"))
                              (apply_set [("movies", VArr ([Sample.int 1] ++ added)%list)])
                              (cinemas Sample.store)) Sample.store,
       [OpFindOne Cinemas (VOid "65f0a1b2c3d4e5f60718293a");
        OpFindOne Movies (Sample.int 6); OpFindOne Movies (Sample.int 9);
        OpUpdateOne Cinemas (VOid "65f0a1b2c3d4e5f60718293a")]).
Proof.
  assert (Hplain : Forall plain_id [Sample.int 6; Sample.int 9]).
  { apply Forall_cons; [| apply Forall_cons; [| apply Forall_nil]];
      left; eexists; reflexivity. }
  destruct (cinemas_attach_outcome
              "65f0a1b2c3d4e5f60718293a"
              [("movies", VArr [Sample.int 6; Sample.int 9])]
              Sample.nimas [Sample.int 6; Sample.int 9] [Sample.int 1] Sample.store
              eq_refl eq_refl (or_introl eq_refl) eq_refl Hplain)
    as (added & message & Hrun & _).
  exists added, message. exact Hrun.
Defined.

(* ================================================================= *)
(** ** Updating a movie or a user: what can change *)

Lemma same_value_zero_string (g : string) (items : list Value) :
  existsb (same_value_zero (VStr g)) items = true -> In (VStr g) items.
Proof.
  intros H. apply existsb_exists in H as (y & Hy & E).
  destruct y; try discriminate E. cbn in E. apply String.eqb_eq in E. now subst.
Qed.

Lemma check_genre_ok (av : list Value) (errors errors' : list string) (g : Value)
      (w w' : World) :
  check_genre (VArr av) errors g w = (Ok errors', w') ->
  w' = w /\ ((errors' = errors /\ In g av) \/ exists m, errors' = push errors m).
Proof.
  unfold check_genre. destruct g;
    try (intros H; injection H as <- <-; split; [reflexivity | right; eauto]).
  cbn [includes join_of]. rewrite bind_run. cbv beta iota delta [ret].
  destruct (existsb (same_value_zero (VStr s)) av) eqn:E; cbn [negb].
  - intros H. injection H as <- <-. split; [reflexivity | left].
    split; [reflexivity | now apply same_value_zero_string].
  - rewrite bind_run. intros H. injection H as <- <-.
    split; [reflexivity | right; eauto].
Qed.

Lemma push_not_nil {A} (l : list A) (x : A) : push l x <> [].
Proof. unfold push. now destruct l. Qed.

Lemma check_genres_ok (av : list Value) (items : list Value) :
  forall (errors : list string) (w w' : World),
    for_each (check_genre (VArr av)) errors items w = (Ok [], w') ->
    w' = w /\ errors = [] /\ Forall (fun g => In g av) items.
Proof.
  induction items as [| g items IH]; intros errors w w'; cbn [for_each].
  - intros H. injection H as -> ->. repeat split. constructor.
  - intros H. apply bind_ok in H as (errors1 & w1 & Hstep & Hrest).
    apply IH in Hrest as (-> & -> & Hall).
    apply check_genre_ok in Hstep as (-> & [[<- Hin] | [m Hm]]).
    + repeat split. now constructor.
    + symmetry in Hm. now apply push_not_nil in Hm.
Qed.

(** An update body that [validateMovieToUpdate] accepts names only
    genres that some stored movie already has. *)
Lemma validateMovieToUpdate_ok (movie : Value) (items : list Value) (w w' : World) :
  validateMovieToUpdate movie w = (Ok [], w') ->
  get movie "genres" = VArr items ->
  db w' = db w
  /\ Forall (fun g => In g (distinct_values "genres" (movies (db w)))) items.
Proof.
  unfold validateMovieToUpdate. intros H Hg. rewrite Hg in H.
  cbn [truthy] in H. destruct items as [| g items].
  - injection H as H _. now apply push_not_nil in H.
  - apply bind_ok in H as (promise & w1 & Hd & Hloop).
    unfold distinct in Hd.
    cbv beta iota delta [bind record read_coll ret] in Hd. cbn [db oplog coll] in Hd.
    injection Hd as <- <-. cbn [await] in Hloop.
    apply check_genres_ok in Hloop as (-> & _ & Hall). now split.
Qed.

Lemma reads_only_includes (name : string) (a x : Value) : reads_only (includes name a x).
Proof. unfold includes. auto with store. Qed.

Lemma reads_only_join_of (name sep : string) (a : Value) : reads_only (join_of name sep a).
Proof. unfold join_of. auto with store. Qed.

Lemma reads_only_check_genre (av : Value) (errors : list string) (g : Value) :
  reads_only (check_genre av errors g).
Proof.
  unfold check_genre. destruct g; auto with store.
  apply reads_only_bind; [apply reads_only_includes | intros known].
  apply reads_only_if; [| auto with store].
  apply reads_only_bind; [apply reads_only_join_of | auto with store].
Qed.

Lemma reads_only_validateMovieToUpdate (movie : Value) :
  reads_only (validateMovieToUpdate movie).
Proof.
  unfold validateMovieToUpdate.
  apply reads_only_if; [| auto with store].
  destruct (get movie "genres"); auto with store.
  destruct items; auto with store.
  apply reads_only_bind; [auto with store | intros promise].
  apply reads_only_for_each. intros. apply reads_only_check_genre.
Qed.

(** X18.  [PUT /movies/id/:movie_id], on every store and every request
    whose identifier, when a digit string, is within the safe
    integers.  On a 200 the movies are the old ones with the first
    document of that identifier rewritten; the rewriting changes no field other than
    [title], [year] and [genres], and those only to the values of the
    body, so the identifier is kept; the users and the cinemas stay
    as they are; and every genre of the body is one that some stored
    movie already had. *)
Theorem movies_update_outcome (id : string) (payload : Value) (s : Store) :
  safe_id id ->
  let out := serve (movies_update (id_request "movie_id" id payload)) s in
  status_of (response_of out) = Some 200 ->
  exists f,
    movies (store_of out) = update_first (has_id (checkId id)) f (movies s)
    /\ users (store_of out) = users s
    /\ cinemas (store_of out) = cinemas s
    /\ (forall d k,
          lookup k (f d)
          = match (if existsb (String.eqb k) movie_fields
                   then lookup k (fields_of payload) else None) with
            | Some v => Some v
            | None => lookup k d
            end)
    /\ (forall items,
          lookup "genres" (fields_of payload) = Some (VArr items) ->
          Forall (fun g => In g (distinct_values "genres" (movies s))) items).
Proof.
  intros _. cbv zeta. unfold serve, movies_update, try_catch.
  change (param (id_request "movie_id" id payload) "movie_id") with id.
  change (body (id_request "movie_id" id payload)) with payload.
  set (mid := checkId id).
  destruct (truthy mid); cbn [negb]; [| discriminate].
  cbv beta iota delta [findOne bind record read_coll ret]. cbn [db oplog coll app].
  destruct (find (has_id mid) (movies s)) as [d0 |]; cbn [truthy negb]; [| discriminate].
  destruct (isArray payload); [discriminate |].
  set (w1 := mkWorld s _).
  destruct (filterValidFields movie_fields payload w1) as [[filtered | e] w2] eqn:Hf;
    [| discriminate].
  apply filterValidFields_ok in Hf as [-> ->].
  destruct (validateMovieToUpdate (VObj (pick movie_fields payload)) w1)
    as [[errors | e] w3] eqn:Hv; [| discriminate].
  destruct errors as [| m errors]; [| discriminate].
  cbn [List.length Nat.ltb Nat.leb fields_of].
  destruct (List.length (pick movie_fields payload) =? 0)%nat; [discriminate |].
  destruct (updateOne_set_run Movies mid (pick movie_fields payload) w3) as (result & Hup).
  rewrite Hup. unfold response_of, store_of, status_of. cbn [fst snd db coll set_coll].
  intros _.
  assert (Hdb : db w3 = s).
  { pose proof (reads_only_validateMovieToUpdate (VObj (pick movie_fields payload)) w1)
      as Hr. rewrite Hv in Hr. exact Hr. }
  rewrite Hdb. cbn [movies users cinemas].
  exists (apply_set (pick movie_fields payload)).
  repeat split.
  - intros d k. rewrite lookup_apply_set by apply NoDup_pick.
    now rewrite lookup_pick.
  - intros items Hg.
    apply (validateMovieToUpdate_ok _ items) in Hv as [_ Hall]; [exact Hall |].
    cbn [get]. rewrite lookup_pick. cbn [existsb movie_fields String.eqb].
    change (existsb (String.eqb "genres") movie_fields) with true.
    cbv iota. now rewrite Hg.
Qed.

Lemma movies_update_outcome_witness :
  exists f,
    movies (store_of (serve (movies_update
                               (id_request "movie_id" "6"
                                           (VObj [("genres", VArr [VStr "Comedy"])])))
                            Sample.store))
    = update_first (has_id (checkId "6")) f (movies Sample.store).
Proof.
  assert (Hsafe : safe_id "6") by (intros _; vm_compute; discriminate).
  destruct (movies_update_outcome "6" (VObj [("genres", VArr [VStr "Comedy"])])
                                  Sample.store Hsafe eq_refl) as (f & Hm & _).
  exists f. exact Hm.
Defined.

Lemma keys_pick (allowed : list string) (o : Value) :
  incl (keys (pick allowed o)) allowed.
Proof.
  unfold pick.
  assert (G : forall rest acc x,
             In x (keys (fold_left (fun acc k => if has_key k (fields_of o)
                                                 then set_field k (get o k) acc else acc)
                                   rest acc)) ->
             In x rest \/ In x (keys acc)).
  { induction rest as [| a rest IH]; intros acc x H; cbn [fold_left] in H; [now right |].
    apply IH in H as [H | H]; [left; now right |].
    destruct (has_key a (fields_of o)); [| now right].
    apply keys_set_field in H as [-> | H]; [left; now left | now right]. }
  intros x H. apply G in H as [H | []]. exact H.
Qed.

Lemma lookup_apply_set_other (k : string) (changes : Fields) (d : Doc) :
  ~ In k (keys changes) -> lookup k (apply_set changes d) = lookup k d.
Proof.
  unfold apply_set. revert d.
  induction changes as [| [k' v'] rest IH]; intros d H; cbn [fold_left fst snd];
    [reflexivity |].
  rewrite IH by (intros Hin; apply H; now right).
  apply lookup_set_field_other. apply String.eqb_neq. intros ->. apply H. now left.
Qed.

Lemma update_first_length (p : Doc -> bool) (f : Doc -> Doc) (docs : list Doc) :
  List.length (update_first p f docs) = List.length docs.
Proof.
  induction docs as [| d docs IH]; cbn [update_first]; [reflexivity |].
  destruct (p d); cbn [List.length]; congruence.
Qed.

(** X19.  [PUT /users/id/:user_id], on every store and every request
    whose identifier, when a digit string, is within the safe
    integers.  On a 200 the number of users is what it was, and the
    rewritten document differs from the stored one in no field other than
    [name], [gender], [age], [occupation], [movies] and
    [num_ratings]; its identifier in particular is kept. *)
Theorem users_update_whitelist (clock : Clock) (id : string) (payload : Value)
        (s : Store) :
  safe_id id ->
  let out := serve (users_update clock (id_request "user_id" id payload)) s in
  status_of (response_of out) = Some 200 ->
  exists f,
    users (store_of out) = update_first (has_id (checkId id)) f (users s)
    /\ List.length (users (store_of out)) = List.length (users s)
    /\ (forall d k, ~ In k ("num_ratings" :: user_fields) -> lookup k (f d) = lookup k d)
    /\ (forall d, lookup "_id" (f d) = lookup "_id" d).
Proof.
  intros _. cbv zeta. unfold serve, users_update, try_catch.
  change (param (id_request "user_id" id payload) "user_id") with id.
  change (body (id_request "user_id" id payload)) with payload.
  set (uid := checkId id).
  destruct (truthy uid); cbn [negb]; [| discriminate].
  cbv beta iota delta [findOne bind record read_coll ret]. cbn [db oplog coll app].
  destruct (find (has_id uid) (users s)) as [d0 |]; cbn [truthy negb]; [| discriminate].
  destruct (isArray payload); [discriminate |].
  set (w1 := mkWorld s _).
  destruct (filterValidFields user_fields payload w1) as [[filtered | e] w2] eqn:Hf;
    [| discriminate].
  apply filterValidFields_ok in Hf as [-> ->].
  pose proof (reads_only_validateUserToUpdate (VObj (pick user_fields payload)) w1) as Hdb.
  destruct (validateUserToUpdate (VObj (pick user_fields payload)) w1)
    as [[errors | e] w3] eqn:Hv; [| discriminate].
  cbn [snd] in Hdb. subst w1. cbn [db] in Hdb. clear Hv.
  destruct (0 <? List.length errors)%nat; [discriminate |].
  cbn [fields_of].
  destruct (List.length (pick user_fields payload) =? 0)%nat; [discriminate |].
  pose proof (keys_pick user_fields payload) as Hkeys.
  assert (Hm : lookup "movies" (pick user_fields payload)
               = lookup "movies" (fields_of payload)) by now rewrite lookup_pick.
  set (fs := pick user_fields payload) in *.
  cbn [get]. rewrite Hm.
  assert (Hend : forall changes,
             incl (keys changes) ("num_ratings" :: user_fields) ->
             List.length (update_first (has_id uid) (apply_set changes) (users s))
             = List.length (users s)
             /\ (forall d k, ~ In k ("num_ratings" :: user_fields) ->
                             lookup k (apply_set changes d) = lookup k d)
             /\ (forall d, lookup "_id" (apply_set changes d) = lookup "_id" d)).
  { intros changes Hincl.
    split; [apply update_first_length |].
    assert (Hother : forall d k, ~ In k ("num_ratings" :: user_fields) ->
                                 lookup k (apply_set changes d) = lookup k d).
    { intros d k Hk. apply lookup_apply_set_other. intros Hin. apply Hk, Hincl, Hin. }
    split; [exact Hother |].
    intros d. apply Hother. cbn [In user_fields].
    intros [H | [H | [H | [H | [H | [H | []]]]]]]; discriminate H. }
  destruct (lookup "movies" (fields_of payload)) as [v |] eqn:Hpm.
  - destruct (truthy v) eqn:Htv.
    + destruct (length_of v w3) as [[n | e] w4] eqn:Hlen; [| discriminate].
      cbn [set get].
      rewrite lookup_set_field_other by reflexivity. rewrite Hm.
      destruct (addTimestampAndDate clock v w4) as [[stamped | e] w5] eqn:Hst;
        [| discriminate].
      apply addTimestampAndDate_ok in Hst as [-> (items & -> & ->)].
      cbn [length_of] in Hlen. inversion Hlen; subst; clear Hlen.
      cbn [fields_of].
      set (changes := set_field "movies" _ _).
      destruct (updateOne_set_run Users uid changes w4) as [result ->].
      intros _. exists (apply_set changes).
      unfold store_of. cbn [fst snd db coll].
      destruct (users_set_coll (update_first (has_id uid) (apply_set changes)
                                             (users (db w4))) (db w4))
        as (-> & _ & _).
      split; [reflexivity |]. apply Hend. subst changes.
      intros x Hx. apply keys_set_field in Hx as [-> | Hx]; [right; cbn; tauto |].
      apply keys_set_field in Hx as [-> | Hx]; [now left | right; now apply Hkeys].
    + cbn [fields_of].
      destruct (updateOne_set_run Users uid fs w3) as [result ->].
      intros _. exists (apply_set fs).
      unfold store_of. cbn [fst snd db coll].
      destruct (users_set_coll (update_first (has_id uid) (apply_set fs)
                                             (users (db w3))) (db w3))
        as (-> & _ & _).
      rewrite Hdb. split; [reflexivity |]. apply Hend. intros x Hx. right. now apply Hkeys.
  - cbn [truthy fields_of].
    destruct (updateOne_set_run Users uid fs w3) as [result ->].
    intros _. exists (apply_set fs).
    unfold store_of. cbn [fst snd db coll].
    destruct (users_set_coll (update_first (has_id uid) (apply_set fs)
                                           (users (db w3))) (db w3))
      as (-> & _ & _).
    rewrite Hdb. split; [reflexivity |]. apply Hend. intros x Hx. right. now apply Hkeys.
Qed.

(* ================================================================= *)
(** ** Reading a movie *)

Lemma average_bounds (lo hi : Q) (qs : list Q) :
  qs <> [] ->
  Forall (fun q => lo <= q /\ q <= hi)%Q qs ->
  exists a, average qs = VNum (Fin a) /\ (lo <= a /\ a <= hi)%Q.
Proof.
  intros Hne Hall. destruct qs as [| q qs]; [congruence |].
  unfold average. eexists. split; [reflexivity |].
  set (n := List.length (q :: qs)).
  assert (Hn : (0 < inject_Z (Z.of_nat n))%Q).
  { change 0%Q with (inject_Z 0). rewrite <- Zlt_Qlt. subst n. simpl. lia. }
  rewrite Qred_correct.
  destruct (sum_bounds lo hi (q :: qs) Hall) as [Hlo Hhi]. fold n in Hlo, Hhi.
  split.
  - apply Qle_shift_div_l; [exact Hn |]. now rewrite Qmult_comm.
  - apply Qle_shift_div_r; [exact Hn |]. now rewrite Qmult_comm.
Qed.

Lemma entries_numeric (l : list Doc) :
  Forall entry_doc l ->
  exists qs, flat_map (fun d => numeric (get_path (VObj d) ["movies"; "rating"])) l = qs
             /\ List.length qs = List.length l
             /\ Forall (fun q => inject_Z 1 <= q /\ q <= inject_Z 5)%Q qs.
Proof.
  induction 1 as [| d l Hd _ (qs & Hqs & Hlen & Hall)].
  - exists []. now repeat split.
  - destruct (entry_doc_rating d Hd) as (q & Hq & Hb).
    exists (q :: qs). cbn [flat_map].
    unfold at_path, rating_of in Hq. rewrite Hq, Hqs. cbn [numeric app List.length].
    repeat split; auto.
Qed.

(** X20.  [GET /movies/id/:movie_id] when every stored user holds valid
    ratings and the identifier, when a digit string, is within the
    safe integers: a 200 carries the stored movie with one field set,
    [averageRating], which is either the text of a movie without
    ratings or a number between 1 and 5. *)
Theorem movies_get_average (id : string) (payload answer : Value) (s : Store) :
  safe_id id ->
  Forall valid_user (users s) ->
  response_of (serve (movies_get (id_request "movie_id" id payload)) s)
  = Ok (Reply 200 answer) ->
  exists movie a,
    find (has_id (checkId id)) (movies s) = Some movie
    /\ answer = VObj (set_field "averageRating" a movie)
    /\ (a = VStr "Sem avaliações"
        \/ exists q, a = VNum (Fin q) /\ (inject_Z 1 <= q /\ q <= inject_Z 5)%Q).
Proof.
  intros _ Hv. unfold serve, movies_get, try_catch.
  change (param (id_request "movie_id" id payload) "movie_id") with id.
  set (mid := checkId id).
  destruct (is_null mid); [discriminate |].
  rewrite bind_run.
  cbv beta iota zeta delta [findOne bind record read_coll ret]. cbn [db oplog coll].
  destruct (find (has_id mid) (movies s)) as [movie |]; cbn [truthy negb];
    [| discriminate].
  rewrite aggregate_run. cbn [db oplog coll].
  change (run_pipeline (average_pipeline mid) (users s))
    with (group_avg "averageRating" ["movies"; "rating"]
            (filter (path_matches ["movies"; "movieid"] mid)
                    (flat_map (unwind "movies") (users s)))).
  pose proof (Forall_filter _ entry_doc (path_matches ["movies"; "movieid"] mid) _
                (unwound_entries _ Hv)) as Hm.
  destruct (filter _ _) as [| d matched] eqn:Hf.
  - cbn [group_avg map]. unfold response_of. cbn [fst set].
    intros H. injection H as <-.
    exists movie, (VStr "Sem avaliações"). repeat split. now left.
  - destruct (entries_numeric _ Hm) as (qs & Hqs & Hlen & Hall).
    destruct (average_bounds (inject_Z 1) (inject_Z 5) qs) as (a & Ha & Hb).
    { destruct qs; [discriminate Hlen | discriminate]. }
    { exact Hall. }
    unfold group_avg. rewrite Hqs, Ha. cbn [map get lookup String.eqb].
    unfold response_of. cbn [fst set].
    intros H. injection H as <-.
    exists movie, (VNum (Fin a)). repeat split. right. now exists a.
Qed.

(* ================================================================= *)
(** ** Creating movies: what holds on every request *)

Lemma check_genre_grows (av : Value) (errors errors' : list string) (g : Value)
      (w w' : World) :
  check_genre av errors g w = (Ok errors', w') -> errors <> [] -> errors' <> [].
Proof.
  unfold check_genre. destruct g;
    try (intros H _; injection H as <- _; apply push_not_nil).
  rewrite bind_run.
  destruct (includes "availableGenres" av (VStr s) w) as [[known | e] w1];
    [| discriminate].
  destruct known; cbn [negb].
  - intros H. now injection H as <- _.
  - rewrite bind_run.
    destruct (join_of "availableGenres" ", " av w1) as [[joined | e] w2];
      [| discriminate].
    intros H _. injection H as <- _. apply push_not_nil.
Qed.

Lemma check_genres_grow (av : Value) (items : list Value) :
  forall (errors errors' : list string) (w w' : World),
    for_each (check_genre av) errors items w = (Ok errors', w') ->
    errors <> [] -> errors' <> [].
Proof.
  induction items as [| g items IH]; intros errors errors' w w'; cbn [for_each].
  - intros H. now injection H as <- _.
  - intros H Hne. apply bind_ok in H as (errors1 & w1 & Hstep & Hrest).
    eapply IH; [exact Hrest |]. eapply check_genre_grows; eassumption.
Qed.

(** Against the promise that [validateMovie] holds in place of the
    genres, the loop over a non-empty list returns only with an
    error in hand: a string genre throws, any other one is
    reported. *)
Lemma check_genres_promise (p : Value) (items : list Value) (errors errors' : list string)
      (w w' : World) :
  items <> [] ->
  for_each (check_genre (VPromise p)) errors items w = (Ok errors', w') ->
  errors' <> [].
Proof.
  destruct items as [| g items]; [congruence |]. intros _. cbn [for_each].
  intros H. apply bind_ok in H as (errors1 & w1 & Hstep & Hrest).
  eapply check_genres_grow; [exact Hrest |].
  unfold check_genre in Hstep. destruct g;
    try (injection Hstep as <- _; apply push_not_nil).
  discriminate Hstep.
Qed.

Lemma validateMovie_reports (movie : Value) (errors : list string) (w w' : World) :
  validateMovie movie w = (Ok errors, w') -> errors <> [].
Proof.
  unfold validateMovie.
  destruct (negb (truthy (get movie "genres")) || negb (isArray (get movie "genres"))
            || empty_array (get movie "genres")) eqn:Hg.
  - intros H. injection H as <- _. apply push_not_nil.
  - intros H. apply bind_ok in H as (promise & w1 & Hd & Hloop).
    unfold distinct in Hd.
    cbv beta iota delta [bind record read_coll ret] in Hd. injection Hd as <- <-.
    destruct (get movie "genres") as [| | b | n | g | items | fs | h | p];
      try (cbn in Hg; rewrite ?orb_true_r in Hg; discriminate Hg).
    eapply check_genres_promise; [| exact Hloop].
    intros ->. discriminate Hg.
Qed.

Lemma reads_only_validateMovie (movie : Value) : reads_only (validateMovie movie).
Proof.
  unfold validateMovie.
  apply reads_only_if; [auto with store |].
  apply reads_only_bind; [auto with store | intros promise].
  destruct (get movie "genres"); auto with store.
  apply reads_only_for_each. intros. apply reads_only_check_genre.
Qed.

Lemma reads_only_movies_create_step (acc : list Value * list Value) (i : nat)
      (movie : Value) :
  reads_only (movies_create_step acc i movie).
Proof.
  unfold movies_create_step. destruct acc as [ea ms].
  apply reads_only_bind; [apply reads_only_filterValidFields | intros filtered].
  apply reads_only_bind; [apply reads_only_validateMovie | intros errors].
  auto with store.
Qed.

Lemma movies_create_step_reports (ea ms ea' ms' : list Value) (i : nat)
      (movie : Value) (w w' : World) :
  movies_create_step (ea, ms) i movie w = (Ok (ea', ms'), w') -> ea' <> [].
Proof.
  unfold movies_create_step. intros H.
  apply bind_ok in H as (filtered & w1 & _ & H).
  apply bind_ok in H as (errors & w2 & Hv & H).
  apply validateMovie_reports in Hv.
  destruct errors as [| e errors]; [congruence |].
  cbn [List.length Nat.ltb Nat.leb] in H. injection H as <- _ _.
  apply push_not_nil.
Qed.

Lemma movies_create_loop_reports (items : list Value) :
  forall (i : nat) (ea ms ea' ms' : list Value) (w w' : World),
    for_index movies_create_step i (ea, ms) items w = (Ok (ea', ms'), w') ->
    (items = [] /\ ea' = ea /\ ms' = ms) \/ ea' <> [].
Proof.
  induction items as [| x items IH]; intros i ea ms ea' ms' w w'; cbn [for_index].
  - intros H. injection H as <- <- _. now left.
  - intros H. right. apply bind_ok in H as ([ea1 ms1] & w1 & Hstep & Hrest).
    apply movies_create_step_reports in Hstep.
    apply IH in Hrest as [(_ & -> & _) | Hne]; assumption.
Qed.

(** X21.  [POST /movies] never stores a movie: on every request and
    store the answer is a 400 or a 500 and the store is left as it
    was.  A movie whose genres pass the shape checks reaches the
    lookup in the list of available genres, which is a promise that
    was not awaited; a batch without such a movie is refused for its
    errors, and an empty batch is refused by the driver. *)
Theorem movies_create_never_inserts (req : Request) (s : Store) :
  let out := serve (movies_create req) s in
  store_of out = s
  /\ (status_of (response_of out) = Some 400
      \/ status_of (response_of out) = Some 500).
Proof.
  cbv zeta. unfold serve, movies_create, try_catch.
  destruct (body req) eqn:Hbody; try (split; [reflexivity | now left]).
  rewrite bind_run.
  pose proof (reads_only_for_index movies_create_step items
                reads_only_movies_create_step 0%nat ([], []) (mkWorld s [])) as Hdb.
  destruct (for_index movies_create_step 0 ([], []) items (mkWorld s []))
    as [[[ea ms] | e] w1] eqn:Hloop; cbn [snd db] in Hdb.
  2:{ split; [exact Hdb | now right]. }
  apply movies_create_loop_reports in Hloop as [(-> & -> & ->) | Hne].
  - cbn [List.length Nat.ltb Nat.leb]. rewrite bind_run.
    unfold insertMany. rewrite bind_run. cbv beta iota delta [record throw ret].
    cbn [db oplog]. split; [exact Hdb | now right].
  - destruct ea as [| x ea]; [congruence |].
    cbn [List.length Nat.ltb Nat.leb]. split; [exact Hdb | now left].
Qed.

(* ================================================================= *)
(** ** The two validators of a user *)

Lemma push_if_accepts (c : bool) (m : string) (errors : list string) :
  push_if c m errors = [] -> c = false /\ errors = [].
Proof.
  unfold push_if. destruct c; [| auto]. intros H. now apply push_not_nil in H.
Qed.

Lemma positive_number (v : Value) :
  negb (truthy v) || negb (is_number v) || lte v 0 = false ->
  truthy v = true /\ is_number v = true /\ lte v 0 = false /\ gt v 0 = true
  /\ lt v 0 = false.
Proof.
  intros H. apply orb_false_elim in H as [H Hl]. apply orb_false_elim in H as [Ht Hn].
  apply negb_false_iff in Ht, Hn. repeat split; auto.
  - destruct v as [| | | x | | | | |]; try discriminate Hn.
    destruct x as [| neg | q]; cbn in *; try discriminate.
    + now destruct neg.
    + unfold Qltb. now rewrite Hl.
  - destruct v as [| | | x | | | | |]; try discriminate Hn.
    destruct x as [| neg | q]; cbn in *; try reflexivity.
    + now destruct neg.
    + unfold of_Z in *. cbn in *. unfold Qltb. apply negb_false_iff.
      apply Qle_bool_iff. apply Qnot_lt_le. intros Hlt.
      apply Qlt_le_weak, Qle_bool_iff in Hlt. congruence.
Qed.

Lemma text_field (v : Value) : blank_or_missing v = false -> is_string v = true.
Proof.
  unfold blank_or_missing. intros H. apply orb_false_elim in H as [_ H].
  now destruct v.
Qed.

Lemma accepted_item (errors : list string) (i : nat) (movie : Value) (w w' : World) :
  validateUser_item errors i movie w = (Ok [], w') ->
  errors = [] /\ validateUserToUpdate_item [] i movie w = (Ok [], w').
Proof.
  unfold validateUser_item, validateUserToUpdate_item.
  destruct (negb (is_object_type movie) || is_null movie).
  { intros H. injection H as H _. now apply push_not_nil in H. }
  intros H. apply bind_ok in H as (e2 & w1 & Hmid & Hend).
  injection Hend as Hend <-.
  unfold extra_fields_error in Hend |- *.
  apply push_if_accepts in Hend as [Hx Hend]. rewrite Hx.
  apply push_if_accepts in Hend as [Hr ->].
  apply orb_false_elim in Hr as [Hr Hr5]. apply orb_false_elim in Hr as [Hr Hr1].
  apply orb_false_elim in Hr as [_ Hrn].
  rewrite Hrn, Hr1, Hr5. cbn [orb].
  destruct (negb (truthy (get movie "movieid")) || negb (is_number (get movie "movieid"))
            || lte (get movie "movieid") 0) eqn:Hid.
  { (* a rejected identifier leaves its message in the list *)
    exfalso. unfold push_if at 1 in Hmid.
    destruct (truthy (get movie "movieid") && is_number (get movie "movieid")
              && gt (get movie "movieid") 0).
    - apply bind_ok in Hmid as (ex & w2 & _ & Hmid). injection Hmid as Hmid _.
      apply push_if_accepts in Hmid as [_ Hmid]. now apply push_not_nil in Hmid.
    - injection Hmid as Hmid _. now apply push_not_nil in Hmid. }
  destruct (positive_number _ Hid) as (Ht & Hn & Hl & Hg & _).
  rewrite Ht, Hn, Hg, Hl in *. cbn [negb orb andb] in *.
  apply bind_ok in Hmid as (ex & w2 & Hfind & Hmid). injection Hmid as Hmid <-.
  apply push_if_accepts in Hmid as [Hex Hmid].
  cbv beta iota delta [push_if] in Hmid. subst errors.
  split; [reflexivity |].
  rewrite bind_run, bind_run, Hfind. cbv beta iota delta [ret]. now rewrite Hex.
Qed.

Lemma accepted_items (items : list Value) :
  forall (i : nat) (errors : list string) (w w' : World),
    for_index validateUser_item i errors items w = (Ok [], w') ->
    errors = [] /\ for_index validateUserToUpdate_item i [] items w = (Ok [], w').
Proof.
  induction items as [| x items IH]; intros i errors w w'; cbn [for_index].
  - intros H. injection H as -> ->. now split.
  - intros H. apply bind_ok in H as (e1 & w1 & Hstep & Hrest).
    apply IH in Hrest as [-> Hrest].
    apply accepted_item in Hstep as [-> Hstep].
    split; [reflexivity |]. now rewrite bind_run, Hstep.
Qed.

(** X22.  A user object that [validateUser] accepts is accepted by
    [validateUserToUpdate] as well, after the same lookups of the
    rated movies: what can be created can be sent again as an
    update. *)
Theorem created_passes_update (user : Value) (w w' : World) :
  validateUser user w = (Ok [], w') ->
  validateUserToUpdate user w = (Ok [], w').
Proof.
  unfold validateUser, validateUserToUpdate.
  set (e4 := push_if (blank_or_missing (get user "occupation")) _ _).
  assert (Hacc : e4 = [] ->
                 push_if (truthy (get user "occupation")
                          && negb (is_string (get user "occupation")))
                   "O campo 'occupation' deve ser uma string"
                   (push_if (truthy (get user "age")
                             && (negb (is_number (get user "age")) || lt (get user "age") 0))
                      "O campo 'age' deve ser um número inteiro positivo"
                      (push_if (truthy (get user "gender")
                                && negb (existsb (same_value_zero (get user "gender"))
                                                 [VStr "M"; VStr "F"]))
                         "O campo 'gender' deve ser 'M' ou 'F'"
                         (push_if (truthy (get user "name")
                                   && negb (is_string (get user "name")))
                            "O campo 'name' deve ser uma string" []))) = []).
  { subst e4. intros H.
    apply push_if_accepts in H as [Ho H]. apply push_if_accepts in H as [Ha H].
    apply push_if_accepts in H as [Hg H]. apply push_if_accepts in H as [Hn _].
    rewrite (text_field _ Ho), (text_field _ Hn).
    destruct (positive_number _ Ha) as (_ & Han & _ & _ & Hal).
    rewrite Han, Hal.
    apply orb_false_elim in Hg as [Hg Hfm]. apply orb_false_elim in Hg as [_ Hgs].
    apply negb_false_iff in Hgs.
    destruct (get user "gender") as [| | | | g | | | |]; try discriminate Hgs.
    cbn [existsb same_value_zero] in *.
    destruct (value_eqb (VStr g) (VStr "F")), (value_eqb (VStr g) (VStr "M"));
      try discriminate Hfm; cbn [negb orb andb]; now rewrite ?andb_false_r. }
  destruct (truthy (get user "movies")).
  - destruct (get user "movies") as [| | | | | items | | |];
      try (intros H; injection H as H _; now apply push_not_nil in H).
    intros H. apply accepted_items in H as [He H].
    now rewrite (Hacc He).
  - intros H. injection H as He <-. now rewrite (Hacc He).
Qed.

Lemma created_passes_update_witness :
  validateUserToUpdate
    (VObj [("name", VStr "Eva"); ("gender", VStr "F"); ("age", Sample.int 27);
           ("occupation", VStr "writer"); ("movies", VArr [VObj [("movieid", Sample.int 6); ("rating", Sample.int 4)]])])
    (mkWorld Sample.store [])
  = (Ok [], mkWorld Sample.store [OpFindOne Movies (Sample.int 6)]).
Proof.
  apply created_passes_update. reflexivity.
Defined.

(* ================================================================= *)
(** ** Movies by genre and year: what a list holds *)

(** X23.  Whenever the route answers with a list, the list is not
    empty, the genre is made of letters, the year is a digit string
    whose value lies between 1500 and the current year, and every
    element is a stored movie without its [_id], one whose [genres]
    hold the genre and whose [year] equals the year as a string. *)
Theorem genre_year_listing (clock : Clock) (req : Request) (s : Store)
        (results : list Value) :
  response_of (serve (movies_by_genre_year clock req) s)
  = Ok (Reply 200 (VArr results)) ->
  let genre := param req "genre_name" in
  let year := param req "year" in
  results <> []
  /\ letters_only genre = true
  /\ digits_only year = true
  /\ 1500 <= parse_digits 0 year <= full_year clock
  /\ Forall (fun v => exists d,
                 In d (movies s)
                 /\ v = VObj (remove_field "_id" d)
                 /\ field_matches (lookup "genres" d) (VStr genre) = true
                 /\ field_matches (lookup "year" d) (VStr year) = true) results.
Proof.
  unfold serve, movies_by_genre_year, try_catch.
  destruct (negb _ || negb _); [discriminate |].
  destruct (letters_only (param req "genre_name")) eqn:Hg; cbn [negb orb];
    [| discriminate].
  destruct (digits_only (param req "year")) eqn:Hy; cbn [negb]; [| discriminate].
  cbv beta iota zeta delta [bind ret distinct record read_coll find_eq].
  cbn [db oplog await includes coll].
  destruct (existsb _ _); cbv beta iota delta [ret]; cbn [negb db]; [| discriminate].
  rewrite (parseInt_digits _ Hy), !num_ltb_of_Z.
  destruct (parse_digits 0 (param req "year") <? 1500) eqn:Hlo; cbn [orb];
    [discriminate |].
  destruct (full_year clock <? parse_digits 0 (param req "year")) eqn:Hhi;
    [discriminate |].
  apply Z.ltb_ge in Hlo, Hhi.
  cbn [db oplog].
  match goal with
  | |- context [filter ?f (movies s)] => set (ok := f)
  end.
  destruct (filter ok (movies s)) as [| d found] eqn:Hf; [discriminate |].
  cbn [map List.length Nat.eqb]. unfold response_of. cbn [fst].
  intros H. injection H as <-.
  repeat split; try assumption; try discriminate.
  change (VObj (remove_field "_id" d) :: map (fun d => VObj (remove_field "_id" d)) found)
    with (map (fun d => VObj (remove_field "_id" d)) (d :: found)).
  rewrite <- Hf. apply Forall_forall. intros v Hv.
  apply in_map_iff in Hv as (x & <- & Hx). apply filter_In in Hx as [Hin Hok].
  exists x. subst ok. cbn [forallb fst snd] in Hok.
  apply andb_prop in Hok as [Hok1 Hok2]. apply andb_prop in Hok2 as [Hok2 _].
  repeat split; assumption.
Qed.

(* ================================================================= *)
(** ** The field filter on an object *)

(** X24.  [filterValidFields] on an object, for either list of allowed
    fields.  An object that has a key named [hasOwnProperty] of its
    own makes the first test throw.  On any other object the result
    holds the allowed fields that the object has, each once and with
    the object's value, and nothing else; the store and the call log
    are not touched. *)
Theorem filterValidFields_whitelist (allowed : list string) (fs : Fields) (w : World) :
  if has_key "hasOwnProperty" fs
  then allowed <> [] ->
       exists e, filterValidFields allowed (VObj fs) w = (Throw e, w)
  else exists picked,
      filterValidFields allowed (VObj fs) w = (Ok (VObj picked), w)
      /\ NoDup (keys picked)
      /\ incl (keys picked) allowed
      /\ (forall k, lookup k picked
                    = if existsb (String.eqb k) allowed then lookup k fs else None).
Proof.
  destruct (has_key "hasOwnProperty" fs) eqn:Hs.
  - destruct allowed as [| a allowed]; [congruence |]. intros _.
    unfold filterValidFields. cbn [for_each]. rewrite bind_run, bind_run.
    cbn [hasOwnProperty]. rewrite Hs. eexists. reflexivity.
  - exists (pick allowed (VObj fs)).
    split; [now apply filterValidFields_run |].
    split; [apply NoDup_pick |].
    split; [apply keys_pick |].
    intros k. now rewrite lookup_pick.
Qed.

(* ================================================================= *)
(** ** The properties at the sample store *)

Lemma sample_entry (movieid rating : Z) :
  1 <= rating <= 5 -> valid_entry (Sample.rated movieid rating).
Proof.
  intros [Hlo Hhi]. exists (inject_Z movieid), (inject_Z rating).
  split; [reflexivity |]. split; [reflexivity |].
  split; rewrite <- Zle_Qle; assumption.
Qed.

Lemma sample_valid_users : Forall valid_user (users Sample.store).
Proof.
  apply Forall_cons; [| apply Forall_cons; [| apply Forall_nil]];
    (eexists; split; [reflexivity |]);
    repeat (apply Forall_cons; [apply sample_entry; lia |]); apply Forall_nil.
Qed.

Lemma sample_identified_users : Forall identified (users Sample.store).
Proof.
  apply Forall_cons; [| apply Forall_cons; [| apply Forall_nil]];
    left; eexists; reflexivity.
Qed.

Lemma sample_whole_ratings : Forall whole_ratings (users Sample.store).
Proof.
  apply Forall_cons; [| apply Forall_cons; [| apply Forall_nil]];
    (eexists; split; [reflexivity |]);
    repeat (apply Forall_cons; [eexists; reflexivity |]); apply Forall_nil.
Qed.

Lemma sample_numeric_years : Forall numeric_year (movies Sample.store).
Proof.
  apply Forall_cons; [| apply Forall_cons; [| apply Forall_nil]];
    eexists; reflexivity.
Qed.

Lemma users_create_rejection_witness :
  exists payload,
    response_of (serve (users_create Sample.clock
                                     (Sample.post [VObj [("name", VStr "Eva")]]))
                       Sample.store)
    = Ok (Reply 400 payload)
    /\ exists details,
         payload = error_details "Dados do user inválidos" (VArr details)
         /\ details <> [] /\ Forall error_entry details.
Proof.
  eexists. split; [reflexivity |].
  destruct (users_create_rejection
              Sample.clock (Sample.post [VObj [("name", VStr "Eva")]]) Sample.store
              _ eq_refl) as [[H _] | H]; [discriminate H | exact H].
Defined.

Lemma users_update_outcome_witness :
  exists f,
    users (store_of (serve (users_update Sample.clock
                              (id_request "user_id" "1"
                                          (VObj [("age", Sample.int 31)])))
                           Sample.store))
    = update_first (has_id (checkId "1")) f (users Sample.store).
Proof.
  assert (Hsafe : safe_id "1") by (intros _; vm_compute; discriminate).
  destruct (users_update_outcome Sample.clock "1" (VObj [("age", Sample.int 31)])
                                 Sample.store Hsafe eq_refl) as (f & H & _).
  exists f. exact H.
Defined.

Lemma users_update_whitelist_witness :
  exists f,
    users (store_of (serve (users_update Sample.clock
                              (id_request "user_id" "2"
                                          (VObj [("occupation", VStr "writer")])))
                           Sample.store))
    = update_first (has_id (checkId "2")) f (users Sample.store)
    /\ forall d, lookup "_id" (f d) = lookup "_id" d.
Proof.
  assert (Hsafe : safe_id "2") by (intros _; vm_compute; discriminate).
  destruct (users_update_whitelist Sample.clock "2"
              (VObj [("occupation", VStr "writer")]) Sample.store Hsafe eq_refl)
    as (f & H & _ & _ & Hid).
  exists f. split; [exact H | exact Hid].
Defined.

Lemma users_get_answer_witness :
  exists answer,
    response_of (serve (users_get (id_request "user_id" "2" VUndef)) Sample.store)
    = Ok (Reply 200 (VArr answer))
    /\ Forall (fun v => exists d, v = VObj d /\ top_entry (users Sample.store) d) answer.
Proof.
  eexists. split; [reflexivity |].
  apply (users_get_answer (id_request "user_id" "2" VUndef) Sample.store).
  reflexivity.
Defined.

Lemma genre_year_never_lists_witness :
  status_of (response_of
               (serve (movies_by_genre_year
                         Sample.clock
                         (mkRequest [("genre_name", "Crime"); ("year", "1995")] [] VUndef))
                      Sample.store))
  <> Some 200.
Proof.
  apply genre_year_never_lists. exact sample_numeric_years.
Defined.

Lemma movies_create_string_genre_witness :
  serve (movies_create (Sample.post [Sample.drama; Sample.comedy])) Sample.store
  = (Ok (Reply 500 includes_failure), Sample.store, [OpDistinct Movies "genres"]).
Proof.
  apply (movies_create_string_genre
           [("title", VStr "Casablanca"); ("year", Sample.int 1942);
            ("genres", VArr [VStr "Drama"])]
           "Drama" [] [Sample.comedy] Sample.store); reflexivity.
Defined.

Lemma movies_higher_answer_witness :
  exists answer,
    serve (movies_higher (id_request "num_movies" "1" VUndef)) Sample.store
    = (Ok (Reply 200 answer), Sample.store, [OpAggregate Users]).
Proof.
  assert (Hpos : 0 < parse_digits 0 "1" <= max_safe_integer)
    by (split; [reflexivity | vm_compute; discriminate]).
  destruct (movies_higher_answer "1" VUndef Sample.store eq_refl Hpos)
    as (answer & H & _).
  exists answer. exact H.
Defined.

Lemma movies_higher_ranking_witness :
  exists entries docs,
    response_of (serve (movies_higher (id_request "num_movies" "2" VUndef)) Sample.store)
    = Ok (Reply 200 (VArr entries))
    /\ entries = map VObj docs
    /\ Forall averaged docs
    /\ StronglySorted (key_geq ["averageRating"]) docs.
Proof.
  eexists.
  destruct (movies_higher_ranking "2" VUndef Sample.store _ sample_valid_users eq_refl)
    as (docs & He & Ha & Hs).
  exists docs. split; [reflexivity |]. repeat split; assumption.
Defined.

Lemma movies_ratings_orders_witness :
  exists up down,
    Permutation up down
    /\ StronglySorted (fun a b => key_geq ["totalRatings"] b a) up
    /\ StronglySorted (key_geq ["totalRatings"]) down
    /\ serve (movies_ratings (id_request "order" "asc" VUndef)) Sample.store
       = (Ok (Reply 200 (ranking_answer up)), Sample.store, [OpAggregate Users]).
Proof.
  destruct (movies_ratings_orders VUndef Sample.store)
    as (up & down & Hup & _ & Hperm & Hsorted).
  destruct (Hsorted sample_valid_users) as [Hasc Hdesc].
  exists up, down. repeat split; assumption.
Defined.

Lemma users_stats_summary_witness :
  exists docs,
    serve (users_stats (mkRequest [] [] VUndef)) Sample.store
    = (Ok (Reply 200 (VArr (map VObj docs))), Sample.store, [OpAggregate Users])
    /\ Forall rated_within docs
    /\ Forall summarised docs.
Proof.
  destruct (users_stats_summary (mkRequest [] [] VUndef) Sample.store)
    as (docs & Hrun & Hsum).
  destruct (Hsum sample_valid_users sample_identified_users) as (Hall & _ & Hwhole).
  exists docs. split; [exact Hrun |]. split; [exact Hall |].
  apply Hwhole. exact sample_whole_ratings.
Defined.

Lemma movies_get_average_witness :
  exists answer movie a,
    response_of (serve (movies_get (id_request "movie_id" "6" VUndef)) Sample.store)
    = Ok (Reply 200 answer)
    /\ find (has_id (checkId "6")) (movies Sample.store) = Some movie
    /\ answer = VObj (set_field "averageRating" a movie).
Proof.
  assert (Hsafe : safe_id "6") by (intros _; vm_compute; discriminate).
  eexists.
  destruct (movies_get_average "6" VUndef _ Sample.store Hsafe sample_valid_users
                               eq_refl)
    as (movie & a & Hf & Ha & _).
  exists movie, a. split; [reflexivity |]. split; assumption.
Defined.

Lemma cinemas_movies_showing_witness :
  serve (cinemas_movies (id_request "id_cinema" "65f0a1b2c3d4e5f60718293a" VUndef))
        Sample.store
  = (Ok (Reply 200 (VArr [VObj Sample.toy_story])), Sample.store,
     [OpFindOne Cinemas (VOid "65f0a1b2c3d4e5f60718293a");
      OpFindOne Movies (Sample.int 1)]).
Proof.
  destruct (cinemas_movies_showing "65f0a1b2c3d4e5f60718293a" VUndef Sample.nimas
              Sample.store eq_refl eq_refl eq_refl) as [_ H].
  apply (H [Sample.int 1]); [reflexivity | discriminate |].
  apply Forall_cons; [left; eexists; reflexivity | apply Forall_nil].
Defined.

Lemma genre_year_listing_witness :
  exists results,
    response_of
      (serve (movies_by_genre_year
                Sample.clock
                (mkRequest [("genre_name", "Crime"); ("year", "1995")] [] VUndef))
             (mkStore [] [[("_id", Sample.int 6); ("title", VStr "Heat (1995)");
                           ("year", VStr "1995");
                           ("genres", VArr [VStr "Action"; VStr "Crime"])]] [] 0))
    = Ok (Reply 200 (VArr results))
    /\ results <> [].
Proof.
  eexists.
  destruct (genre_year_listing
              Sample.clock
              (mkRequest [("genre_name", "Crime"); ("year", "1995")] [] VUndef)
              (mkStore [] [[("_id", Sample.int 6); ("title", VStr "Heat (1995)");
                            ("year", VStr "1995");
                            ("genres", VArr [VStr "Action"; VStr "Crime"])]] [] 0)
              _ eq_refl) as [Hne _].
  split; [reflexivity | exact Hne].
Defined.
